(** * Credit-requirement engine and semester plan of the student plan page

    A shallow embedding of the plan page component: the requirement
    profile resolver [getPlanConfig], the semester/cohort plan handlers
    ([handleSubjectClick], [handleRemoveAssigned], [handleDeleteSemester],
    [handleDeleteSubject], ...), the credit aggregation
    ([creditsByCategory], [totalCredits], [progress]), the self-study
    (dokaksa) insertion handlers and the class_start reconciliation done
    at load.

    Around these it covers what the page derives for display (category
    cards, practicum counters, full view totals, the grouped subject
    panel, the displayed cohort group), the remaining plan handlers
    (adding a semester or a cohort, the delete button of a group tab,
    date edits, deletion of credit sources, the auto-save row), and the
    parts of the student form and of the student list that produce what
    the page reads: education level and desired degree, the cohort tags
    of class_start, the phone and cost fields, the status lists.

    Conventions of the embedding.
    - A JS string is a [string] holding its UTF-8 bytes.  For well-formed
      text, equality and substring search on UTF-8 bytes agree with the
      same operations on UTF-16 code units.
    - A JS number that holds a count, an id or a credit weight is a [Z].
      The progress bar divides and multiplies, so there the numbers are
      IEEE 754 doubles: [spec_float] at precision 53 with exponent bound
      1024, every operation rounded to nearest, ties to even.
    - [null]/[undefined] is [None].
    - A JS object used as a dictionary ([Record<number, T>]) is a [gmap];
      a missing key reads as [None], and [x ?? d] is [default d x].
    - React state is threaded explicitly through a [PlanState] record; a
      handler is a function from the state before the event to the state
      after it. *)

From stdpp Require Import gmap strings list pretty sorting.
From Stdlib Require Import Ascii QArith Qround Qpower SpecFloat.

Local Open Scope string_scope.
Local Open Scope list_scope.
Local Open Scope Z_scope.

(** ** JS string helpers *)

(** [s.includes(sub)]: [sub] occurs in [s] as a contiguous substring. *)
Fixpoint includes (s sub : string) : bool :=
  if String.prefix sub s then true
  else match s with
       | EmptyString => false
       | String _ rest => includes rest sub
       end.

(** ** Types *)

(** [type SubjectCategory = '전공' | '교양' | '일반'] *)
Inductive SubjectCategory : Set :=
  | Major     (* '전공' *)
  | Liberal   (* '교양' *)
  | General.  (* '일반' *)

Definition category_label (c : SubjectCategory) : string :=
  match c with
  | Major => "전공"
  | Liberal => "교양"
  | General => "일반"
  end.

Global Instance SubjectCategory_eq_dec : EqDecision SubjectCategory.
Proof. solve_decision. Defined.

Definition category_code (c : SubjectCategory) : nat :=
  match c with Major => 0 | Liberal => 1 | General => 2 end%nat.

Definition category_of_code (n : nat) : option SubjectCategory :=
  match n with
  | O => Some Major
  | S O => Some Liberal
  | S (S O) => Some General
  | _ => None
  end.

Global Instance SubjectCategory_countable : Countable SubjectCategory.
Proof.
  refine (inj_countable category_code category_of_code _).
  by intros [].
Defined.

(** [subject_type?: '필수' | '선택' | null] *)
Inductive SubjectType : Set :=
  | Required   (* '필수' *)
  | Elective.  (* '선택' *)

(** [type: '이론' | '실습'] *)
Inductive LectureType : Set :=
  | Theory     (* '이론' *)
  | Practice.  (* '실습' *)

Record Subject : Set := mkSubject {
  subject_id : Z;
  subject_category : SubjectCategory;
  subject_name : string;
  subject_credits : Z;
  subject_lecture : LectureType;
  subject_type : option SubjectType;
  subject_student_id : option string;
}.

Record PrevSubject : Set := mkPrevSubject {
  prev_id : string;
  prev_student_id : string;
  prev_category : SubjectCategory;
  prev_name : string;
  prev_credits : Z;
}.

Record CreditCert : Set := mkCreditCert {
  cert_id : string;
  cert_student_id : string;
  cert_name : string;
  cert_credits : Z;
  cert_acquired_date : option string;
}.

Record DokaksaEntry : Set := mkDokaksaEntry {
  dokaksa_id : string;
  dokaksa_student_id : string;
  dokaksa_stage : string;
  dokaksa_subject_name : string;
  dokaksa_credits : Z;
  dokaksa_credit_type : SubjectCategory;
}.

Record DokaksaPreset : Set := mkDokaksaPreset {
  preset_stage : string;
  preset_category : string;
  preset_name : string;
  preset_credits : Z;
  preset_subject_type : SubjectType;
  preset_sort_order : Z;
}.

Record Semester : Set := mkSemester {
  sem_id : Z;
  sem_year : string;
  sem_term : Z;
  sem_class_number : Z;   (* 기수 (1, 2, 3...) *)
  sem_label : string;
  sem_months : string;
}.

Record SemesterDates : Set := mkSemesterDates {
  date_start : string;
  date_end : string;
}.

Global Instance Semester_eq_dec : EqDecision Semester.
Proof. solve_decision. Defined.

(** ** Constants *)

Definition INITIAL_SEMESTERS : list Semester :=
  [ mkSemester 0 "2025" 1 1 "" "";
    mkSemester 1 "2025" 2 1 "" "" ].

Definition MAX_PER_SEMESTER : nat := 8.
Definition MAX_PER_YEAR : nat := 14.

(** ** Requirement profile *)

Record PlanTarget : Set := mkPlanTarget {
  target_label : string;
  target_categories : list SubjectCategory;
  target : Z;
  target_color : string;
}.

Record PracticeRequirement : Set := mkPracticeRequirement {
  practice_required : Z;  (* 필수 최소 이수 과목 수 *)
  practice_elective : Z;  (* 선택 최소 이수 과목 수 *)
}.

Record PlanConfig : Set := mkPlanConfig {
  isHighSchool : bool;
  totalTarget : Z;
  subjectTarget : option Z;
  targets : list PlanTarget;
  practice : option PracticeRequirement;
}.

Definition JUNGTAE_GROUP : list string :=
  ["고졸"; "2년제중퇴"; "3년제중퇴"; "4년제중퇴"].
Definition TWOTHREE_GRAD : list string := ["2년제졸업"; "3년제졸업"].
Definition GRAD_ALL : list string := ["2년제졸업"; "3년제졸업"; "4년제졸업"].

(** [arr.includes(x)] on an array of strings. *)
Definition array_includes (arr : list string) (x : string) : bool :=
  bool_decide (x ∈ arr).

(** [desiredDegree === '학사'] *)
Definition is_bachelor (desiredDegree : option string) : bool :=
  bool_decide (desiredDegree = Some "학사").

Definition getPlanConfig
    (educationLevel courseName desiredDegree : option string) : PlanConfig :=
  (* 실습 과정은 학력과 무관하게 별도 레이아웃 *)
  if match courseName with
     | Some c => includes c "실습"
     | None => false
     end
  then
    {| isHighSchool := false;
       totalTarget := 6;
       subjectTarget := Some 6;
       targets := [ mkPlanTarget "전공" [Major] 6 "#3182F6" ];
       practice := Some (mkPracticeRequirement 4 2) |}
  else
  let level := default "" educationLevel in
  (* 중퇴군 + 학사 → 140학점 *)
  if array_includes JUNGTAE_GROUP level && is_bachelor desiredDegree then
    {| isHighSchool := true;
       totalTarget := 140;
       subjectTarget := None;
       targets := [ mkPlanTarget "전공" [Major] 60 "#3182F6";
                    mkPlanTarget "교양" [Liberal] 30 "#059669";
                    mkPlanTarget "일반" [General] 50 "#D97706" ];
       practice := None |}
  (* 중퇴군 → 없음/전문학사 → 80학점 *)
  else if array_includes JUNGTAE_GROUP level then
    {| isHighSchool := true;
       totalTarget := 80;
       subjectTarget := None;
       targets := [ mkPlanTarget "전공" [Major] 45 "#3182F6";
                    mkPlanTarget "교양" [Liberal] 15 "#059669";
                    mkPlanTarget "일반" [General] 20 "#D97706" ];
       practice := None |}
  (* 2년제/3년제 졸업 + 학사 → 140학점 *)
  else if array_includes TWOTHREE_GRAD level && is_bachelor desiredDegree then
    {| isHighSchool := true;
       totalTarget := 140;
       subjectTarget := None;
       targets := [ mkPlanTarget "전공" [Major] 60 "#3182F6";
                    mkPlanTarget "교양" [Liberal] 30 "#059669";
                    mkPlanTarget "일반" [General] 50 "#D97706" ];
       practice := None |}
  (* 졸업군 → 없음 → 51학점 전공만 (전적대 불필요) *)
  else if array_includes GRAD_ALL level then
    {| isHighSchool := false;
       totalTarget := 51;
       subjectTarget := Some 8;
       targets := [ mkPlanTarget "전공" [Major] 51 "#3182F6" ];
       practice := None |}
  (* 기본값 *)
  else
    {| isHighSchool := false;
       totalTarget := 51;
       subjectTarget := Some 8;
       targets := [ mkPlanTarget "전공" [Major] 51 "#3182F6" ];
       practice := None |}.

(** The category targets of a profile as a table
    [categories ↦ target], colours and labels dropped. *)
Definition targetTable (cfg : PlanConfig) : list (list SubjectCategory * Z) :=
  (λ t, (target_categories t, target t)) <$> targets cfg.

(** Sum of the target values over the category targets. *)
Definition targetSum (cfg : PlanConfig) : Z :=
  foldr Z.add 0 (target <$> targets cfg).

(** ** Semester/cohort plan *)

(** The React state of the page that the plan handlers read and write. *)
Record PlanState : Type := mkPlanState {
  subjects : list Subject;
  semesters : list Semester;
  semesterSubjects : gmap Z (list Z);
  semesterDates : gmap Z SemesterDates;
  selectedSemester : Z;
}.

Definition setSubjects (st : PlanState) (v : list Subject) : PlanState :=
  mkPlanState v (semesters st) (semesterSubjects st) (semesterDates st)
              (selectedSemester st).
Definition setSemesters (st : PlanState) (v : list Semester) : PlanState :=
  mkPlanState (subjects st) v (semesterSubjects st) (semesterDates st)
              (selectedSemester st).
Definition setSemesterSubjects (st : PlanState) (v : gmap Z (list Z)) : PlanState :=
  mkPlanState (subjects st) (semesters st) v (semesterDates st)
              (selectedSemester st).
Definition setSemesterDates (st : PlanState) (v : gmap Z SemesterDates) : PlanState :=
  mkPlanState (subjects st) (semesters st) (semesterSubjects st) v
              (selectedSemester st).
Definition setSelectedSemester (st : PlanState) (v : Z) : PlanState :=
  mkPlanState (subjects st) (semesters st) (semesterSubjects st)
              (semesterDates st) v.

(** [`${s.year}-${s.term}`] *)
Definition groupKeyOf (s : Semester) : string :=
  sem_year s +:+ "-" +:+ pretty (sem_term s).

(** [semesterSubjects[id] ?? []] *)
Definition assignedTo (ss : gmap Z (list Z)) (id : Z) : list Z :=
  default [] (ss !! id).

(** [sems.reduce((sum, s) => sum + (semesterSubjects[s.id] ?? []).length, 0)] *)
Definition countSubjects (ss : gmap Z (list Z)) (sems : list Semester) : nat :=
  foldl (λ sum s, sum + length (assignedTo ss (sem_id s)))%nat 0%nat sems.

(** [semesters.find((s) => s.id === id)] *)
Definition findSemester (sems : list Semester) (id : Z) : option Semester :=
  List.find (λ s, bool_decide (sem_id s = id)) sems.

(** [Object.values(semesterSubjects).flat()].  The enumeration order of the
    keys is not modelled: the list is only tested for membership, summed
    over, or measured. *)
Definition assignedIds (ss : gmap Z (list Z)) : list Z :=
  mjoin ((map_to_list ss).*2).

Definition getYearSubjectCount (st : PlanState) (year : string) : nat :=
  countSubjects (semesterSubjects st)
                (filter (λ s, sem_year s = year) (semesters st)).

Definition isSubjectUsed (st : PlanState) (subjectId : Z) : bool :=
  bool_decide (subjectId ∈ assignedIds (semesterSubjects st)).

(** Semesters of the half-year group with the given key. *)
Definition groupSemsOf (sems : list Semester) (groupKey : string) : list Semester :=
  filter (λ s, groupKeyOf s = groupKey) sems.

(** Which branch [handleSubjectClick] takes; the two rejections carry what
    the alert shows ([curSem?.term], [curSem?.year]). *)
Inductive ClickOutcome : Type :=
  | AlreadyUsed
  | AlertSemesterMax (term : option Z)
  | AlertYearMax (year : option string)
  | Assign (targetSemId : Z) (current : list Z).

Definition subjectClickOutcome (st : PlanState) (subjectId : Z) : ClickOutcome :=
  if isSubjectUsed st subjectId then AlreadyUsed else
  (* 현재 선택된 기수(selectedSemester)에 추가 *)
  let targetSemId := selectedSemester st in
  let current := assignedTo (semesterSubjects st) targetSemId in
  let curSem := findSemester (semesters st) targetSemId in
  (* 같은 학기 그룹(1기+2기+... 합산) 과목 수 *)
  let groupKey := match curSem with Some c => groupKeyOf c | None => "" end in
  let groupSems := groupSemsOf (semesters st) groupKey in
  let groupCount := countSubjects (semesterSubjects st) groupSems in
  (* 연간 과목 수 *)
  let yearCount :=
    match curSem with
    | Some c => getYearSubjectCount st (sem_year c)
    | None => 0%nat
    end in
  if decide (MAX_PER_SEMESTER ≤ groupCount)%nat then
    AlertSemesterMax (sem_term <$> curSem)
  else if decide (MAX_PER_YEAR ≤ yearCount)%nat then
    AlertYearMax (sem_year <$> curSem)
  else Assign targetSemId current.

Definition handleSubjectClick (st : PlanState) (subjectId : Z) : PlanState :=
  match subjectClickOutcome st subjectId with
  | Assign targetSemId current =>
      setSemesterSubjects st
        (<[targetSemId := current ++ [subjectId]]> (semesterSubjects st))
  | _ => st
  end.

(** The [for ... break] loop of [handleRemoveAssigned]: the first semester
    of the group whose list holds the subject loses it. *)
Fixpoint removeFromGroup (groupSems : list Semester) (subjectId : Z)
    (next : gmap Z (list Z)) : gmap Z (list Z) :=
  match groupSems with
  | [] => next
  | sem :: rest =>
      if bool_decide (subjectId ∈ assignedTo next (sem_id sem)) then
        <[sem_id sem := filter (λ id, id ≠ subjectId) (assignedTo next (sem_id sem))]> next
      else removeFromGroup rest subjectId next
  end.

(** [semesters.find((s) => s.id === selectedSemester) ?? semesters[0]] *)
Definition currentSemester (st : PlanState) : option Semester :=
  match findSemester (semesters st) (selectedSemester st) with
  | Some c => Some c
  | None => head (semesters st)
  end.

Definition handleRemoveAssigned (st : PlanState) (_semesterId subjectId : Z)
    : PlanState :=
  (* 현재 선택된 semester의 year+term 그룹 내 어느 semester에 있는지 찾아서 삭제 *)
  let curSem := currentSemester st in
  let groupKey := match curSem with Some c => groupKeyOf c | None => "" end in
  let groupSems := groupSemsOf (semesters st) groupKey in
  setSemesterSubjects st (removeFromGroup groupSems subjectId (semesterSubjects st)).

Inductive DateField : Set := FieldStart | FieldEnd.

Definition handleDateChange (st : PlanState) (semesterId : Z)
    (field : DateField) (value : string) : PlanState :=
  let old := default (mkSemesterDates "" "") (semesterDates st !! semesterId) in
  let new := match field with
             | FieldStart => mkSemesterDates value (date_end old)
             | FieldEnd => mkSemesterDates (date_start old) value
             end in
  setSemesterDates st (<[semesterId := new]> (semesterDates st)).

(** [handleUpdateSemester(semId, field, value)] with [field] one of
    ['year'] and ['term'].  The page defines the handler but binds it to no
    control. *)
Inductive SemesterUpdate : Set :=
  | UpdateYear (value : string)
  | UpdateTerm (value : Z).

Definition handleUpdateSemester (st : PlanState) (semId : Z)
    (upd : SemesterUpdate) : PlanState :=
  setSemesters st
    ((λ s, if bool_decide (sem_id s = semId) then
             match upd with
             | UpdateYear v =>
                 mkSemester (sem_id s) v (sem_term s) (sem_class_number s)
                            (sem_label s) (sem_months s)
             | UpdateTerm v =>
                 mkSemester (sem_id s) (sem_year s) v (sem_class_number s)
                            (sem_label s) (sem_months s)
             end
           else s) <$> semesters st).

(** *** White space, [trim] and [parseInt] *)

Definition byte (c : Ascii.ascii) : N := Ascii.N_of_ascii c.

(** ECMAScript WhiteSpace and LineTerminator code points, by the length of
    their UTF-8 encoding: U+0009..U+000D and U+0020; U+00A0; U+1680,
    U+2000..U+200A, U+2028, U+2029, U+202F, U+205F, U+3000 and U+FEFF. *)
Definition isSpace1 (a : Ascii.ascii) : bool :=
  ((9 <=? byte a) && (byte a <=? 13) || (byte a =? 32))%N.

Definition isSpace2 (a b : Ascii.ascii) : bool :=
  ((byte a =? 194) && (byte b =? 160))%N.

Definition isSpace3 (a b c : Ascii.ascii) : bool :=
  ((byte a =? 225) && (byte b =? 154) && (byte c =? 128)
   || (byte a =? 226) && (byte b =? 128)
      && ((128 <=? byte c) && (byte c <=? 138)
          || (byte c =? 168) || (byte c =? 169) || (byte c =? 175))
   || (byte a =? 226) && (byte b =? 129) && (byte c =? 159)
   || (byte a =? 227) && (byte b =? 128) && (byte c =? 128)
   || (byte a =? 239) && (byte b =? 187) && (byte c =? 191))%N.

(** [s.trimStart()], which is also the greedy [\s*] of a regular expression. *)
Fixpoint trimStart (s : string) : string :=
  match s with
  | EmptyString => EmptyString
  | String a r1 =>
      if isSpace1 a then trimStart r1
      else match r1 with
           | EmptyString => s
           | String b r2 =>
               if isSpace2 a b then trimStart r2
               else match r2 with
                    | EmptyString => s
                    | String c r3 =>
                        if isSpace3 a b c then trimStart r3 else s
                    end
           end
  end.

(** [s] consists of white space only. *)
Definition allSpaces (s : string) : bool :=
  bool_decide (trimStart s = EmptyString).

Fixpoint trimEnd (s : string) : string :=
  match s with
  | EmptyString => EmptyString
  | String a r => if allSpaces s then EmptyString else String a (trimEnd r)
  end.

(** [s.trim()] *)
Definition trim (s : string) : string := trimEnd (trimStart s).

(** Value of a digit in the given radix (10 or 16). *)
Definition digitValue (radix : N) (c : Ascii.ascii) : option N :=
  let n := byte c in
  let v := (if (48 <=? n) && (n <=? 57) then Some (n - 48)
            else if (97 <=? n) && (n <=? 122) then Some (n - 87)
            else if (65 <=? n) && (n <=? 90) then Some (n - 55)
            else None)%N in
  match v with
  | Some d => if (d <? radix)%N then Some d else None
  | None => None
  end.

(** The longest prefix of digits, read as a number; [acc] is [None] until
    the first digit has been read. *)
Fixpoint parseDigits (radix : N) (s : string) (acc : option N) : option N :=
  match s with
  | EmptyString => acc
  | String c r =>
      match digitValue radix c with
      | Some d => parseDigits radix r (Some (default 0 acc * radix + d)%N)
      | None => acc
      end
  end.

(** [parseInt(s)] without a radix: leading white space, an optional sign,
    an optional [0x]/[0X] prefix, then the longest run of digits; [None]
    is [NaN].  The result is the exact integer (no rounding to a double). *)
Definition parseInt (s : string) : option Z :=
  let s0 := trimStart s in
  let '(neg, s1) :=
    match s0 with
    | String "-"%char r => (true, r)
    | String "+"%char r => (false, r)
    | _ => (false, s0)
    end in
  let '(radix, s2) :=
    match s1 with
    | String "0"%char (String "x"%char r)
    | String "0"%char (String "X"%char r) => (16%N, r)
    | _ => (10%N, s1)
    end in
  match parseDigits radix s2 None with
  | Some n => Some (if neg : bool then - Z.of_N n else Z.of_N n)
  | None => None
  end.

(** [`${n}`] for a number that is an integer or [NaN]. *)
Definition numberToString (n : option Z) : string :=
  match n with
  | Some z => pretty z
  | None => "NaN"
  end.

(** 학기별 기본 날짜: 1학기 11월 중순~5월 초 / 2학기 5월 중순~11월 초 *)
Definition getDefaultDates (year : string) (term : Z) : SemesterDates :=
  let y := parseInt year in
  if bool_decide (term = 1) then
    mkSemesterDates (numberToString ((λ v, v - 1) <$> y) +:+ "-11-15")
                    (numberToString y +:+ "-05-05")
  else
    mkSemesterDates (numberToString y +:+ "-05-15")
                    (numberToString y +:+ "-11-05").

(** [(semesters[semesters.length - 1]?.id ?? -1) + 1] *)
Definition nextSemesterId (sems : list Semester) : Z :=
  default (-1) (sem_id <$> last sems) + 1.

(** [handleConfirmAddSemester], reading [newSemesterForm = {year, term}]. *)
Definition handleConfirmAddSemester (st : PlanState)
    (formYear : string) (formTerm : Z) : PlanState :=
  let newId := nextSemesterId (semesters st) in
  let sameGroup :=
    filter (λ s, sem_year s = formYear ∧ sem_term s = formTerm) (semesters st) in
  let classNumber := Z.of_nat (length sameGroup) + 1 in
  mkPlanState
    (subjects st)
    (semesters st ++ [mkSemester newId formYear formTerm classNumber "" ""])
    (semesterSubjects st)
    (<[newId := getDefaultDates formYear formTerm]> (semesterDates st))
    newId.

(** [remaining[remaining.length - 1]?.id ?? 0] *)
Definition lastIdOrZero (remaining : list Semester) : Z :=
  default 0 (sem_id <$> last remaining).

Definition handleDeleteSemester (st : PlanState) (semId : Z) : PlanState :=
  if decide (length (semesters st) ≤ 1)%nat then st else
  let remaining := filter (λ s, sem_id s ≠ semId) (semesters st) in
  (* 삭제된 semester가 선택된 경우, 남은 그룹의 첫 번째 또는 마지막 semester로 이동 *)
  let selected :=
    if bool_decide (selectedSemester st = semId) then
      match findSemester (semesters st) semId with
      | Some deletedSem =>
          match groupSemsOf remaining (groupKeyOf deletedSem) with
          | first :: _ => sem_id first
          | [] => lastIdOrZero remaining
          end
      | None => lastIdOrZero remaining
      end
    else selectedSemester st in
  mkPlanState (subjects st) remaining
              (delete semId (semesterSubjects st))
              (delete semId (semesterDates st))
              selected.

(** The delete button of a group tab, shown when
    [semesters.length > groupSems.length]:
    [groupSems.forEach(s => handleDeleteSemester(s.id))].  All the calls run
    in one event, so each reads the [semesters] and [selectedSemester] of
    the same render.  Of the plain [setSemesters(remaining)] and
    [setSelectedSemester(id)] calls the last one made decides; the
    functional updates of the two maps are applied one after the other. *)
Definition handleDeleteGroup (st : PlanState) (groupKey : string) : PlanState :=
  let groupSems := groupSemsOf (semesters st) groupKey in
  if decide (length (semesters st) ≤ length groupSems)%nat then st else
  mkPlanState
    (subjects st)
    (foldl (λ _ s, semesters (handleDeleteSemester st (sem_id s)))
           (semesters st) groupSems)
    (foldl (λ next s, delete (sem_id s) next) (semesterSubjects st) groupSems)
    (foldl (λ next s, delete (sem_id s) next) (semesterDates st) groupSems)
    (foldl (λ selected s,
              if bool_decide (selectedSemester st = sem_id s)
              then selectedSemester (handleDeleteSemester st (sem_id s))
              else selected)
           (selectedSemester st) groupSems).

(** [handleAddKisu]: a further cohort in the group of the current semester.
    With no semester at all [curSem] is undefined and reading [curSem.year]
    throws; no new state comes out of the event, which is the [None] case
    here (the plan is never empty, see [handleDeleteSemester]). *)
Definition handleAddKisu (st : PlanState) : option PlanState :=
  match currentSemester st with
  | None => None
  | Some curSem =>
      let newId := nextSemesterId (semesters st) in
      let sameGroup :=
        filter (λ s, sem_year s = sem_year curSem ∧ sem_term s = sem_term curSem)
               (semesters st) in
      let classNumber := Z.of_nat (length sameGroup) + 1 in
      Some (mkPlanState
        (subjects st)
        (semesters st ++
           [mkSemester newId (sem_year curSem) (sem_term curSem) classNumber "" ""])
        (semesterSubjects st)
        (<[newId := getDefaultDates (sem_year curSem) (sem_term curSem)]>
           (semesterDates st))
        (selectedSemester st))
  end.

(** [handleDeleteSubject], after the awaited row delete: [dbError] tells
    whether the store reported an error (the handler then alerts and
    returns). *)
Definition handleDeleteSubject (st : PlanState) (subjectId : Z)
    (dbError : bool) : PlanState :=
  if dbError then st else
  mkPlanState
    (filter (λ s, subject_id s ≠ subjectId) (subjects st))
    (semesters st)
    (* 학기 배정에서도 제거 *)
    (filter (λ sid, sid ≠ subjectId) <$> semesterSubjects st)
    (semesterDates st)
    (selectedSemester st).

(** The user events that change the plan. *)
Inductive PlanOp : Type :=
  | SubjectClick (subjectId : Z)
  | RemoveAssigned (semesterId subjectId : Z)
  | DateChange (semesterId : Z) (field : DateField) (value : string)
  | UpdateSemester (semId : Z) (upd : SemesterUpdate)
  | ConfirmAddSemester (formYear : string) (formTerm : Z)
  | DeleteSemester (semId : Z)
  | DeleteGroup (groupKey : string)
  | AddKisu
  | DeleteSubject (subjectId : Z) (dbError : bool)
  | SelectSemester (semId : Z).

(** The state after an event; an event whose handler throws leaves the
    state it found. *)
Definition applyOp (st : PlanState) (op : PlanOp) : PlanState :=
  match op with
  | SubjectClick sid => handleSubjectClick st sid
  | RemoveAssigned semId sid => handleRemoveAssigned st semId sid
  | DateChange semId f v => handleDateChange st semId f v
  | UpdateSemester semId upd => handleUpdateSemester st semId upd
  | ConfirmAddSemester y t => handleConfirmAddSemester st y t
  | DeleteSemester semId => handleDeleteSemester st semId
  | DeleteGroup groupKey => handleDeleteGroup st groupKey
  | AddKisu => default st (handleAddKisu st)
  | DeleteSubject sid err => handleDeleteSubject st sid err
  | SelectSemester semId => setSelectedSemester st semId
  end.

Definition runOps (st : PlanState) (ops : list PlanOp) : PlanState :=
  foldl applyOp st ops.

(** ** Credit aggregation *)

(** [subjects.find((s) => s.id === sid)] *)
Definition findSubject (subjs : list Subject) (sid : Z) : option Subject :=
  List.find (λ s, bool_decide (subject_id s = sid)) subjs.

(** [map[cat] = (map[cat] ?? 0) + credits] *)
Definition addCredits (map : gmap SubjectCategory Z) (cat : SubjectCategory)
    (credits : Z) : gmap SubjectCategory Z :=
  <[cat := default 0 (map !! cat) + credits]> map.

Definition creditsByCategory (ids : list Z) (subjs : list Subject)
    (prevSubjects : list PrevSubject) (dokaksaList : list DokaksaEntry)
    : gmap SubjectCategory Z :=
  let map0 :=
    foldl (λ map sid,
             match findSubject subjs sid with
             | Some s => addCredits map (subject_category s) (subject_credits s)
             | None => map
             end) ∅ ids in
  (* 전적대 과목 *)
  let map1 :=
    foldl (λ map s, addCredits map (prev_category s) (prev_credits s))
          map0 prevSubjects in
  (* 독학사 — credit_type(전공/일반/교양)을 카테고리로 합산 *)
  foldl (λ map d, addCredits map (dokaksa_credit_type d) (dokaksa_credits d))
        map1 dokaksaList.

(** 자격증 학점 *)
Definition certCredits (creditCerts : list CreditCert) : Z :=
  foldl (λ s c, s + cert_credits c) 0 creditCerts.

Definition dokaksaCredits (dokaksaList : list DokaksaEntry) : Z :=
  foldl (λ s d, s + dokaksa_credits d) 0 dokaksaList.

Definition getCategoryCredits (byCategory : gmap SubjectCategory Z)
    (categories : list SubjectCategory) : Z :=
  foldl (λ sum cat, sum + default 0 (byCategory !! cat)) 0 categories.

(** [Object.values(creditsByCategory).reduce((a, b) => a + b, 0) + certCredits] *)
Definition totalCredits (byCategory : gmap SubjectCategory Z) (cert : Z) : Z :=
  foldl Z.add 0 ((map_to_list byCategory).*2) + cert.

(** The page's grand total for a plan and its credit sources. *)
Definition pageTotalCredits (ss : gmap Z (list Z)) (subjs : list Subject)
    (prevSubjects : list PrevSubject) (creditCerts : list CreditCert)
    (dokaksaList : list DokaksaEntry) : Z :=
  totalCredits (creditsByCategory (assignedIds ss) subjs prevSubjects dokaksaList)
               (certCredits creditCerts).

(** *** Progress percentage *)

(** The double nearest to an integer; integers below 2^53 in absolute
    value are doubles themselves. *)
Definition Number_of_Z (z : Z) : spec_float :=
  binary_normalize 53 1024 z 0 false.

(** [x / y] and [x * y] on doubles. *)
Definition Number_div : spec_float → spec_float → spec_float := SFdiv 53 1024.
Definition Number_mul : spec_float → spec_float → spec_float := SFmul 53 1024.

(** The rational a finite double stands for. *)
Definition Number_value (x : spec_float) : Q :=
  match x with
  | S754_finite s m e =>
      ((if s then -1 else 1) * inject_Z (Z.pos m) * 2 ^ e)%Q
  | _ => 0%Q
  end.

(** The integer nearest to [x], ties towards +∞. *)
Definition roundHalfUp (x : Q) : Z := Qfloor (x + (1 # 2))%Q.

(** What [Math.round] returns: an integer, or its argument when that is
    [NaN] or infinite. *)
Inductive Rounded : Set :=
  | RNaN
  | RInfinity (negative : bool)
  | RInteger (z : Z).

Global Instance Rounded_eq_dec : EqDecision Rounded.
Proof. solve_decision. Defined.

(** [Math.round(x)] *)
Definition Math_round (x : spec_float) : Rounded :=
  match x with
  | S754_nan => RNaN
  | S754_infinity s => RInfinity s
  | S754_zero _ => RInteger 0
  | S754_finite _ _ _ => RInteger (roundHalfUp (Number_value x))
  end.

(** [Math.min(a, b)] for an integer [b]: [NaN] when [a] is. *)
Definition Math_min (a : Rounded) (b : Z) : Rounded :=
  match a with
  | RNaN => RNaN
  | RInfinity true => RInfinity true
  | RInfinity false => RInteger b
  | RInteger z => RInteger (Z.min z b)
  end.

(** [(totalCredits / planConfig.totalTarget) * 100], before rounding. *)
Definition progressRatio (total : Z) (planConfig : PlanConfig) : spec_float :=
  Number_mul (Number_div (Number_of_Z total)
                         (Number_of_Z (totalTarget planConfig)))
             (Number_of_Z 100).

(** [Math.min(Math.round((totalCredits / planConfig.totalTarget) * 100), 100)] *)
Definition progress (total : Z) (planConfig : PlanConfig) : Rounded :=
  Math_min (Math_round (progressRatio total planConfig)) 100.

(** A double that is neither [NaN] nor negative. *)
Definition nonNegative (x : spec_float) : Prop :=
  match x with
  | S754_nan => False
  | S754_zero s | S754_infinity s | S754_finite s _ _ => s = false
  end.

(** ** Self-study (dokaksa) entries *)

(** [dokaksaForm] *)
Record DokaksaForm : Set := mkDokaksaForm {
  form_stage : string;
  form_subject_name : string;
  form_credits : Z;
}.

(** The object handed to [.insert(...)] on [student_dokaksa];
    [ins_credit_type = None] when the object has no [credit_type] field. *)
Record DokaksaInsert : Set := mkDokaksaInsert {
  ins_student_id : string;
  ins_stage : string;
  ins_subject_name : string;
  ins_credits : Z;
  ins_credit_type : option SubjectCategory;
}.

(** What a dokaksa handler asks of the store. *)
Inductive DokaksaRequest : Set :=
  | NoRequest
  | DeleteDokaksa (entryId : string)
  | InsertDokaksa (row : DokaksaInsert).

(** 1단계 → 교양, 2/3단계 전공일치 → 전공, 아니면 일반.
    [student?.major && preset.category === student.major]: a major that is
    [null] or the empty string is falsy. *)
Definition presetCreditType (stage : string) (major : option string)
    (category : string) : SubjectCategory :=
  if bool_decide (stage = "1단계") then Liberal
  else match major with
       | Some m =>
           if bool_decide (m ≠ "") && bool_decide (category = m)
           then Major else General
       | None => General
       end.

Definition handleToggleDokaksaPreset (studentId : string)
    (major : option string) (dokaksaList : list DokaksaEntry)
    (dokaksaForm : DokaksaForm) (preset : DokaksaPreset) : DokaksaRequest :=
  match List.find (λ d, bool_decide (dokaksa_stage d = form_stage dokaksaForm)
                        && bool_decide (dokaksa_subject_name d = preset_name preset))
                  dokaksaList with
  | Some existing => DeleteDokaksa (dokaksa_id existing)
  | None =>
      InsertDokaksa
        {| ins_student_id := studentId;
           ins_stage := form_stage dokaksaForm;
           ins_subject_name := preset_name preset;
           ins_credits := preset_credits preset;
           ins_credit_type :=
             Some (presetCreditType (form_stage dokaksaForm) major
                                    (preset_category preset)) |}
  end.

Definition handleAddDokaksa (studentId : string) (dokaksaForm : DokaksaForm)
    : DokaksaRequest :=
  if bool_decide (trim (form_subject_name dokaksaForm) = "") then NoRequest
  else
    InsertDokaksa
      {| ins_student_id := studentId;
         ins_stage := form_stage dokaksaForm;
         ins_subject_name := trim (form_subject_name dokaksaForm);
         ins_credits := form_credits dokaksaForm;
         ins_credit_type := None |}.

(** The [credit_type] the table holds for an inserted row.  The definition
    of the [student_dokaksa] table is not part of the repository's schema
    file, so the value the column takes when the row leaves it out is a
    parameter ([None] for NULL). *)
Definition storedCreditType (columnDefault : option SubjectCategory)
    (row : DokaksaInsert) : option SubjectCategory :=
  match ins_credit_type row with
  | Some c => Some c
  | None => columnDefault
  end.

(** ** Load: saved plan and class_start *)

(** [s.split(',')] *)
Fixpoint split_comma (s : string) : list string :=
  match s with
  | EmptyString => [EmptyString]
  | String c r =>
      if bool_decide (c = ","%char) then EmptyString :: split_comma r
      else match split_comma r with
           | h :: t => String c h :: t
           | [] => [String c EmptyString]
           end
  end.

(** [\d] *)
Definition isDigit (c : Ascii.ascii) : bool :=
  ((48 <=? byte c) && (byte c <=? 57))%N.

(** Greedy [\d*]: the digits matched and what follows them. *)
Fixpoint digitsPrefix (s : string) : string * string :=
  match s with
  | EmptyString => (EmptyString, EmptyString)
  | String c r =>
      if isDigit c then
        let '(ds, rest) := digitsPrefix r in (String c ds, rest)
      else (EmptyString, s)
  end.

(** Match the literal [p] at the head of [s]. *)
Fixpoint stripPrefix (p s : string) : option string :=
  match p, s with
  | EmptyString, _ => Some s
  | String a p', String b s' =>
      if bool_decide (a = b) then stripPrefix p' s' else None
  | String _ _, EmptyString => None
  end.

(** [/(\d{4})년\s*(\d+)학기\s*(\d+)기/] anchored at the head of [s]; the
    three captured groups.  White space, digits and the Hangul literals
    are pairwise disjoint, so the greedy reading is the only one. *)
Definition matchCohortAt (s : string) : option (string * string * string) :=
  match s with
  | String d1 (String d2 (String d3 (String d4 r0))) =>
      if isDigit d1 && isDigit d2 && isDigit d3 && isDigit d4 then
        match stripPrefix "년" r0 with
        | Some r1 =>
            let '(m2, r2) := digitsPrefix (trimStart r1) in
            if bool_decide (m2 = EmptyString) then None else
            match stripPrefix "학기" r2 with
            | Some r3 =>
                let '(m3, r4) := digitsPrefix (trimStart r3) in
                if bool_decide (m3 = EmptyString) then None else
                match stripPrefix "기" r4 with
                | Some _ =>
                    Some (String d1 (String d2 (String d3 (String d4 EmptyString))),
                          m2, m3)
                | None => None
                end
            | None => None
            end
        | None => None
        end
      else None
  | _ => None
  end.

(** [val.match(re)]: the leftmost position at which the pattern matches. *)
Fixpoint matchCohort (s : string) : option (string * string * string) :=
  match matchCohortAt s with
  | Some m => Some m
  | None =>
      match s with
      | EmptyString => None
      | String _ r => matchCohort r
      end
  end.

(** class_start (쉼표 구분 다중 기수) → Semester 목록으로 파싱 *)
Definition parseClassStart (classStart : option string) : list Semester :=
  match classStart with
  | None => []
  | Some s =>
      if bool_decide (s = EmptyString) then [] else
      let vals := filter (λ v, v ≠ EmptyString) (trim <$> split_comma s) in
      mjoin
        (imap (λ idx val,
                 match matchCohort val with
                 | None => []
                 | Some (m1, m2, m3) =>
                     match parseInt m2, parseInt m3 with
                     | Some term, Some cls =>
                         [mkSemester (Z.of_nat idx) m1 term cls "" ""]
                     | _, _ => []   (* not reached: m2 and m3 are digit runs *)
                     end
                 end) vals)
  end.

(** A semester as stored in the plan row; rows written before cohorts
    existed have no [class_number]. *)
Record SavedSemester : Set := mkSavedSemester {
  saved_id : Z;
  saved_year : string;
  saved_term : Z;
  saved_class_number : option Z;
  saved_label : string;
  saved_months : string;
}.

Record SavedPlan : Type := mkSavedPlan {
  plan_semesters : option (list SavedSemester);
  plan_semester_subjects : option (gmap Z (list Z));
  plan_semester_dates : option (gmap Z SemesterDates);
}.

(** [{ ...s, class_number: s.class_number ?? 1 }] *)
Definition normalizeSaved (s : SavedSemester) : Semester :=
  mkSemester (saved_id s) (saved_year s) (saved_term s)
             (default 1 (saved_class_number s)) (saved_label s) (saved_months s).

(** [finalSemesters] before the class_start step. *)
Definition savedSemesters (plan : option SavedPlan) : list Semester :=
  match plan with
  | Some p =>
      match plan_semesters p with
      | Some (s :: rest) => normalizeSaved <$> (s :: rest)
      | _ => INITIAL_SEMESTERS
      end
  | None => INITIAL_SEMESTERS
  end.

(** [s.year === cs.year && s.term === cs.term && s.class_number === cs.class_number] *)
Definition sameCohort (s cs : Semester) : bool :=
  bool_decide (sem_year s = sem_year cs)
  && bool_decide (sem_term s = sem_term cs)
  && bool_decide (sem_class_number s = sem_class_number cs).

(** [finalSemesters.some(s => ...)] *)
Definition represented (finalSemesters : list Semester) (cs : Semester) : bool :=
  existsb (λ s, sameCohort s cs) finalSemesters.

Definition withId (cs : Semester) (id : Z) : Semester :=
  mkSemester id (sem_year cs) (sem_term cs) (sem_class_number cs)
             (sem_label cs) (sem_months cs).

(** [Math.max(...finalSemesters.map(s => s.id))].  Of no argument it is -∞;
    [savedSemesters] is never empty, so that case does not arise at load. *)
Definition maxId (sems : list Semester) : Z :=
  match sems with
  | [] => 0
  | s :: rest => foldl Z.max (sem_id s) (sem_id <$> rest)
  end.

(** The [for (const cs of csItems)] loop over the pair
    [(finalSemesters, nextId)]. *)
Definition appendLoop (csItems : list Semester) (acc : list Semester * Z)
    : list Semester * Z :=
  foldl (λ '(final, nextId) cs,
           if represented final cs then (final, nextId)
           else (final ++ [withId cs nextId], nextId + 1))
        acc csItems.

(** 저장된 플랜 있음 → 누락된 기수만 추가 *)
Definition appendMissing (csItems finalSemesters : list Semester) : list Semester :=
  (appendLoop csItems (finalSemesters, maxId finalSemesters + 1)).1.

(** class_start에 있는 기수 중 finalSemesters에 없는 것 추가 *)
Definition mergeClassStart (csItems finalSemesters : list Semester)
    (hasPlan : bool) : list Semester :=
  match csItems with
  | [] => finalSemesters
  | _ :: _ =>
      (* class_start 기반이 하나도 반영 안 된 상태면 (저장된 플랜 없음) 교체 *)
      let hasAnyMatch := existsb (represented finalSemesters) csItems in
      if negb hasAnyMatch && negb hasPlan then
        (* 저장된 플랜 없음 → class_start로 완전히 초기화 *)
        imap (λ i cs, withId cs (Z.of_nat i)) csItems
      else appendMissing csItems finalSemesters
  end.

(** The semester list the page starts with. *)
Definition loadSemesters (classStart : option string) (plan : option SavedPlan)
    : list Semester :=
  mergeClassStart (parseClassStart classStart) (savedSemesters plan)
                  (bool_decide (is_Some plan)).

(** The state of the page when the load has finished: the stored maps
    where the plan row has them, the first [useState] values elsewhere. *)
Definition loadPlanState (loadedSubjects : list Subject)
    (classStart : option string) (plan : option SavedPlan) : PlanState :=
  mkPlanState
    loadedSubjects
    (loadSemesters classStart plan)
    (default ∅ (plan ≫= plan_semester_subjects))
    (default ∅ (plan ≫= plan_semester_dates))
    0.

(** ** Vocabulary of the statements *)

(** The course name is set and holds the practicum marker. *)
Definition containsPracticum (courseName : option string) : Prop :=
  ∃ c pre post, courseName = Some c ∧ c = pre +:+ "실습" +:+ post.

(** The education level is set and is one of [group]. *)
Definition levelIn (educationLevel : option string) (group : list string) : Prop :=
  ∃ l, educationLevel = Some l ∧ l ∈ group.

(** Each subject id sits in the list of at most one key of the assignment
    map (keys with no semester included). *)
Definition uniquelyAssigned (ss : gmap Z (list Z)) : Prop :=
  ∀ k1 k2 l1 l2 x,
    ss !! k1 = Some l1 → ss !! k2 = Some l2 → x ∈ l1 → x ∈ l2 → k1 = k2.

(** Every list of [ss'] is, under the same key, part of a list of [ss]. *)
Definition shrinks (ss' ss : gmap Z (list Z)) : Prop :=
  ∀ k l', ss' !! k = Some l' → ∃ l, ss !! k = Some l ∧ ∀ x, x ∈ l' → x ∈ l.

(** Number of subjects assigned to a semester. *)
Definition assignedCount (ss : gmap Z (list Z)) (s : Semester) : nat :=
  length (assignedTo ss (sem_id s)).

(** Subjects assigned across all cohorts of the half-year group
    [(year, term)]. *)
Definition groupTotal (sems : list Semester) (ss : gmap Z (list Z))
    (year : string) (term : Z) : nat :=
  sum_list_with (assignedCount ss)
    (filter (λ s, sem_year s = year ∧ sem_term s = term) sems).

(** Subjects assigned across all semesters of [year]. *)
Definition yearTotal (sems : list Semester) (ss : gmap Z (list Z))
    (year : string) : nat :=
  sum_list_with (assignedCount ss) (filter (λ s, sem_year s = year) sems).

(** Both capacity bounds hold, for every group and every year. *)
Definition withinCaps (st : PlanState) : Prop :=
  (∀ year term,
     (groupTotal (semesters st) (semesterSubjects st) year term ≤ 8)%nat)
  ∧ (∀ year, (yearTotal (semesters st) (semesterSubjects st) year ≤ 14)%nat).

(** The assignment attempted by a click, carried out without any check. *)
Definition forceAssign (st : PlanState) (subjectId : Z) : PlanState :=
  setSemesterSubjects st
    (<[selectedSemester st :=
         assignedTo (semesterSubjects st) (selectedSemester st) ++ [subjectId]]>
       (semesterSubjects st)).

(** The operations that add no semester and rename none: clicks on
    subjects, changes of selection, removals, deletions and date edits. *)
Definition addsNoSemester (op : PlanOp) : Prop :=
  match op with
  | ConfirmAddSemester _ _ | AddKisu | UpdateSemester _ _ => False
  | _ => True
  end.

(** A credit source as a list of (category, credits) contributions. *)
Definition assignedEntries (ids : list Z) (subjs : list Subject)
    : list (SubjectCategory * Z) :=
  omap (λ sid, (λ s, (subject_category s, subject_credits s))
                 <$> findSubject subjs sid) ids.

Definition prevEntries (prevSubjects : list PrevSubject)
    : list (SubjectCategory * Z) :=
  (λ s, (prev_category s, prev_credits s)) <$> prevSubjects.

Definition dokaksaEntries (dokaksaList : list DokaksaEntry)
    : list (SubjectCategory * Z) :=
  (λ d, (dokaksa_credit_type d, dokaksa_credits d)) <$> dokaksaList.

Definition sumZ (l : list Z) : Z := foldr Z.add 0 l.

(** Credits of all contributions, and of those of one category. *)
Definition creditsOf (entries : list (SubjectCategory * Z)) : Z :=
  sumZ (entries.*2).

Definition creditsIn (cat : SubjectCategory)
    (entries : list (SubjectCategory * Z)) : Z :=
  creditsOf (filter (λ e, e.1 = cat) entries).

(** One loop over a list of contributions, as each of the three loops of
    [creditsByCategory] does over its source. *)
Definition addEntries (m : gmap SubjectCategory Z)
    (entries : list (SubjectCategory * Z)) : gmap SubjectCategory Z :=
  foldl (λ map e, addCredits map e.1 e.2) m entries.

(** [s] is a run of decimal digits. *)
Fixpoint allDigits (s : string) : bool :=
  match s with
  | EmptyString => true
  | String c r => isDigit c && allDigits r
  end.

(** The ids of the semesters grow along the list, as they do when every
    semester is appended with an id above the last one. *)
Definition increasingIds (sems : list Semester) : Prop :=
  StronglySorted Z.lt (sem_id <$> sems).

(** ** Example data *)

Definition exampleSubject (id : Z) (cat : SubjectCategory) (credits : Z) : Subject :=
  mkSubject id cat "과목" credits Theory None (Some "student-1").

(** Two semesters of 2025; subject 7 sits in the first and 9 in the second. *)
Definition examplePlan : PlanState :=
  mkPlanState
    [exampleSubject 7 Major 3; exampleSubject 9 Liberal 2]
    INITIAL_SEMESTERS
    (<[0 := [7]]> (<[1 := [9]]> ∅))
    ∅
    0.

(** The first half of 2025 runs two cohorts (ids 0 and 2); cohort 1 of
    the first half is selected. *)
Definition exampleCohorts : PlanState :=
  mkPlanState
    [exampleSubject 7 Major 3; exampleSubject 9 Liberal 2]
    [ mkSemester 0 "2025" 1 1 "" "";
      mkSemester 1 "2025" 2 1 "" "";
      mkSemester 2 "2025" 1 2 "" "" ]
    (<[0 := [7]]> (<[2 := [9]]> ∅))
    (<[0 := getDefaultDates "2025" 1]> ∅)
    0.

(** A plan whose only semester is the selected one. *)
Definition exampleSingle : PlanState :=
  mkPlanState [] [mkSemester 0 "2025" 1 1 "" ""] (<[0 := [7]]> ∅) ∅ 0.

(** The first half of 2025 holds 8 subjects over its two cohorts, the
    second half 6: the year is at 14.  The second half is selected. *)
Definition exampleFull : PlanState :=
  mkPlanState
    []
    [ mkSemester 0 "2025" 1 1 "" "";
      mkSemester 1 "2025" 2 1 "" "";
      mkSemester 2 "2025" 1 2 "" "" ]
    (<[0 := [1; 2; 3; 4; 5]]>
       (<[1 := [9; 10; 11; 12; 13; 14]]> (<[2 := [6; 7; 8]]> ∅)))
    ∅
    1.

(** Seven major subjects worth 20 credits are assigned over two semesters;
    one prior-institution major subject of 3 credits, one self-study entry
    of 4 credits typed as major, one 5-credit certificate. *)
Definition exampleCatalog : list Subject :=
  [ exampleSubject 1 Major 3; exampleSubject 2 Major 3; exampleSubject 3 Major 3;
    exampleSubject 4 Major 3; exampleSubject 5 Major 3; exampleSubject 6 Major 3;
    exampleSubject 7 Major 2; exampleSubject 8 Liberal 2 ].

Definition exampleAssignment : gmap Z (list Z) :=
  <[0 := [1; 2; 3; 4]]> (<[1 := [5; 6; 7]]> ∅).

Definition examplePrev : PrevSubject :=
  mkPrevSubject "p-1" "student-1" Major "사회복지학개론" 3.

Definition exampleDokaksa : DokaksaEntry :=
  mkDokaksaEntry "d-1" "student-1" "2단계" "사회복지학" 4 Major.

Definition exampleCert : CreditCert :=
  mkCreditCert "c-1" "student-1" "자격증" 5 None.

(** The plan row written after a first load of the class_start string
    "2025년 1학기 1기,2026년 1학기 2기" with no stored plan. *)
Definition exampleSavedPlan : SavedPlan :=
  mkSavedPlan
    (Some [ mkSavedSemester 0 "2025" 1 (Some 1) "" "";
            mkSavedSemester 1 "2025" 2 (Some 1) "" "";
            mkSavedSemester 2 "2026" 1 (Some 2) "" "" ])
    None None.

(** Three cohorts of one half year that carry the same id share one
    assignment list, which here holds two subjects. *)
Definition exampleSharedId : PlanState :=
  mkPlanState
    []
    [ mkSemester 0 "2025" 1 1 "" "";
      mkSemester 0 "2025" 1 2 "" "";
      mkSemester 0 "2025" 1 3 "" "" ]
    (<[0 := [1; 2]]> ∅)
    ∅
    0.

(** On [exampleCohorts]: the first half of 2025 is deleted by its tab
    button while its first cohort is selected, nine subjects are clicked,
    and a semester is added for the first half of 2026. *)
Definition exampleReuseOps : list PlanOp :=
  [DeleteGroup "2025-1"]
  ++ (SubjectClick <$> [101; 102; 103; 104; 105; 106; 107; 108; 109])
  ++ [ConfirmAddSemester "2026" 1].

(** ** Student form: education levels and desired degrees *)

Definition EDUCATION_LEVELS : list string :=
  ["고졸"; "2년제중퇴"; "2년제졸업"; "3년제중퇴"; "3년제졸업"; "4년제중퇴"; "4년제졸업"].

(** 희망학위 옵션 (교육수준별); [level] is [''] when nothing is chosen. *)
Definition getDesiredDegreeOptions (level : string) : list string :=
  if bool_decide (level = "") || bool_decide (level = "4년제졸업") then []
  else if bool_decide (level = "2년제졸업") || bool_decide (level = "3년제졸업")
  then ["없음"; "학사"]
  else ["전문학사"; "학사"].   (* 고졸, 중퇴군 — 없음 제외 *)

(** [isRehabCourse ? [] : getDesiredDegreeOptions(form.education_level)] *)
Definition degreeOptions (selectedCourseName level : string) : list string :=
  if includes selectedCourseName "실습" then [] else getDesiredDegreeOptions level.

(** [value || null] in the payload of the students page. *)
Definition orNull (value : string) : option string :=
  if bool_decide (value = "") then None else Some value.

(** ** Category cards *)

(** [getCategoryCredits(t.categories)] for each target of the profile, as
    the stat cards show it. *)
Definition earnedByTarget (byCategory : gmap SubjectCategory Z)
    (planConfig : PlanConfig) : list Z :=
  (λ t, getCategoryCredits byCategory (target_categories t)) <$> targets planConfig.

(** ** Subject counters and the full view *)

Global Instance SubjectType_eq_dec : EqDecision SubjectType.
Proof. solve_decision. Defined.

Global Instance LectureType_eq_dec : EqDecision LectureType.
Proof. solve_decision. Defined.

(** [assignedIds.length + prevSubjects.length] *)
Definition totalSubjects (ids : list Z) (prevSubjects : list PrevSubject) : Z :=
  Z.of_nat (length ids) + Z.of_nat (length prevSubjects).

(** The pair [{ required, elective }] of [practiceCount]. *)
Record PracticeCounter : Set := mkPracticeCounter {
  counter_required : Z;
  counter_elective : Z;
}.

(** The callback of [assignedIds.forEach] in [practiceCount]:
    [if (s?.subject_type === '필수') required++;
     if (s?.subject_type === '선택') elective++]. *)
Definition countTyped (subjs : list Subject) (acc : Z * Z) (sid : Z) : Z * Z :=
  let t := findSubject subjs sid ≫= subject_type in
  (if bool_decide (t = Some Required) then acc.1 + 1 else acc.1,
   if bool_decide (t = Some Elective) then acc.2 + 1 else acc.2).

(** 전적대 전공 과목은 선택으로 카운트 *)
Definition countPrevMajor (elective : Z) (s : PrevSubject) : Z :=
  if bool_decide (prev_category s = Major) then elective + 1 else elective.

(** 실습예정 요건 카운터 (필수/선택 이수 과목 수); [None] is [null]. *)
Definition practiceCount (planConfig : PlanConfig) (ids : list Z)
    (subjs : list Subject) (prevSubjects : list PrevSubject)
    : option PracticeCounter :=
  match practice planConfig with
  | None => None
  | Some _ =>
      let counted := foldl (countTyped subjs) (0, 0) ids in
      Some (mkPracticeCounter counted.1
              (foldl countPrevMajor counted.2 prevSubjects))
  end.

(** 전체보기 고정 컬럼: 전공(category), 교양(category), 실습(type).
    [semesterSubjects[semId] ?? semesterSubjects[String(semId)]] reads one
    and the same key, and [sub.id === sid || sub.id === Number(sid)] is one
    test on numbers. *)
Definition getSemCreditByCol (st : PlanState) (semId : Z) (col : string) : Z :=
  let ids := assignedTo (semesterSubjects st) semId in
  foldl (λ sum sid,
           match findSubject (subjects st) sid with
           | None => sum
           | Some s =>
               if bool_decide (col = "전공") then
                 if bool_decide (subject_category s = Major)
                 then sum + subject_credits s else sum
               else if bool_decide (col = "교양") then
                 if bool_decide (subject_category s = Liberal)
                 then sum + subject_credits s else sum
               else if bool_decide (col = "실습") then
                 if bool_decide (subject_lecture s = Practice)
                 then sum + subject_credits s else sum
               else sum
           end) 0 ids.

Definition getTotalCreditByCol (st : PlanState) (col : string) : Z :=
  foldl (λ sum sem, sum + getSemCreditByCol st (sem_id sem) col) 0 (semesters st).

(** ** Subject list panel *)

(** [selectedCategory === '전체' ? subjects
      : subjects.filter((s) => s.category === selectedCategory)] *)
Definition filteredSubjects (selectedCategory : string) (subjs : list Subject)
    : list Subject :=
  if bool_decide (selectedCategory = "전체") then subjs
  else filter (λ s, category_label (subject_category s) = selectedCategory) subjs.

(** [if (!groups[c]) groups[c] = []; groups[c].push(s)] on an object whose
    keys keep the order in which they were first set. *)
Fixpoint pushGroup (groups : list (SubjectCategory * list Subject))
    (s : Subject) : list (SubjectCategory * list Subject) :=
  match groups with
  | [] => [(subject_category s, [s])]
  | (c, l) :: rest =>
      if bool_decide (c = subject_category s) then (c, l ++ [s]) :: rest
      else (c, l) :: pushGroup rest s
  end.

(** [Object.entries(groupedSubjects)] *)
Definition groupedSubjects (filtered : list Subject)
    : list (SubjectCategory * list Subject) :=
  foldl pushGroup [] filtered.

(** [subjects] in which the subject is required, elective. *)
Definition isTyped (subjs : list Subject) (t : SubjectType) (sid : Z) : Prop :=
  findSubject subjs sid ≫= subject_type = Some t.

Global Instance isTyped_dec (subjs : list Subject) (t : SubjectType) (sid : Z) :
  Decision (isTyped subjs t sid).
Proof. unfold isTyped. apply _. Defined.

(** The values of a list in the order in which each is first met. *)
Definition firstSeen {A} `{EqDecision A} (l : list A) : list A :=
  reverse (remove_dups (reverse l)).

(** The subjects of one category, in list order. *)
Definition ofCategory (c : SubjectCategory) (l : list Subject) : list Subject :=
  filter (λ s, subject_category s = c) l.

(** ** The displayed group *)

(** [currentSemester ? `${currentSemester.year}-${currentSemester.term}` : ''] *)
Definition selectedGroupKey (st : PlanState) : string :=
  match currentSemester st with Some c => groupKeyOf c | None => "" end.

(** 같은 year+term 그룹의 모든 학기 *)
Definition selectedGroupSemesters (st : PlanState) : list Semester :=
  groupSemsOf (semesters st) (selectedGroupKey st).

(** 그룹의 모든 과목 합산:
    [selectedGroupSemesters.flatMap((s) => semesterSubjects[s.id] ?? [])] *)
Definition currentSemesterSubjectIds (st : PlanState) : list Z :=
  mjoin ((λ s, assignedTo (semesterSubjects st) (sem_id s))
           <$> selectedGroupSemesters st).

(** [exampleCohorts] after the delete button of the tab of its first half
    year: semesters 0 and 1 are left and the selection is 2. *)
Definition exampleOrphan : PlanState := handleDeleteGroup exampleCohorts "2025-1".

(** ** Student form: cohort tags, cohort input, phone *)

(** [s.replace(/\D/g, '')].  A character outside ASCII is encoded with
    bytes from 128 on, none of which is a digit. *)
Fixpoint onlyDigits (s : string) : string :=
  match s with
  | EmptyString => EmptyString
  | String c r => if isDigit c then String c (onlyDigits r) else onlyDigits r
  end.

(** [s.slice(0, n)], [s.slice(n)] and [s.slice(a, b)] for indices that are
    not negative, on strings of one-byte characters. *)
Fixpoint sliceTo (n : nat) (s : string) : string :=
  match n, s with
  | S n', String c r => String c (sliceTo n' r)
  | _, _ => EmptyString
  end.

Fixpoint sliceFrom (n : nat) (s : string) : string :=
  match n, s with
  | S n', String _ r => sliceFrom n' r
  | _, _ => s
  end.

Definition slice (a b : nat) (s : string) : string :=
  sliceTo (b - a) (sliceFrom a s).

(** [s.length] in UTF-16 code units, for well-formed UTF-8: one unit per
    character of up to three bytes, two per character of four bytes. *)
Fixpoint utf16Length (s : string) : nat :=
  match s with
  | EmptyString => 0%nat
  | String c r =>
      ((if (byte c <? 128)%N || ((192 <=? byte c) && (byte c <? 240))%N then 1
        else if (240 <=? byte c)%N then 2 else 0) + utf16Length r)%nat
  end.

(** [tags.join(',')] *)
Definition joinComma (tags : list string) : string := String.concat "," tags.

(** [form.class_start.split(',').filter(Boolean)] *)
Definition classStartTags (class_start : string) : list string :=
  filter (λ t, t ≠ EmptyString) (split_comma class_start).

(** The Enter key and the [+] button of the cohort input: the new value of
    [form.class_start] (the input itself is cleared). *)
Definition addClassStartTag (class_start classStartInput : string) : string :=
  let val := trim classStartInput in
  let tags := classStartTags class_start in
  if bool_decide (val ≠ EmptyString) && negb (bool_decide (val ∈ tags))
  then joinComma (tags ++ [val])
  else class_start.

(** The [✕] button of tag [i]: [tags.filter((_, idx) => idx !== i)]. *)
Definition removeClassStartTag (class_start : string) (i : nat) : string :=
  joinComma (delete i (classStartTags class_start)).

(** [onChange] of the cohort input: the new [classStartInput] for the
    text [raw] the browser reports. *)
Definition formatClassStartInput (classStartInput raw : string) : string :=
  let prevDigits := onlyDigits classStartInput in
  let newDigits := sliceTo 7 (onlyDigits raw) in
  let effectiveDigits :=
    if bool_decide (newDigits = prevDigits)
       && bool_decide (utf16Length raw < utf16Length classStartInput)%nat
    then sliceTo (String.length newDigits - 1) newDigits else newDigits in
  if bool_decide (effectiveDigits = EmptyString) then EmptyString
  else if decide (String.length effectiveDigits < 4)%nat then effectiveDigits
  else if decide (String.length effectiveDigits = 4)%nat then
    effectiveDigits +:+ "년 "
  else if decide (String.length effectiveDigits = 5)%nat then
    slice 0 4 effectiveDigits +:+ "년 " +:+ sliceFrom 4 effectiveDigits +:+ "학기 "
  else
    slice 0 4 effectiveDigits +:+ "년 " +:+ slice 4 5 effectiveDigits +:+ "학기 "
    +:+ sliceFrom 5 effectiveDigits +:+ "기".

(** 전화번호 자동 하이픈: the new [form.phone]. *)
Definition handlePhone (raw : string) : string :=
  let d := sliceTo 11 (onlyDigits raw) in
  if decide (7 < String.length d)%nat then
    slice 0 3 d +:+ "-" +:+ slice 3 7 d +:+ "-" +:+ sliceFrom 7 d
  else if decide (3 < String.length d)%nat then
    slice 0 3 d +:+ "-" +:+ sliceFrom 3 d
  else d.

(** 비용 콤마 포맷: the new [form.cost]. *)
Definition handleCost (raw : string) : string := onlyDigits raw.

(** The string holds no comma. *)
Fixpoint noComma (s : string) : bool :=
  match s with
  | EmptyString => true
  | String c r => negb (bool_decide (c = ","%char)) && noComma r
  end.

(** The number a run of decimal digits denotes. *)
Fixpoint decimalFrom (acc : N) (s : string) : N :=
  match s with
  | EmptyString => acc
  | String c r => decimalFrom (acc * 10 + (byte c - 48)) r
  end.

Definition decimal (s : string) : Z := Z.of_N (decimalFrom 0 s).

(** A cohort as three runs of digits: a year of four digits, a term and a
    cohort number of at least one digit each, and of at most fifteen, so
    that the numbers they denote are exact in the code. *)
Definition wellFormedCohort (c : string * string * string) : Prop :=
  String.length c.1.1 = 4%nat ∧ allDigits c.1.1 = true
  ∧ c.1.2 ≠ EmptyString ∧ allDigits c.1.2 = true
  ∧ c.2 ≠ EmptyString ∧ allDigits c.2 = true
  ∧ (String.length c.1.2 ≤ 15)%nat ∧ (String.length c.2 ≤ 15)%nat.

(** The tag the cohort input shows for a complete cohort. *)
Definition cohortTag (c : string * string * string) : string :=
  c.1.1 +:+ "년 " +:+ c.1.2 +:+ "학기 " +:+ c.2 +:+ "기".

(** The semester the plan page makes of cohort [c] found at position [i]
    of class_start. *)
Definition cohortSemester (i : nat) (c : string * string * string) : Semester :=
  mkSemester (Z.of_nat i) c.1.1 (decimal c.1.2) (decimal c.2) "" "".

(** ** Deleting credit sources, toggling a self-study preset *)

(** [handleDeletePrevSubject], [handleDeleteCert] and [handleDeleteDokaksa]
    after the awaited row delete: on a store error the handler alerts and
    returns, otherwise the entry is filtered out of the list. *)
Definition handleDeletePrevSubject (prevSubjects : list PrevSubject)
    (entryId : string) (dbError : bool) : list PrevSubject :=
  if dbError then prevSubjects
  else filter (λ s, prev_id s ≠ entryId) prevSubjects.

Definition handleDeleteCert (creditCerts : list CreditCert)
    (certId : string) (dbError : bool) : list CreditCert :=
  if dbError then creditCerts
  else filter (λ c, cert_id c ≠ certId) creditCerts.

Definition handleDeleteDokaksa (dokaksaList : list DokaksaEntry)
    (entryId : string) (dbError : bool) : list DokaksaEntry :=
  if dbError then dokaksaList
  else filter (λ d, dokaksa_id d ≠ entryId) dokaksaList.

(** [setDokaksaList((prev) => [...prev, data as DokaksaEntry])] with the
    row the store returns for an insert. *)
Definition dokaksaInserted (dokaksaList : list DokaksaEntry)
    (data : DokaksaEntry) : list DokaksaEntry :=
  dokaksaList ++ [data].

(** The store returned the row as it was sent. *)
Definition storedAs (data : DokaksaEntry) (row : DokaksaInsert) : Prop :=
  dokaksa_stage data = ins_stage row
  ∧ dokaksa_subject_name data = ins_subject_name row
  ∧ dokaksa_credits data = ins_credits row
  ∧ (∀ c, ins_credit_type row = Some c → dokaksa_credit_type data = c).

(** ** Student list: the three status lists and the counters *)

(** 상태별 분리.  Of a student only the status is read here, so the lists
    are given over any type of students with a status. *)
Definition activeStudents {Student : Type} (status : Student → string)
    (students : list Student) : list Student :=
  filter (λ s, status s ≠ "환불" ∧ status s ≠ "삭제예정") students.

Definition refundStudents {Student : Type} (status : Student → string)
    (students : list Student) : list Student :=
  filter (λ s, status s = "환불") students.

Definition deleteStudents {Student : Type} (status : Student → string)
    (students : list Student) : list Student :=
  filter (λ s, status s = "삭제예정") students.

(** [total], [enrolled] and [completed] of the summary cards. *)
Definition totalCount {Student : Type} (status : Student → string)
    (students : list Student) : nat :=
  length (activeStudents status students).

Definition enrolledCount {Student : Type} (status : Student → string)
    (students : list Student) : nat :=
  length (filter (λ s, status s = "등록") (activeStudents status students)).

Definition completedCount {Student : Type} (status : Student → string)
    (students : list Student) : nat :=
  length (filter (λ s, status s = "수료") (activeStudents status students)).

(** ** Statutory (구법) subjects *)

(** A row of [subject_presets]. *)
Record SubjectPreset : Set := mkSubjectPreset {
  spreset_name : string;
  spreset_credits : Z;
  spreset_subject_type : SubjectType;
}.

(** The object [handleAddGubupSubject] hands to [.insert(...)] on
    [student_prev_subjects]: 구법 과목 추가 → 전적대 이수과목에 등록. *)
Record PrevInsert : Set := mkPrevInsert {
  pins_student_id : string;
  pins_category : SubjectCategory;
  pins_name : string;
  pins_credits : Z;
}.

Definition handleAddGubupSubject (studentId : string) (subj : SubjectPreset)
    : PrevInsert :=
  mkPrevInsert studentId Major (spreset_name subj) (spreset_credits subj).

(** [setPrevSubjects((prev) => [...prev, data as PrevSubject])] *)
Definition prevInserted (prevSubjects : list PrevSubject) (data : PrevSubject)
    : list PrevSubject :=
  prevSubjects ++ [data].

(** The store returned the row as it was sent. *)
Definition prevStoredAs (data : PrevSubject) (row : PrevInsert) : Prop :=
  prev_category data = pins_category row
  ∧ prev_name data = pins_name row
  ∧ prev_credits data = pins_credits row.

(** ** Saving the plan *)

Definition toSaved (s : Semester) : SavedSemester :=
  mkSavedSemester (sem_id s) (sem_year s) (sem_term s) (Some (sem_class_number s))
                  (sem_label s) (sem_months s).

(** The row the auto-save writes:
    [{ semesters, semester_subjects: semesterSubjects,
       semester_dates: semesterDates }]. *)
Definition savePlan (st : PlanState) : SavedPlan :=
  mkSavedPlan (Some (toSaved <$> semesters st))
              (Some (semesterSubjects st))
              (Some (semesterDates st)).

(** ** The by-category map as the page keys it *)

(** [creditsByCategory] is a [Record<string, number>]: its keys are the
    strings the rows carry.  The category of a subject comes from the
    catalog and from the form of the page, which offer the three labels
    only; the [credit_type] of a self-study row is what the table holds
    (see [storedCreditType]), the cast [data as DokaksaEntry] checking
    nothing.  Here the map is keyed by strings and a self-study row may
    come without a credit type. *)
Module ByKey.

Record DokaksaRow : Set := mkDokaksaRow {
  row_id : string;
  row_student_id : string;
  row_stage : string;
  row_subject_name : string;
  row_credits : Z;
  row_credit_type : option SubjectCategory;   (* [None] for [null] *)
}.

(** A row whose credit type is one of the three labels. *)
Definition ofEntry (d : DokaksaEntry) : DokaksaRow :=
  mkDokaksaRow (dokaksa_id d) (dokaksa_student_id d) (dokaksa_stage d)
               (dokaksa_subject_name d) (dokaksa_credits d)
               (Some (dokaksa_credit_type d)).

(** The row the store returns for an insert. *)
Definition storedRow (rowId : string) (columnDefault : option SubjectCategory)
    (row : DokaksaInsert) : DokaksaRow :=
  mkDokaksaRow rowId (ins_student_id row) (ins_stage row)
               (ins_subject_name row) (ins_credits row)
               (storedCreditType columnDefault row).

(** [setDokaksaList((prev) => [...prev, data as DokaksaEntry])] after the
    request of a handler; nothing is appended when nothing was inserted. *)
Definition dokaksaInserted (dokaksaList : list DokaksaRow) (rowId : string)
    (columnDefault : option SubjectCategory) (request : DokaksaRequest)
    : list DokaksaRow :=
  match request with
  | InsertDokaksa row => dokaksaList ++ [storedRow rowId columnDefault row]
  | _ => dokaksaList
  end.

(** The property key of [map[d.credit_type]]: the label, and ["null"] for
    [null]. *)
Definition creditTypeKey (creditType : option SubjectCategory) : string :=
  match creditType with
  | Some c => category_label c
  | None => "null"
  end.

(** [map[key] = (map[key] ?? 0) + credits] *)
Definition addCredits (map : gmap string Z) (key : string) (credits : Z)
    : gmap string Z :=
  <[key := default 0 (map !! key) + credits]> map.

Definition creditsByCategory (ids : list Z) (subjs : list Subject)
    (prevSubjects : list PrevSubject) (dokaksaList : list DokaksaRow)
    : gmap string Z :=
  let map0 :=
    foldl (λ map sid,
             match findSubject subjs sid with
             | Some s => addCredits map (category_label (subject_category s))
                                    (subject_credits s)
             | None => map
             end) ∅ ids in
  (* 전적대 과목 *)
  let map1 :=
    foldl (λ map s, addCredits map (category_label (prev_category s))
                               (prev_credits s))
          map0 prevSubjects in
  (* 독학사 — credit_type(전공/일반/교양)을 카테고리로 합산 *)
  foldl (λ map d, addCredits map (creditTypeKey (row_credit_type d))
                             (row_credits d))
        map1 dokaksaList.

(** [categories.reduce((sum, cat) => sum + (creditsByCategory[cat] ?? 0), 0)] *)
Definition getCategoryCredits (byCategory : gmap string Z)
    (categories : list SubjectCategory) : Z :=
  foldl (λ sum cat, sum + default 0 (byCategory !! category_label cat))
        0 categories.

(** [Object.values(creditsByCategory).reduce((a, b) => a + b, 0) + certCredits] *)
Definition totalCredits (byCategory : gmap string Z) (cert : Z) : Z :=
  foldl Z.add 0 ((map_to_list byCategory).*2) + cert.

(** [getCategoryCredits(t.categories)] for each target of the profile. *)
Definition earnedByTarget (byCategory : gmap string Z)
    (planConfig : PlanConfig) : list Z :=
  (λ t, getCategoryCredits byCategory (target_categories t))
    <$> targets planConfig.

(** The credits of the rows that carry no credit type. *)
Definition untypedCredits (dokaksaList : list DokaksaRow) : Z :=
  sumZ (row_credits <$> filter (λ d, row_credit_type d = None) dokaksaList).

(** The contributions to the map in the order of the three loops, each
    under the credit type its key stands for. *)
Definition entries (ids : list Z) (subjs : list Subject)
    (prevSubjects : list PrevSubject) (dokaksaList : list DokaksaRow)
    : list (option SubjectCategory * Z) :=
  ((λ e, (Some e.1, e.2))
     <$> (assignedEntries ids subjs ++ prevEntries prevSubjects))
  ++ ((λ d, (row_credit_type d, row_credits d)) <$> dokaksaList).

Definition addEntries (m : gmap string Z)
    (l : list (option SubjectCategory * Z)) : gmap string Z :=
  foldl (λ map e, addCredits map (creditTypeKey e.1) e.2) m l.

(** The credits of the contributions under one credit type. *)
Definition creditsUnder (creditType : option SubjectCategory)
    (l : list (option SubjectCategory * Z)) : Z :=
  sumZ ((filter (λ e, e.1 = creditType) l).*2).

End ByKey.

(** The self-study rows of a student with one preset row of the major and
    one row added by hand, [{stage: '1단계', subject_name: '국어',
    credits: 4}], in a table whose [credit_type] column has no default. *)
Definition exampleRows : list ByKey.DokaksaRow :=
  ByKey.dokaksaInserted [ByKey.ofEntry exampleDokaksa] "d-2" None
    (handleAddDokaksa "student-1" (mkDokaksaForm "1단계" "국어" 4)).

(* ====================================================================== *)
(** * Properties *)
(* ====================================================================== *)

(** ** Strings *)

Lemma append_nil_l (t : string) : "" +:+ t = t.
Proof. reflexivity. Qed.

Lemma append_cons (a : ascii) (s t : string) :
  String a s +:+ t = String a (s +:+ t).
Proof. reflexivity. Qed.

Lemma prefix_spec (p s : string) :
  String.prefix p s = true ↔ ∃ post, s = p +:+ post.
Proof.
  revert s. induction p as [|a p IH]; intros s.
  - split; [intros _; by exists s | by destruct s].
  - destruct s as [|b s]; simpl.
    + split; [done | intros [post H]; by rewrite append_cons in H].
    + destruct (Ascii.ascii_dec a b) as [->|Hne].
      * rewrite IH. split; intros [post H]; exists post;
          rewrite append_cons in *; congruence.
      * split; [done | intros [post H]; rewrite append_cons in H; congruence].
Qed.

Lemma includes_unfold (s sub : string) :
  includes s sub =
  if String.prefix sub s then true
  else match s with
       | EmptyString => false
       | String _ rest => includes rest sub
       end.
Proof. by destruct s. Qed.

Lemma includes_spec (s sub : string) :
  includes s sub = true ↔ ∃ pre post, s = pre +:+ sub +:+ post.
Proof.
  induction s as [|a s IH]; rewrite includes_unfold.
  - destruct (String.prefix sub "") eqn:Hp.
    + split; [intros _ | done].
      apply prefix_spec in Hp as [post Hpost]. by exists "", post.
    + split; [done |]. intros (pre & post & H).
      destruct pre; [|by rewrite append_cons in H].
      rewrite append_nil_l in H.
      assert (String.prefix sub "" = true) by (apply prefix_spec; eauto).
      congruence.
  - destruct (String.prefix sub (String a s)) eqn:Hp.
    + split; [intros _ | done].
      apply prefix_spec in Hp as [post Hpost]. by exists "", post.
    + rewrite IH. split.
      * intros (pre & post & ->). by exists (String a pre), post.
      * intros (pre & post & H). destruct pre as [|b pre].
        -- rewrite append_nil_l in H.
           assert (String.prefix sub (String a s) = true)
             by (apply prefix_spec; eauto).
           congruence.
        -- rewrite append_cons in H. injection H as -> ->. eauto.
Qed.

Lemma includes_practicum (courseName : option string) :
  match courseName with Some c => includes c "실습" | None => false end = true
  ↔ containsPracticum courseName.
Proof.
  unfold containsPracticum. destruct courseName as [c|].
  - rewrite includes_spec. split.
    + intros (pre & post & H). eauto 6.
    + intros (c' & pre & post & [= <-] & H). eauto.
  - split; [done | intros (? & ? & ? & ? & _); done].
Qed.

Lemma array_includes_level (group : list string) (educationLevel : option string) :
  "" ∉ group →
  array_includes group (default "" educationLevel) = true
  ↔ levelIn educationLevel group.
Proof.
  intros Hne. unfold array_includes, levelIn.
  rewrite bool_decide_eq_true. destruct educationLevel as [l|]; simpl.
  - split; [eauto | by intros (? & [= <-] & ?)].
  - split; [done | by intros (? & ? & ?)].
Qed.

Lemma empty_not_in_JUNGTAE : "" ∉ JUNGTAE_GROUP.
Proof.
  unfold JUNGTAE_GROUP. rewrite !elem_of_cons, elem_of_nil. intuition discriminate.
Qed.

Lemma empty_not_in_TWOTHREE : "" ∉ TWOTHREE_GRAD.
Proof.
  unfold TWOTHREE_GRAD. rewrite !elem_of_cons, elem_of_nil. intuition discriminate.
Qed.

(** ** Requirement profile resolver *)

(** The branch [getPlanConfig] takes, as a function of the four tests it
    makes in order. *)
Lemma getPlanConfig_cases (educationLevel courseName desiredDegree : option string) :
  let cfg := getPlanConfig educationLevel courseName desiredDegree in
  (containsPracticum courseName ∧
   cfg = mkPlanConfig false 6 (Some 6) [mkPlanTarget "전공" [Major] 6 "#3182F6"]
                      (Some (mkPracticeRequirement 4 2)))
  ∨ (¬ containsPracticum courseName ∧
     levelIn educationLevel JUNGTAE_GROUP ∧ desiredDegree = Some "학사" ∧
     cfg = mkPlanConfig true 140 None
             [mkPlanTarget "전공" [Major] 60 "#3182F6";
              mkPlanTarget "교양" [Liberal] 30 "#059669";
              mkPlanTarget "일반" [General] 50 "#D97706"] None)
  ∨ (¬ containsPracticum courseName ∧
     levelIn educationLevel JUNGTAE_GROUP ∧ desiredDegree ≠ Some "학사" ∧
     cfg = mkPlanConfig true 80 None
             [mkPlanTarget "전공" [Major] 45 "#3182F6";
              mkPlanTarget "교양" [Liberal] 15 "#059669";
              mkPlanTarget "일반" [General] 20 "#D97706"] None)
  ∨ (¬ containsPracticum courseName ∧
     ¬ levelIn educationLevel JUNGTAE_GROUP ∧
     levelIn educationLevel TWOTHREE_GRAD ∧ desiredDegree = Some "학사" ∧
     cfg = mkPlanConfig true 140 None
             [mkPlanTarget "전공" [Major] 60 "#3182F6";
              mkPlanTarget "교양" [Liberal] 30 "#059669";
              mkPlanTarget "일반" [General] 50 "#D97706"] None)
  ∨ (¬ containsPracticum courseName ∧
     ¬ levelIn educationLevel JUNGTAE_GROUP ∧
     ¬ (levelIn educationLevel TWOTHREE_GRAD ∧ desiredDegree = Some "학사") ∧
     cfg = mkPlanConfig false 51 (Some 8)
             [mkPlanTarget "전공" [Major] 51 "#3182F6"] None).
Proof.
  intros cfg. subst cfg. unfold getPlanConfig.
  pose proof (includes_practicum courseName) as Hc.
  pose proof (array_includes_level JUNGTAE_GROUP educationLevel
                empty_not_in_JUNGTAE) as Hj.
  pose proof (array_includes_level TWOTHREE_GRAD educationLevel
                empty_not_in_TWOTHREE) as Ht.
  destruct (match courseName with Some c => includes c "실습" | None => false end).
  { left. split; [by apply Hc | done]. }
  assert (¬ containsPracticum courseName) as Hnc by (intros H; by apply Hc in H).
  right. unfold is_bachelor.
  destruct (array_includes JUNGTAE_GROUP (default "" educationLevel)).
  - assert (levelIn educationLevel JUNGTAE_GROUP) as Hin by by apply Hj.
    case_bool_decide as Hd; simpl.
    + left. done.
    + right. left. done.
  - assert (¬ levelIn educationLevel JUNGTAE_GROUP) as Hnin
      by (intros H; by apply Hj in H).
    simpl. right. right.
    destruct (array_includes TWOTHREE_GRAD (default "" educationLevel)).
    + assert (levelIn educationLevel TWOTHREE_GRAD) as Hin by by apply Ht.
      case_bool_decide as Hd; simpl.
      * left. done.
      * right. repeat split; [done..| |]; [tauto|].
        by destruct (array_includes GRAD_ALL (default "" educationLevel)).
    + assert (¬ levelIn educationLevel TWOTHREE_GRAD) as Hnin'
        by (intros H; by apply Ht in H).
      simpl. right. repeat split; [done..| |]; [tauto|].
      by destruct (array_includes GRAD_ALL (default "" educationLevel)).
Qed.

(** Case analysis on the branch taken, leaving the returned profile as an
    equation [E]. *)
Ltac getPlanConfig_branches lvl course deg E :=
  destruct (getPlanConfig_cases lvl course deg)
    as [(_ & E) | [(_ & _ & _ & E) | [(_ & _ & _ & E)
       | [(_ & _ & _ & _ & E) | (_ & _ & _ & E)]]]];
  simpl in E.

(** C1. [getPlanConfig] follows the first-match decision order: a course
    name holding the practicum marker gives the practicum profile whatever
    the education level; otherwise an attrition-group level gives the
    140-credit profile when the desired degree is the bachelor and the
    80-credit profile for any other desired degree; a 2- or 3-year graduate
    seeking the bachelor gives the 140-credit profile; every remaining
    input, an unset or unknown level included, gives the minimal profile
    (51 credits, 8 subjects, one target on the major). *)
Theorem getPlanConfig_decision_order
    (educationLevel courseName desiredDegree : option string) :
  let cfg := getPlanConfig educationLevel courseName desiredDegree in
  (containsPracticum courseName →
     totalTarget cfg = 6 ∧ subjectTarget cfg = Some 6 ∧
     targetTable cfg = [([Major], 6)] ∧
     practice cfg = Some (mkPracticeRequirement 4 2))
  ∧ (¬ containsPracticum courseName →
     levelIn educationLevel ["고졸"; "2년제중퇴"; "3년제중퇴"; "4년제중퇴"] →
     desiredDegree = Some "학사" →
     totalTarget cfg = 140 ∧
     targetTable cfg = [([Major], 60); ([Liberal], 30); ([General], 50)])
  ∧ (¬ containsPracticum courseName →
     levelIn educationLevel ["고졸"; "2년제중퇴"; "3년제중퇴"; "4년제중퇴"] →
     desiredDegree ≠ Some "학사" →
     totalTarget cfg = 80 ∧
     targetTable cfg = [([Major], 45); ([Liberal], 15); ([General], 20)])
  ∧ (¬ containsPracticum courseName →
     levelIn educationLevel ["2년제졸업"; "3년제졸업"] →
     desiredDegree = Some "학사" →
     totalTarget cfg = 140 ∧
     targetTable cfg = [([Major], 60); ([Liberal], 30); ([General], 50)])
  ∧ (¬ containsPracticum courseName →
     ¬ levelIn educationLevel ["고졸"; "2년제중퇴"; "3년제중퇴"; "4년제중퇴"] →
     ¬ (levelIn educationLevel ["2년제졸업"; "3년제졸업"] ∧
        desiredDegree = Some "학사") →
     totalTarget cfg = 51 ∧ subjectTarget cfg = Some 8 ∧
     targetTable cfg = [([Major], 51)] ∧ practice cfg = None).
Proof.
  intros cfg.
  assert (levelIn educationLevel JUNGTAE_GROUP →
          levelIn educationLevel TWOTHREE_GRAD → False) as Hdisj.
  { intros (l & -> & H1) (l' & [= <-] & H2). revert H1 H2.
    unfold JUNGTAE_GROUP, TWOTHREE_GRAD.
    rewrite !elem_of_cons, !elem_of_nil. intuition congruence. }
  change ["고졸"; "2년제중퇴"; "3년제중퇴"; "4년제중퇴"] with JUNGTAE_GROUP.
  change ["2년제졸업"; "3년제졸업"] with TWOTHREE_GRAD.
  destruct (getPlanConfig_cases educationLevel courseName desiredDegree)
    as [(Hc & E) | [(Hc & Hl & Hd & E) | [(Hc & Hl & Hd & E)
       | [(Hc & Hl & Hl' & Hd & E) | (Hc & Hl & Hd & E)]]]];
    fold cfg in E; rewrite E; clear E; unfold targetTable; simpl;
    repeat split; intros; try done; try tauto; exfalso; eauto.
Qed.

(** The decision order at the spec's scenarios: the 140-credit profile for
    a high-school graduate seeking the bachelor, the practicum profile for
    a practicum course, the 80-credit profile, the 2-year graduate, and the
    minimal profile for a 4-year graduate and for an unset level. *)
Lemma getPlanConfig_decision_order_witness :
  totalTarget (getPlanConfig (Some "고졸") (Some "사회복지사2급(구법)") (Some "학사")) = 140
  ∧ practice (getPlanConfig (Some "고졸") (Some "사회복지사 실습예정") (Some "학사"))
    = Some (mkPracticeRequirement 4 2)
  ∧ totalTarget (getPlanConfig (Some "4년제중퇴") None (Some "전문학사")) = 80
  ∧ totalTarget (getPlanConfig (Some "3년제졸업") None (Some "학사")) = 140
  ∧ targetTable (getPlanConfig (Some "4년제졸업") (Some "X") (Some "없음"))
    = [([Major], 51)]
  ∧ subjectTarget (getPlanConfig None None None) = Some 8.
Proof.
  assert (∀ c, includes c "실습" = false → ¬ containsPracticum (Some c)) as Hno.
  { intros c Hc H. apply includes_practicum in H. congruence. }
  assert (¬ containsPracticum None) as HnoNone.
  { intros H. apply includes_practicum in H. discriminate. }
  assert (∀ l (g : list string), bool_decide (l ∈ g) = true → levelIn (Some l) g)
    as Hin.
  { intros l g H. exists l. split; [done | by apply bool_decide_eq_true in H]. }
  assert (∀ l (g : list string), bool_decide (l ∈ g) = false → ¬ levelIn (Some l) g)
    as Hnotin.
  { intros l g H (l' & [= <-] & H'). by apply bool_decide_eq_false in H. }
  assert (∀ g : list string, ¬ levelIn None g) as HnotNone.
  { by intros g (l & ? & _). }
  split_and!.
  - destruct (getPlanConfig_decision_order (Some "고졸")
                (Some "사회복지사2급(구법)") (Some "학사")) as (_ & H & _).
    apply H; [apply Hno; reflexivity | apply Hin; reflexivity | reflexivity].
  - destruct (getPlanConfig_decision_order (Some "고졸")
                (Some "사회복지사 실습예정") (Some "학사")) as (H & _).
    apply H. exists "사회복지사 실습예정", "사회복지사 ", "예정".
    split; reflexivity.
  - destruct (getPlanConfig_decision_order (Some "4년제중퇴") None
                (Some "전문학사")) as (_ & _ & H & _).
    apply H; [exact HnoNone | apply Hin; reflexivity | discriminate].
  - destruct (getPlanConfig_decision_order (Some "3년제졸업") None
                (Some "학사")) as (_ & _ & _ & H & _).
    apply H; [exact HnoNone | apply Hin; reflexivity | reflexivity].
  - destruct (getPlanConfig_decision_order (Some "4년제졸업") (Some "X")
                (Some "없음")) as (_ & _ & _ & _ & H).
    apply H; [apply Hno; reflexivity | apply Hnotin; reflexivity
             | intros [_ ?]; discriminate].
  - destruct (getPlanConfig_decision_order None None None)
      as (_ & _ & _ & _ & H).
    apply H; [exact HnoNone | apply HnotNone | intros [_ ?]; discriminate].
Defined.

(** C2. In every branch of [getPlanConfig] the category targets add up to
    the total target. *)
Theorem getPlanConfig_targets_sum
    (educationLevel courseName desiredDegree : option string) :
  targetSum (getPlanConfig educationLevel courseName desiredDegree)
  = totalTarget (getPlanConfig educationLevel courseName desiredDegree).
Proof.
  getPlanConfig_branches educationLevel courseName desiredDegree E;
    rewrite E; reflexivity.
Qed.

Lemma getPlanConfig_totalTarget_pos
    (educationLevel courseName desiredDegree : option string) :
  0 < totalTarget (getPlanConfig educationLevel courseName desiredDegree).
Proof.
  getPlanConfig_branches educationLevel courseName desiredDegree E;
    rewrite E; reflexivity.
Qed.

(** ** Progress percentage *)

Lemma roundHalfUp_nonneg (x : Q) : (0 <= x)%Q → 0 ≤ roundHalfUp x.
Proof.
  intros Hx. unfold roundHalfUp.
  change 0 with (Qfloor 0). apply Qfloor_resp_le.
  apply Qle_trans with x; [done|].
  rewrite <- (Qplus_0_r x) at 1. apply Qplus_le_r. done.
Qed.

(** Rounding a non-negative mantissa to the format: the shifts and the
    increment of round-to-nearest keep it non-negative, so the result
    carries the sign it was given and is not [NaN]. *)
Lemma shr_1_nonneg (mrs : shr_record) : 0 ≤ shr_m mrs → 0 ≤ shr_m (shr_1 mrs).
Proof. destruct mrs as [[|[p|p|]|p] r s]; simpl; lia. Qed.

Lemma iter_shr_1_nonneg (p : positive) (mrs : shr_record) :
  0 ≤ shr_m mrs → 0 ≤ shr_m (iter_pos shr_1 p mrs).
Proof.
  revert mrs. induction p as [p IH|p IH|]; intros mrs H; simpl.
  - apply IH, IH, shr_1_nonneg, H.
  - apply IH, IH, H.
  - apply shr_1_nonneg, H.
Qed.

Lemma shr_nonneg (mrs : shr_record) (e n : Z) :
  0 ≤ shr_m mrs → 0 ≤ shr_m (shr mrs e n).1.
Proof.
  intros H. destruct n; simpl; [done| |done]. by apply iter_shr_1_nonneg.
Qed.

Lemma shr_fexp_nonneg (prec emax m e : Z) (l : location) :
  0 ≤ m → 0 ≤ shr_m (shr_fexp prec emax m e l).1.
Proof.
  intros H. unfold shr_fexp. apply shr_nonneg. by destruct l as [|[]].
Qed.

Lemma round_nearest_even_nonneg (m : Z) (l : location) :
  0 ≤ m → 0 ≤ round_nearest_even m l.
Proof.
  intros H. destruct l as [|[]]; simpl; [done| |done|lia].
  destruct (Z.even m); lia.
Qed.

Lemma binary_round_aux_nonneg (prec emax mx ex : Z) (lx : location) :
  0 ≤ mx → nonNegative (binary_round_aux prec emax false mx ex lx).
Proof.
  intros H. unfold binary_round_aux.
  pose proof (shr_fexp_nonneg prec emax mx ex lx H) as H1.
  destruct (shr_fexp prec emax mx ex lx) as [mrs' e']. simpl in H1.
  pose proof (shr_fexp_nonneg prec emax _ e' loc_Exact
    (round_nearest_even_nonneg _ (loc_of_shr_record mrs') H1)) as H2.
  destruct (shr_fexp prec emax _ e' loc_Exact) as [mrs'' e'']. simpl in H2.
  destruct (shr_m mrs'') as [|m|m]; simpl; [done| |lia].
  by destruct (Z.leb _ _).
Qed.

Lemma Number_of_Z_nonneg (z : Z) : 0 ≤ z → nonNegative (Number_of_Z z).
Proof.
  intros H. unfold Number_of_Z, binary_normalize.
  destruct z as [|p|p]; [done| |lia].
  unfold binary_round. destruct (shl_align _ _ _) as [mz ez].
  by apply binary_round_aux_nonneg.
Qed.

(** Dividing a non-negative double by a positive finite one. *)
Lemma Number_div_nonneg (x : spec_float) (m : positive) (e : Z) :
  nonNegative x → nonNegative (Number_div x (S754_finite false m e)).
Proof.
  intros H. destruct x as [s|s| |s mx ex]; simpl in *; subst; try done.
  unfold SFdiv_core_binary.
  set (m' := match _ with
             | Z0 => Z.pos mx | Zpos _ => Z.shiftl _ _ | Zneg _ => 0
             end).
  assert (0 ≤ m') as Hm.
  { subst m'. destruct (_ - _ - _); [done| |done]. by apply Z.shiftl_nonneg. }
  pose proof (Z.div_pos m' (Z.pos m) Hm ltac:(done)) as Hq.
  unfold Z.div in Hq. destruct (Z.div_eucl m' (Z.pos m)) as [q r].
  by apply binary_round_aux_nonneg.
Qed.

Lemma Number_mul_nonneg (x : spec_float) (m : positive) (e : Z) :
  nonNegative x → nonNegative (Number_mul x (S754_finite false m e)).
Proof.
  intros H. destruct x as [s|s| |s mx ex]; simpl in *; subst; try done.
  by apply binary_round_aux_nonneg.
Qed.

Lemma Number_value_nonneg (x : spec_float) :
  nonNegative x → (0 <= Number_value x)%Q.
Proof.
  destruct x as [s|s| |s m e]; simpl; try done. intros ->.
  apply Qmult_le_0_compat; [done|]. by apply Qpower_0_le.
Qed.

(** The capped rounding of a non-negative double is an integer of
    [0, 100]: +∞ is capped like any value above 100. *)
Lemma capped_round_range (x : spec_float) :
  nonNegative x →
  ∃ p, Math_min (Math_round x) 100 = RInteger p ∧ 0 ≤ p ≤ 100.
Proof.
  intros Hx. destruct x as [s|s| |s m e]; simpl in Hx; subst; try done.
  - exists 0. by split.
  - exists 100. by split.
  - eexists. split; [reflexivity|]. split; [|apply Z.le_min_r].
    apply Z.min_glb; [|done].
    by apply roundHalfUp_nonneg, (Number_value_nonneg (S754_finite false m e)).
Qed.

(** The ratio of a non-negative total against a target that is a positive
    finite double is a non-negative double. *)
Lemma progressRatio_nonneg (total : Z) (planConfig : PlanConfig)
    (m : positive) (e : Z) :
  0 ≤ total →
  Number_of_Z (totalTarget planConfig) = S754_finite false m e →
  nonNegative (progressRatio total planConfig).
Proof.
  intros Ht Hg. unfold progressRatio. rewrite Hg.
  change (Number_of_Z 100) with (S754_finite false 7036874417766400 (-46)).
  by apply Number_mul_nonneg, Number_div_nonneg, Number_of_Z_nonneg.
Qed.

(** The four targets of [getPlanConfig]. *)
Lemma getPlanConfig_totalTarget_cases
    (educationLevel courseName desiredDegree : option string) :
  totalTarget (getPlanConfig educationLevel courseName desiredDegree)
  ∈ [6; 51; 80; 140].
Proof.
  getPlanConfig_branches educationLevel courseName desiredDegree E;
    rewrite E; simpl; set_solver.
Qed.

(** Up to 1000 earned credits, checked total by total against each of the
    four targets: a total that reaches the target fills the bar. *)
Lemma progress_full_upto_1000 (planConfig : PlanConfig) (total : Z) :
  totalTarget planConfig ∈ [6; 51; 80; 140] →
  totalTarget planConfig ≤ total ≤ 1000 →
  progress total planConfig = RInteger 100.
Proof.
  intros Hin Hrange. unfold progress, progressRatio.
  set (target := totalTarget planConfig) in *.
  assert (Forall (λ t, Forall (λ n,
            Math_min (Math_round
              (Number_mul (Number_div (Number_of_Z n) (Number_of_Z t))
                          (Number_of_Z 100))) 100 = RInteger 100)
            (seqZ t (1001 - t))) [6; 51; 80; 140]) as Hall.
  { apply (bool_decide_unpack _). vm_compute. reflexivity. }
  rewrite Forall_forall in Hall. specialize (Hall target Hin).
  rewrite Forall_forall in Hall. apply Hall, elem_of_seqZ. lia.
Qed.

(** C9. For a non-negative total of earned credits and any profile that
    [getPlanConfig] returns, the total target is positive and the progress
    percentage, with the quotient and the product rounded as doubles, is
    an integer between 0 and 100; up to 1000 credits, a total that
    reaches the target gives 100.  90 credits against the 51-credit
    target give 100, where the uncapped rounding gives 176; 46 credits
    against the 80-credit target give 57, the product being the double
    just below 57.5. *)
Theorem progress_in_range
    (educationLevel courseName desiredDegree : option string) (total : Z) :
  let cfg := getPlanConfig educationLevel courseName desiredDegree in
  0 ≤ total →
  0 < totalTarget cfg
  ∧ (∃ p, progress total cfg = RInteger p ∧ 0 ≤ p ≤ 100)
  ∧ (totalTarget cfg ≤ total ≤ 1000 → progress total cfg = RInteger 100)
  ∧ (totalTarget cfg = 51 →
     progress 90 cfg = RInteger 100
     ∧ Math_round (progressRatio 90 cfg) = RInteger 176)
  ∧ (totalTarget cfg = 80 →
     progress 46 cfg = RInteger 57
     ∧ progressRatio 46 cfg = S754_finite false 8092405580431359 (-47)).
Proof.
  intros cfg Ht.
  pose proof (getPlanConfig_totalTarget_pos educationLevel courseName
                desiredDegree) as Hpos.
  fold cfg in Hpos. split; [done|]. split.
  - assert (∃ m e, Number_of_Z (totalTarget cfg) = S754_finite false m e)
      as (m & e & Hg).
    { subst cfg.
      getPlanConfig_branches educationLevel courseName desiredDegree E;
        rewrite E; do 2 eexists; vm_compute; reflexivity. }
    apply capped_round_range. by eapply progressRatio_nonneg.
  - split; [apply progress_full_upto_1000,
              getPlanConfig_totalTarget_cases|].
    split; intros E; unfold progress, progressRatio; rewrite E;
      split; vm_compute; reflexivity.
Qed.

(** 90 earned credits against the default 51-credit profile. *)
Lemma progress_in_range_witness :
  (∃ p, progress 90 (getPlanConfig None None None) = RInteger p ∧ 0 ≤ p ≤ 100)
  ∧ progress 90 (getPlanConfig None None None) = RInteger 100.
Proof.
  destruct (progress_in_range None None None 90) as (_ & Hr & _ & Hex & _);
    [lia|].
  split; [exact Hr|]. apply Hex. reflexivity.
Defined.

(** ** Assignment map *)

Lemma elem_of_assignedIds (ss : gmap Z (list Z)) (x : Z) :
  x ∈ assignedIds ss ↔ ∃ k l, ss !! k = Some l ∧ x ∈ l.
Proof.
  unfold assignedIds. rewrite list_elem_of_join. split.
  - intros (l & Hx & Hl). apply list_elem_of_fmap in Hl as ([k l'] & -> & Hkl).
    apply elem_of_map_to_list in Hkl. eauto.
  - intros (k & l & Hk & Hx). exists l. split; [done|].
    apply list_elem_of_fmap. exists (k, l). split; [done|].
    by apply elem_of_map_to_list.
Qed.

Lemma elem_of_assignedTo (ss : gmap Z (list Z)) (k x : Z) :
  x ∈ assignedTo ss k → x ∈ assignedIds ss.
Proof.
  unfold assignedTo. intros H. apply elem_of_assignedIds.
  destruct (ss !! k) as [l|] eqn:E; simpl in H.
  - eauto.
  - by apply elem_of_nil in H.
Qed.

Lemma findSubject_Some (subjs : list Subject) (sid : Z) (s : Subject) :
  findSubject subjs sid = Some s → s ∈ subjs ∧ subject_id s = sid.
Proof.
  unfold findSubject. intros H. apply find_some in H as [Hin Hid].
  split; [by apply list_elem_of_In | by apply bool_decide_eq_true in Hid].
Qed.

Lemma findSubject_is_Some (subjs : list Subject) (sid : Z) :
  is_Some (findSubject subjs sid) ↔ ∃ s, s ∈ subjs ∧ subject_id s = sid.
Proof.
  split.
  - intros [s Hs]. exists s. by apply findSubject_Some.
  - intros (s & Hin & Hid). unfold findSubject.
    destruct (List.find _ subjs) as [s'|] eqn:E; [by eexists|].
    apply list_elem_of_In in Hin.
    pose proof (find_none _ _ E s Hin) as Hf. simpl in Hf.
    by apply bool_decide_eq_false in Hf.
Qed.

(** ** Deleting a subject *)

(** C10. After a successful [handleDeleteSubject] every semester's list is
    its former list with the subject id filtered out, so the id is in no
    list; the subject leaves the catalog, and if every assigned id named a
    subject of the catalog before, it still does afterwards. *)
Theorem handleDeleteSubject_cascades (st : PlanState) (subjectId : Z) :
  let st' := handleDeleteSubject st subjectId false in
  (∀ semId, semesterSubjects st' !! semId
            = (filter (λ sid, sid ≠ subjectId) <$> (semesterSubjects st !! semId)))
  ∧ (∀ semId, subjectId ∉ assignedTo (semesterSubjects st') semId)
  ∧ (subjectId ∉ assignedIds (semesterSubjects st'))
  ∧ subjects st' = filter (λ s, subject_id s ≠ subjectId) (subjects st)
  ∧ semesters st' = semesters st
  ∧ ((∀ x, x ∈ assignedIds (semesterSubjects st) →
           is_Some (findSubject (subjects st) x)) →
     ∀ x, x ∈ assignedIds (semesterSubjects st') →
          is_Some (findSubject (subjects st') x)).
Proof.
  intros st'. subst st'. unfold handleDeleteSubject. simpl.
  assert (∀ x, x ∈ assignedIds (filter (λ sid, sid ≠ subjectId)
                                   <$> semesterSubjects st) →
               x ≠ subjectId ∧ x ∈ assignedIds (semesterSubjects st)) as Hsub.
  { intros x Hx. apply elem_of_assignedIds in Hx as (k & l & Hk & Hx).
    rewrite lookup_fmap in Hk.
    destruct (semesterSubjects st !! k) as [l0|] eqn:E; [|done].
    injection Hk as <-. apply list_elem_of_filter in Hx as [Hne Hx].
    split; [done|]. apply elem_of_assignedIds. eauto. }
  split_and!.
  - intros semId. apply lookup_fmap.
  - intros semId H. apply elem_of_assignedTo in H. by apply Hsub in H as [? _].
  - intros H. by apply Hsub in H as [? _].
  - done.
  - done.
  - intros Hall x Hx. apply Hsub in Hx as [Hne Hx].
    apply Hall in Hx. apply findSubject_is_Some in Hx as (s & Hin & Hid).
    apply findSubject_is_Some. exists s. split; [|done].
    apply list_elem_of_filter. split; [congruence | done].
Qed.

(** Deleting subject 7 from the example plan: subject 9 stays assigned and
    still names a subject of the catalog; 7 is gone from every list. *)
Lemma handleDeleteSubject_cascades_witness :
  is_Some (findSubject (subjects (handleDeleteSubject examplePlan 7 false)) 9)
  ∧ 7 ∉ assignedIds (semesterSubjects (handleDeleteSubject examplePlan 7 false)).
Proof.
  destruct (handleDeleteSubject_cascades examplePlan 7)
    as (_ & _ & Hgone & _ & _ & Hrefs).
  split; [|exact Hgone].
  apply Hrefs.
  - intros x Hx. apply elem_of_assignedIds in Hx as (k & l & Hk & Hx).
    unfold examplePlan in Hk. simpl in Hk.
    destruct (decide (k = 0)) as [->|]; [|destruct (decide (k = 1)) as [->|]];
      simplify_map_eq.
    + apply list_elem_of_singleton in Hx as ->. by eexists.
    + apply list_elem_of_singleton in Hx as ->. by eexists.
  - apply elem_of_assignedIds. exists 1, [9]. split; [done | set_solver].
Defined.

(** ** Half-year group keys *)

Lemma includes_dash_cons (c : ascii) (s : string) :
  c ≠ "-"%char → includes (String c s) "-" = includes s "-".
Proof.
  intros Hc. rewrite includes_unfold.
  destruct (String.prefix "-" (String c s)) eqn:Hp; [|done].
  apply prefix_spec in Hp as [post Hp]. rewrite append_cons in Hp. congruence.
Qed.

Lemma pretty_N_char_not_dash (x : N) : pretty_N_char x ≠ "-"%char.
Proof. unfold pretty_N_char. by repeat case_match. Qed.

Lemma pretty_N_go_no_dash (x : N) (s : string) :
  includes s "-" = false → includes (pretty_N_go x s) "-" = false.
Proof.
  revert s. induction (N.lt_wf_0 x) as [x _ IH]. intros s Hs.
  destruct (decide (x = 0)%N) as [->|Hx].
  - by rewrite pretty_N_go_0.
  - rewrite pretty_N_go_step by lia. apply IH.
    + apply N.div_lt; lia.
    + rewrite includes_dash_cons; [done | apply pretty_N_char_not_dash].
Qed.

(** The decimal rendering of a non-negative number holds no dash. *)
Lemma pretty_Z_no_dash (z : Z) : 0 ≤ z → includes (pretty z) "-" = false.
Proof.
  intros Hz. destruct z as [|p|p]; [done | | lia].
  unfold pretty, pretty_Z, pretty, pretty_N.
  destruct (decide (N.pos p = 0)%N); [done|].
  by apply pretty_N_go_no_dash.
Qed.

Lemma dash_split_inj (y1 y2 d1 d2 : string) :
  includes d1 "-" = false → includes d2 "-" = false →
  y1 +:+ "-" +:+ d1 = y2 +:+ "-" +:+ d2 → y1 = y2 ∧ d1 = d2.
Proof.
  intros H1 H2. revert y2.
  assert (∀ d y rest, includes d "-" = false → d ≠ y +:+ "-" +:+ rest) as Hno.
  { intros d y rest Hd ->.
    assert (includes (y +:+ "-" +:+ rest) "-" = true)
      by (apply includes_spec; eauto).
    congruence. }
  induction y1 as [|a y1 IH]; intros [|b y2] E.
  - rewrite !append_nil_l, !append_cons in E. by injection E.
  - rewrite append_nil_l, !append_cons in E. injection E as _ E.
    rewrite append_nil_l in E. by apply Hno in E.
  - rewrite append_nil_l, !append_cons in E. injection E as _ E.
    rewrite append_nil_l in E. symmetry in E. by apply Hno in E.
  - rewrite !append_cons in E. injection E as -> E.
    apply IH in E as [-> ->]. done.
Qed.

(** For semesters with non-negative terms, equal keys mean the same year
    and the same term. *)
Lemma groupKeyOf_inj (s1 s2 : Semester) :
  0 ≤ sem_term s1 → 0 ≤ sem_term s2 →
  groupKeyOf s1 = groupKeyOf s2 →
  sem_year s1 = sem_year s2 ∧ sem_term s1 = sem_term s2.
Proof.
  intros H1 H2 E. unfold groupKeyOf in E.
  apply dash_split_inj in E as [Hy Ht]; [|by apply pretty_Z_no_dash..].
  split; [done|]. by apply (inj pretty) in Ht.
Qed.

Lemma groupKeyOf_same (s1 s2 : Semester) :
  sem_year s1 = sem_year s2 → sem_term s1 = sem_term s2 →
  groupKeyOf s1 = groupKeyOf s2.
Proof. unfold groupKeyOf. by intros -> ->. Qed.

(** A group key is never the empty string. *)
Lemma groupKeyOf_nonempty (s : Semester) : groupKeyOf s ≠ "".
Proof.
  unfold groupKeyOf. destruct (sem_year s); [|by rewrite append_cons].
  by rewrite append_nil_l, append_cons.
Qed.

(** ** Semester lookup *)

Lemma findSemester_Some (sems : list Semester) (id : Z) (s : Semester) :
  findSemester sems id = Some s → s ∈ sems ∧ sem_id s = id.
Proof.
  unfold findSemester. intros H. apply find_some in H as [Hin Hid].
  split; [by apply list_elem_of_In | by apply bool_decide_eq_true in Hid].
Qed.

Lemma findSemester_None (sems : list Semester) (id : Z) :
  findSemester sems id = None → ∀ s, s ∈ sems → sem_id s ≠ id.
Proof.
  unfold findSemester. intros H s Hin. apply list_elem_of_In in Hin.
  pose proof (find_none _ _ H s Hin) as Hf. simpl in Hf.
  by apply bool_decide_eq_false in Hf.
Qed.

(** With pairwise distinct ids, the lookup by id returns the semester
    itself. *)
Lemma findSemester_NoDup (sems : list Semester) (s : Semester) :
  NoDup (sem_id <$> sems) → s ∈ sems → findSemester sems (sem_id s) = Some s.
Proof.
  intros Hnd Hin. unfold findSemester.
  induction sems as [|x sems IH]; [by apply elem_of_nil in Hin|].
  rewrite fmap_cons in Hnd. apply NoDup_cons in Hnd as [Hx Hnd].
  simpl. case_bool_decide as Hid.
  - apply elem_of_cons in Hin as [->|Hin]; [done|].
    exfalso. apply Hx. rewrite Hid. apply list_elem_of_fmap. eauto.
  - apply elem_of_cons in Hin as [->|Hin]; [done|]. by apply IH.
Qed.

Lemma filter_ext_elem_of {A} (P Q : A → Prop)
    `{∀ x, Decision (P x)} `{∀ x, Decision (Q x)} (l : list A) :
  (∀ x, x ∈ l → (P x ↔ Q x)) → filter P l = filter Q l.
Proof.
  induction l as [|x l IH]; intros Hext; [done|].
  rewrite !filter_cons.
  assert (filter P l = filter Q l) as ->.
  { apply IH. intros y Hy. apply Hext. by apply elem_of_cons; right. }
  pose proof (Hext x ltac:(by apply elem_of_cons; left)) as Hx.
  destruct (decide (P x)), (decide (Q x)); tauto || done.
Qed.

Lemma filter_id_elem_of {A} (P : A → Prop) `{∀ x, Decision (P x)} (l : list A) :
  (∀ x, x ∈ l → P x) → filter P l = l.
Proof.
  induction l as [|x l IH]; intros Hall; [done|].
  rewrite filter_cons, decide_True by (apply Hall; by apply elem_of_cons; left).
  f_equal. apply IH. intros y Hy. apply Hall. by apply elem_of_cons; right.
Qed.

(** With pairwise distinct ids, removing the semesters of one id removes at
    most one semester. *)
Lemma length_remaining (sems : list Semester) (semId : Z) :
  NoDup (sem_id <$> sems) →
  (length sems ≤ S (length (filter (λ s, sem_id s ≠ semId) sems)))%nat.
Proof.
  induction sems as [|x sems IH]; intros Hnd; [simpl; lia|].
  rewrite fmap_cons in Hnd. apply NoDup_cons in Hnd as [Hx Hnd].
  rewrite filter_cons. destruct (decide (sem_id x ≠ semId)) as [Hne|Heq].
  - simpl. specialize (IH Hnd). lia.
  - apply dec_stable in Heq. rewrite filter_id_elem_of; [simpl; lia|].
    intros y Hy Hid. apply Hx. rewrite Heq, <- Hid.
    apply list_elem_of_fmap. eauto.
Qed.

(** ** Deleting a semester *)

(** One call of [handleDeleteSemester] in an event of its own, as the
    delete button of a cohort makes it.  The call changes nothing when at
    most one semester is left, so a plan with pairwise distinct ids never
    becomes empty.  When it proceeds, the semesters of that id leave the
    list and the id's entries leave the assignment map and the dates map;
    a selection elsewhere stays, and if the deleted semester was the
    selected one the selection goes to the first remaining cohort of the
    same (year, term) if there is one and to the last remaining semester
    otherwise.  The calls that the delete button of a group tab makes
    within one event do not compose this way, see [handleDeleteGroup]. *)
Lemma handleDeleteSemester_spec (st : PlanState) (semId : Z) :
  let st' := handleDeleteSemester st semId in
  ((length (semesters st) ≤ 1)%nat → st' = st)
  ∧ (NoDup (sem_id <$> semesters st) → semesters st ≠ [] → semesters st' ≠ [])
  ∧ ((1 < length (semesters st))%nat →
     semesters st' = filter (λ s, sem_id s ≠ semId) (semesters st)
     ∧ semesterSubjects st' = delete semId (semesterSubjects st)
     ∧ semesterDates st' = delete semId (semesterDates st)
     ∧ semesterSubjects st' !! semId = None
     ∧ semesterDates st' !! semId = None
     ∧ subjects st' = subjects st
     ∧ (selectedSemester st ≠ semId →
        selectedSemester st' = selectedSemester st)
     ∧ (selectedSemester st = semId →
        NoDup (sem_id <$> semesters st) →
        Forall (λ s, 0 ≤ sem_term s) (semesters st) →
        ∀ deleted, deleted ∈ semesters st → sem_id deleted = semId →
          match filter (λ s, sem_year s = sem_year deleted
                             ∧ sem_term s = sem_term deleted) (semesters st') with
          | other :: _ => selectedSemester st' = sem_id other
          | [] => sem_id <$> last (semesters st') = Some (selectedSemester st')
          end)).
Proof.
  intros st'. subst st'. unfold handleDeleteSemester.
  destruct (decide (length (semesters st) ≤ 1)%nat) as [Hle|Hgt].
  { split_and!; [done | done | lia]. }
  simpl. split_and!.
  - lia.
  - intros Hnd _ Hnil. pose proof (length_remaining _ semId Hnd) as Hlen.
    rewrite Hnil in Hlen. simpl in Hlen. lia.
  - intros _. split_and!; try done.
    + apply lookup_delete_eq.
    + apply lookup_delete_eq.
    + intros Hne. by rewrite bool_decide_eq_false_2.
    + intros Hsel Hnd Hterms deleted Hin Hid.
      rewrite bool_decide_eq_true_2 by done.
      rewrite <- Hid, (findSemester_NoDup _ _ Hnd Hin), Hid.
      set (remaining := filter (λ s, sem_id s ≠ semId) (semesters st)).
      assert (groupSemsOf remaining (groupKeyOf deleted)
              = filter (λ s, sem_year s = sem_year deleted
                             ∧ sem_term s = sem_term deleted) remaining) as ->.
      { unfold groupSemsOf. apply filter_ext_elem_of. intros s Hs.
        apply list_elem_of_filter in Hs as [_ Hs].
        rewrite Forall_forall in Hterms. split.
        - apply groupKeyOf_inj; by apply Hterms.
        - intros [? ?]. by apply groupKeyOf_same. }
      destruct (filter _ remaining) as [|other rest]; [|done].
      unfold lastIdOrZero.
      pose proof (length_remaining _ semId Hnd) as Hlen. fold remaining in Hlen.
      destruct (last remaining) as [l|] eqn:El; [done|].
      apply last_None in El. rewrite El in Hlen. simpl in Hlen. lia.
Qed.

(** The tab button that deletes a whole group calls the handler once per
    cohort within one event.  Each call computes [remaining] from the same
    [semesters], so only the removal of the last cohort survives, while
    the entries of every cohort leave the two maps: on [exampleCohorts]
    the group of cohorts 0 and 2 keeps cohort 0 in the list, where calling
    the handler in two separate events removes both. *)
Remark handleDeleteGroup_not_iterated :
  sem_id <$> semesters (handleDeleteGroup exampleCohorts "2025-1") = [0; 1]
  ∧ semesterSubjects (handleDeleteGroup exampleCohorts "2025-1") = ∅
  ∧ sem_id <$> semesters (handleDeleteSemester
                            (handleDeleteSemester exampleCohorts 0) 2) = [1].
Proof. split_and!; by vm_compute. Qed.

(** Deleting the selected cohort 0: with a second cohort of the same half
    year the selection goes to it (id 2) and the entries of id 0 are gone;
    without one it goes to the last semester (id 1); the only semester of a
    plan is not deleted. *)
Lemma handleDeleteSemester_spec_witness :
  selectedSemester (handleDeleteSemester exampleCohorts 0) = 2
  ∧ semesterSubjects (handleDeleteSemester exampleCohorts 0) !! 0 = None
  ∧ semesterDates (handleDeleteSemester exampleCohorts 0) !! 0 = None
  ∧ sem_id <$> last (semesters (handleDeleteSemester examplePlan 0)) = Some 1
  ∧ selectedSemester (handleDeleteSemester examplePlan 0) = 1
  ∧ handleDeleteSemester exampleSingle 0 = exampleSingle
  ∧ semesters (handleDeleteSemester exampleCohorts 0) ≠ [].
Proof.
  destruct (handleDeleteSemester_spec exampleCohorts 0) as (_ & Hkeep & Hgo).
  destruct Hgo as (_ & _ & _ & Hss & Hdates & _ & _ & Hsel); [simpl; lia|].
  assert (NoDup (sem_id <$> semesters exampleCohorts)) as Hnd.
  { apply (bool_decide_unpack _). reflexivity. }
  specialize (Hsel eq_refl Hnd).
  specialize (Hsel ltac:(repeat constructor; simpl; lia)
                   (mkSemester 0 "2025" 1 1 "" "")
                   ltac:(apply elem_of_cons; by left) eq_refl).
  destruct (handleDeleteSemester_spec examplePlan 0) as (_ & _ & Hgo').
  destruct Hgo' as (_ & _ & _ & _ & _ & _ & _ & Hsel'); [simpl; lia|].
  specialize (Hsel' eq_refl ltac:(apply (bool_decide_unpack _); reflexivity)
                    ltac:(repeat constructor; simpl; lia)
                    (mkSemester 0 "2025" 1 1 "" "")
                    ltac:(apply elem_of_cons; by left) eq_refl).
  destruct (handleDeleteSemester_spec exampleSingle 0) as (Hnoop & _).
  split_and!.
  - exact Hsel.
  - exact Hss.
  - exact Hdates.
  - reflexivity.
  - apply (inj Some). symmetry. exact Hsel'.
  - apply Hnoop. simpl. lia.
  - apply Hkeep; [exact Hnd | discriminate].
Defined.

(** C8. The delete button of the 2025-1 tab of [exampleCohorts] calls
    [handleDeleteSemester] for cohort 0, which is selected, and for
    cohort 2, within one event.  The plan has three semesters, so both
    calls proceed.  After the event semester 0 is still listed, though
    its entries have left the assignment map and the dates map; the
    selection has gone to id 2, which no semester of the plan carries any
    more, and not to the last remaining semester, id 1.  The same two
    calls made in two events remove both cohorts and leave the selection
    on id 1. *)
Theorem handleDeleteSemester_calls_in_one_event :
  let st := exampleCohorts in
  let st' := handleDeleteGroup st "2025-1" in
  let st2 := handleDeleteSemester (handleDeleteSemester st 0) 2 in
  (* the event: the button is shown and makes the two calls *)
  sem_id <$> groupSemsOf (semesters st) "2025-1" = [0; 2]
  ∧ (length (groupSemsOf (semesters st) "2025-1") < length (semesters st))%nat
  ∧ (1 < length (semesters st))%nat
  ∧ selectedSemester st = 0
  ∧ semesterSubjects st !! 0 = Some [7]
  ∧ is_Some (semesterDates st !! 0)
  (* after the event *)
  ∧ sem_id <$> semesters st' = [0; 1]
  ∧ semesterSubjects st' !! 0 = None
  ∧ semesterDates st' !! 0 = None
  ∧ selectedSemester st' = 2
  ∧ findSemester (semesters st') (selectedSemester st') = None
  ∧ sem_id <$> last (semesters st') = Some 1
  (* the two calls, each in its own event *)
  ∧ sem_id <$> semesters st2 = [1]
  ∧ selectedSemester st2 = 1.
Proof.
  intros st st' st2.
  assert (sem_id <$> groupSemsOf (semesters st) "2025-1" = [0; 2]) as Hgroup
    by reflexivity.
  assert (semesterDates st !! 0 = Some (getDefaultDates "2025" 1)) as Hdates
    by reflexivity.
  split_and!; try exact Hgroup; try (by eexists); try (simpl; lia).
  all: by vm_compute.
Qed.

(** ** Global uniqueness of assigned subjects *)

Lemma shrinks_refl (ss : gmap Z (list Z)) : shrinks ss ss.
Proof. intros k l H. eauto. Qed.

Lemma uniquelyAssigned_shrinks (ss' ss : gmap Z (list Z)) :
  shrinks ss' ss → uniquelyAssigned ss → uniquelyAssigned ss'.
Proof.
  intros Hs Hu k1 k2 l1 l2 x H1 H2 Hx1 Hx2.
  apply Hs in H1 as (m1 & H1 & Hsub1). apply Hs in H2 as (m2 & H2 & Hsub2).
  eapply Hu; eauto.
Qed.

Lemma removeFromGroup_shrinks (groupSems : list Semester) (subjectId : Z)
    (ss : gmap Z (list Z)) :
  shrinks (removeFromGroup groupSems subjectId ss) ss.
Proof.
  induction groupSems as [|sem rest IH]; simpl; [apply shrinks_refl|].
  case_bool_decide as Hin; [|done].
  intros k l' Hk. destruct (decide (sem_id sem = k)) as [<-|Hne].
  - rewrite lookup_insert_eq in Hk. injection Hk as <-.
    unfold assignedTo in *. destruct (ss !! sem_id sem) as [l|] eqn:E; simpl in *.
    + exists l. split; [done|]. intros x Hx.
      by apply list_elem_of_filter in Hx as [_ ?].
    + by apply elem_of_nil in Hin.
  - rewrite lookup_insert_ne in Hk by done. eauto.
Qed.

Lemma delete_shrinks (k : Z) (ss : gmap Z (list Z)) : shrinks (delete k ss) ss.
Proof.
  intros k' l' H. apply lookup_delete_Some in H as [_ H]. eauto.
Qed.

Lemma foldl_delete_lookup {V} (l : list Semester) (m : gmap Z V) (k : Z) (v : V) :
  foldl (λ next s, delete (sem_id s) next) m l !! k = Some v → m !! k = Some v.
Proof.
  revert m. induction l as [|s l IH]; intros m H; [done|].
  simpl in H. apply IH in H. by apply lookup_delete_Some in H as [_ ?].
Qed.

Lemma foldl_delete_shrinks (l : list Semester) (ss : gmap Z (list Z)) :
  shrinks (foldl (λ next s, delete (sem_id s) next) ss l) ss.
Proof. intros k l' H. apply foldl_delete_lookup in H. eauto. Qed.

Lemma fmap_filter_shrinks (subjectId : Z) (ss : gmap Z (list Z)) :
  shrinks (filter (λ sid, sid ≠ subjectId) <$> ss) ss.
Proof.
  intros k l' H. rewrite lookup_fmap in H.
  destruct (ss !! k) as [l|]; [|done]. injection H as <-.
  exists l. split; [done|]. intros x Hx.
  by apply list_elem_of_filter in Hx as [_ ?].
Qed.

(** A click on a subject that is already in some list changes nothing. *)
Lemma handleSubjectClick_used (st : PlanState) (subjectId : Z) :
  subjectId ∈ assignedIds (semesterSubjects st) →
  handleSubjectClick st subjectId = st.
Proof.
  intros H. unfold handleSubjectClick, subjectClickOutcome, isSubjectUsed.
  by rewrite bool_decide_eq_true_2.
Qed.

(** What a click does to the assignment map: nothing, or one id that was in
    no list is appended to the list of the selected semester. *)
Lemma handleSubjectClick_cases (st : PlanState) (subjectId : Z) :
  handleSubjectClick st subjectId = st
  ∨ ((subjectId ∉ assignedIds (semesterSubjects st))
     ∧ subjectClickOutcome st subjectId
       = Assign (selectedSemester st)
                (assignedTo (semesterSubjects st) (selectedSemester st))
     ∧ handleSubjectClick st subjectId
       = setSemesterSubjects st
           (<[selectedSemester st :=
                assignedTo (semesterSubjects st) (selectedSemester st)
                ++ [subjectId]]> (semesterSubjects st))).
Proof.
  unfold handleSubjectClick, subjectClickOutcome, isSubjectUsed.
  case_bool_decide as Hused; [by left|].
  repeat case_decide; (by left) || (right; done).
Qed.

Lemma handleSubjectClick_unique (st : PlanState) (subjectId : Z) :
  uniquelyAssigned (semesterSubjects st) →
  uniquelyAssigned (semesterSubjects (handleSubjectClick st subjectId)).
Proof.
  intros Hu.
  destruct (handleSubjectClick_cases st subjectId) as [->|(Hfresh & _ & ->)];
    [done|].
  simpl. set (t := selectedSemester st).
  assert (∀ k l x, semesterSubjects st !! k = Some l → x ∈ l → x ≠ subjectId)
    as Hold.
  { intros k l x Hk Hx ->. apply Hfresh. apply elem_of_assignedIds. eauto. }
  assert (∀ x, x ∈ assignedTo (semesterSubjects st) t ++ [subjectId] →
               x = subjectId
               ∨ ∃ l, semesterSubjects st !! t = Some l ∧ x ∈ l) as Hnew.
  { intros x Hx. apply elem_of_app in Hx as [Hx|Hx].
    - right. unfold assignedTo in Hx.
      destruct (semesterSubjects st !! t) as [l|]; simpl in Hx; [eauto|].
      by apply elem_of_nil in Hx.
    - left. by apply list_elem_of_singleton in Hx. }
  intros k1 k2 l1 l2 x H1 H2 Hx1 Hx2.
  destruct (decide (t = k1)) as [<-|Hne1], (decide (t = k2)) as [<-|Hne2];
    [done | | |].
  - rewrite lookup_insert_eq in H1. injection H1 as <-.
    rewrite lookup_insert_ne in H2 by done.
    apply Hnew in Hx1 as [->|(l & Hl & Hx1)].
    + by destruct (Hold _ _ _ H2 Hx2).
    + eapply Hu; eauto.
  - rewrite lookup_insert_eq in H2. injection H2 as <-.
    rewrite lookup_insert_ne in H1 by done.
    apply Hnew in Hx2 as [->|(l & Hl & Hx2)].
    + by destruct (Hold _ _ _ H1 Hx1).
    + eapply Hu; eauto.
  - rewrite lookup_insert_ne in H1, H2 by done. eapply Hu; eauto.
Qed.

Lemma applyOp_unique (st : PlanState) (op : PlanOp) :
  uniquelyAssigned (semesterSubjects st) →
  uniquelyAssigned (semesterSubjects (applyOp st op)).
Proof.
  intros Hu. destruct op; simpl; try done.
  - by apply handleSubjectClick_unique.
  - eapply uniquelyAssigned_shrinks; [apply removeFromGroup_shrinks | done].
  - unfold handleDeleteSemester. case_decide; [done|]. simpl.
    eapply uniquelyAssigned_shrinks; [apply delete_shrinks | done].
  - unfold handleDeleteGroup. case_decide; [done|]. simpl.
    eapply uniquelyAssigned_shrinks; [apply foldl_delete_shrinks | done].
  - unfold handleAddKisu. by destruct (currentSemester st).
  - unfold handleDeleteSubject. destruct dbError; [done|]. simpl.
    eapply uniquelyAssigned_shrinks; [apply fmap_filter_shrinks | done].
Qed.

Lemma runOps_unique (ops : list PlanOp) (st : PlanState) :
  uniquelyAssigned (semesterSubjects st) →
  uniquelyAssigned (semesterSubjects (runOps st ops)).
Proof.
  revert st. induction ops as [|op ops IH]; intros st Hu; [done|].
  simpl. apply IH. by apply applyOp_unique.
Qed.

(** C4. From a state in which every subject id is in at most one semester's
    list, every state reached by plan operations has that property, also
    when read over the semesters of the plan; and in every such state a
    click on a subject that is already in some list leaves the whole state
    as it is. *)
Theorem subject_assigned_at_most_once (st : PlanState) (ops : list PlanOp) :
  uniquelyAssigned (semesterSubjects st) →
  let st' := runOps st ops in
  uniquelyAssigned (semesterSubjects st')
  ∧ (∀ s1 s2 x, s1 ∈ semesters st' → s2 ∈ semesters st' →
        x ∈ assignedTo (semesterSubjects st') (sem_id s1) →
        x ∈ assignedTo (semesterSubjects st') (sem_id s2) →
        sem_id s1 = sem_id s2)
  ∧ (∀ subjectId k l,
        semesterSubjects st' !! k = Some l → subjectId ∈ l →
        handleSubjectClick st' subjectId = st').
Proof.
  intros Hu st'. pose proof (runOps_unique ops st Hu) as Hu'. fold st' in Hu'.
  split_and!; [done | |].
  - intros s1 s2 x _ _ H1 H2. unfold assignedTo in *.
    destruct (semesterSubjects st' !! sem_id s1) as [l1|] eqn:E1;
      [|by apply elem_of_nil in H1].
    destruct (semesterSubjects st' !! sem_id s2) as [l2|] eqn:E2;
      [|by apply elem_of_nil in H2].
    eapply Hu'; eauto.
  - intros subjectId k l Hk Hx. apply handleSubjectClick_used.
    apply elem_of_assignedIds. eauto.
Qed.

Lemma examplePlan_unique : uniquelyAssigned (semesterSubjects examplePlan).
Proof.
  intros k1 k2 l1 l2 x H1 H2 Hx1 Hx2. unfold examplePlan in *. simpl in *.
  apply lookup_insert_Some in H1 as [[<- <-]|[? H1]];
    [|apply lookup_insert_Some in H1 as [[<- <-]|[? H1]]; [|done]];
    (apply lookup_insert_Some in H2 as [[<- <-]|[? H2]];
      [|apply lookup_insert_Some in H2 as [[<- <-]|[? H2]]; [|done]]);
    try done;
    apply list_elem_of_singleton in Hx1; apply list_elem_of_singleton in Hx2;
    congruence.
Qed.

(** From the example plan: subject 11 is assigned to the first semester, a
    second click on it after selecting the other semester is ignored, 12 is
    assigned to the second semester and 9 is removed from it.  Every id is
    still in at most one list, and a further click on 11 changes nothing. *)
Lemma subject_assigned_at_most_once_witness :
  uniquelyAssigned
    (semesterSubjects
       (runOps examplePlan
          [SubjectClick 11; SelectSemester 1; SubjectClick 11; SubjectClick 12;
           RemoveAssigned 1 9]))
  ∧ handleSubjectClick
      (runOps examplePlan
         [SubjectClick 11; SelectSemester 1; SubjectClick 11; SubjectClick 12;
          RemoveAssigned 1 9]) 11
    = runOps examplePlan
        [SubjectClick 11; SelectSemester 1; SubjectClick 11; SubjectClick 12;
         RemoveAssigned 1 9].
Proof.
  destruct (subject_assigned_at_most_once examplePlan
              [SubjectClick 11; SelectSemester 1; SubjectClick 11;
               SubjectClick 12; RemoveAssigned 1 9] examplePlan_unique)
    as (Hu & _ & Hnoop).
  split; [exact Hu|].
  apply (Hnoop 11 0 [7; 11]).
  - vm_compute. reflexivity.
  - apply elem_of_cons. right. apply elem_of_cons. by left.
Defined.

(** ** Capacity bounds *)

Lemma countSubjects_sum (ss : gmap Z (list Z)) (sems : list Semester) :
  countSubjects ss sems = sum_list_with (assignedCount ss) sems.
Proof.
  unfold countSubjects.
  assert (∀ n, foldl (λ sum s, sum + length (assignedTo ss (sem_id s)))%nat n sems
               = (n + sum_list_with (assignedCount ss) sems)%nat) as H.
  { induction sems as [|s sems IH]; intros n; simpl; [lia|].
    rewrite IH. unfold assignedCount. lia. }
  by rewrite H.
Qed.

Lemma sum_filter_mono {A} (f g : A → nat) (P Q : A → Prop)
    `{∀ x, Decision (P x)} `{∀ x, Decision (Q x)} (l : list A) :
  (∀ x, f x ≤ g x)%nat → (∀ x, x ∈ l → P x → Q x) →
  (sum_list_with f (filter P l) ≤ sum_list_with g (filter Q l))%nat.
Proof.
  intros Hfg. induction l as [|x l IH]; intros HPQ; [done|].
  assert (sum_list_with f (filter P l) ≤ sum_list_with g (filter Q l))%nat as IH'.
  { apply IH. intros y Hy. apply HPQ. by apply elem_of_cons; right. }
  pose proof (HPQ x ltac:(by apply elem_of_cons; left)) as Hx.
  pose proof (Hfg x).
  rewrite !filter_cons.
  destruct (decide (P x)), (decide (Q x)); simpl; try lia. tauto.
Qed.

Lemma sum_filter_sub {A} (f g : A → nat) (P Q : A → Prop)
    `{∀ x, Decision (P x)} `{∀ x, Decision (Q x)} (l : list A) :
  (∀ x, f x ≤ g x)%nat →
  (sum_list_with f (filter Q (filter P l)) ≤ sum_list_with g (filter Q l))%nat.
Proof.
  intros Hfg. induction l as [|x l IH]; [done|].
  pose proof (Hfg x). rewrite !filter_cons.
  destruct (decide (P x)); rewrite ?filter_cons;
    destruct (decide (Q x)); simpl; lia.
Qed.

Lemma assignedCount_insert_ne (ss : gmap Z (list Z)) (t : Z) (l : list Z)
    (s : Semester) :
  sem_id s ≠ t → assignedCount (<[t := l]> ss) s = assignedCount ss s.
Proof.
  intros Hne. unfold assignedCount, assignedTo. by rewrite lookup_insert_ne.
Qed.

Lemma assignedCount_insert_eq (ss : gmap Z (list Z)) (x : Z) (s : Semester) :
  assignedCount (<[sem_id s := assignedTo ss (sem_id s) ++ [x]]> ss) s
  = S (assignedCount ss s).
Proof.
  unfold assignedCount. unfold assignedTo at 1. rewrite lookup_insert_eq. simpl.
  rewrite length_app. simpl. lia.
Qed.

(** Appending to the list of an id that no semester of [sems] carries
    leaves every sum over [sems] as it was. *)
Lemma sum_insert_absent (ss : gmap Z (list Z)) (t : Z) (l : list Z)
    (sems : list Semester) :
  (∀ s, s ∈ sems → sem_id s ≠ t) →
  sum_list_with (assignedCount (<[t := l]> ss)) sems
  = sum_list_with (assignedCount ss) sems.
Proof.
  induction sems as [|s sems IH]; intros Hne; [done|]. simpl.
  rewrite assignedCount_insert_ne by (apply Hne; by apply elem_of_cons; left).
  rewrite IH; [done|]. intros y Hy. apply Hne. by apply elem_of_cons; right.
Qed.

(** With pairwise distinct ids, appending one subject to the list of
    semester [c] raises the sum over the semesters that satisfy [P] by one
    if [c] satisfies [P] and not at all otherwise. *)
Lemma sum_insert_NoDup (ss : gmap Z (list Z)) (x : Z) (c : Semester)
    (P : Semester → Prop) `{∀ s, Decision (P s)} (sems : list Semester) :
  NoDup (sem_id <$> sems) → c ∈ sems →
  sum_list_with
    (assignedCount (<[sem_id c := assignedTo ss (sem_id c) ++ [x]]> ss))
    (filter P sems)
  = (sum_list_with (assignedCount ss) (filter P sems)
     + if decide (P c) then 1 else 0)%nat.
Proof.
  induction sems as [|s sems IH]; intros Hnd Hin;
    [by apply elem_of_nil in Hin|].
  rewrite fmap_cons in Hnd. apply NoDup_cons in Hnd as [Hs Hnd].
  assert (∀ y, y ∈ sems → sem_id y ≠ sem_id s) as Hfresh.
  { intros y Hy Hid. apply Hs. rewrite <- Hid. apply list_elem_of_fmap. eauto. }
  rewrite !filter_cons. apply elem_of_cons in Hin as [->|Hin].
  - assert (sum_list_with
              (assignedCount (<[sem_id s := assignedTo ss (sem_id s) ++ [x]]> ss))
              (filter P sems)
            = sum_list_with (assignedCount ss) (filter P sems)) as Hrest.
    { apply sum_insert_absent. intros y Hy.
      apply list_elem_of_filter in Hy as [_ Hy]. by apply Hfresh. }
    destruct (decide (P s)); simpl; rewrite Hrest.
    + rewrite assignedCount_insert_eq. lia.
    + lia.
  - specialize (IH Hnd Hin).
    destruct (decide (P s)); simpl; rewrite IH; [|done].
    rewrite assignedCount_insert_ne; [lia|].
    intros Hid. by apply (Hfresh c Hin).
Qed.

(** When a click assigns, both counts it compared were below their caps. *)
Lemma subjectClickOutcome_Assign (st : PlanState) (subjectId t : Z)
    (cur : list Z) :
  subjectClickOutcome st subjectId = Assign t cur →
  ∀ c, findSemester (semesters st) (selectedSemester st) = Some c →
    (countSubjects (semesterSubjects st)
       (groupSemsOf (semesters st) (groupKeyOf c)) < 8)%nat
    ∧ (getYearSubjectCount st (sem_year c) < 14)%nat.
Proof.
  unfold subjectClickOutcome, MAX_PER_SEMESTER, MAX_PER_YEAR.
  intros H c Hc. rewrite Hc in H.
  destruct (isSubjectUsed st subjectId); [done|].
  repeat case_decide; try done. lia.
Qed.

Lemma handleSubjectClick_withinCaps (st : PlanState) (subjectId : Z) :
  NoDup (sem_id <$> semesters st) → withinCaps st →
  withinCaps (handleSubjectClick st subjectId).
Proof.
  intros Hnd [Hg Hy].
  destruct (handleSubjectClick_cases st subjectId) as [->|(_ & Hout & ->)];
    [done|].
  pose proof (subjectClickOutcome_Assign _ _ _ _ Hout) as Hlt. clear Hout.
  unfold withinCaps, groupTotal, yearTotal. simpl.
  destruct (findSemester (semesters st) (selectedSemester st)) as [c|] eqn:Hc.
  - apply findSemester_Some in Hc as [Hin Hid].
    destruct (Hlt c eq_refl) as [Hgc Hyc]. clear Hlt.
    rewrite <- Hid. split.
    + intros year term. rewrite sum_insert_NoDup by done.
      specialize (Hg year term). unfold groupTotal in Hg.
      case_decide as HP; [|lia]. destruct HP as [<- <-].
      rewrite countSubjects_sum in Hgc. unfold groupSemsOf in Hgc.
      assert (sum_list_with (assignedCount (semesterSubjects st))
                (filter (λ s, sem_year s = sem_year c ∧ sem_term s = sem_term c)
                        (semesters st))
              ≤ sum_list_with (assignedCount (semesterSubjects st))
                  (filter (λ s, groupKeyOf s = groupKeyOf c) (semesters st)))%nat.
      { apply sum_filter_mono; [done|]. intros s _ [? ?].
        by apply groupKeyOf_same. }
      lia.
    + intros year. rewrite sum_insert_NoDup by done.
      specialize (Hy year). unfold yearTotal in Hy.
      case_decide as HP; [|lia]. subst year.
      unfold getYearSubjectCount in Hyc. rewrite countSubjects_sum in Hyc. lia.
  - pose proof (findSemester_None _ _ Hc) as Hnone. split.
    + intros year term. rewrite sum_insert_absent; [apply Hg|].
      intros s Hs. apply list_elem_of_filter in Hs as [_ Hs]. by apply Hnone.
    + intros year. rewrite sum_insert_absent; [apply Hy|].
      intros s Hs. apply list_elem_of_filter in Hs as [_ Hs]. by apply Hnone.
Qed.

(** No list of [ss'] is longer than the list of [ss] under the same key. *)
Lemma withinCaps_shorter (st : PlanState) (ss' : gmap Z (list Z)) :
  (∀ k, length (assignedTo ss' k) ≤ length (assignedTo (semesterSubjects st) k))%nat →
  withinCaps st → withinCaps (setSemesterSubjects st ss').
Proof.
  intros Hle [Hg Hy]. unfold withinCaps, groupTotal, yearTotal. simpl. split.
  - intros year term. etrans; [|apply (Hg year term)].
    apply sum_filter_mono; [|done]. intros s. apply Hle.
  - intros year. etrans; [|apply (Hy year)].
    apply sum_filter_mono; [|done]. intros s. apply Hle.
Qed.

Lemma removeFromGroup_shorter (groupSems : list Semester) (subjectId : Z)
    (ss : gmap Z (list Z)) (k : Z) :
  (length (assignedTo (removeFromGroup groupSems subjectId ss) k)
   ≤ length (assignedTo ss k))%nat.
Proof.
  induction groupSems as [|sem rest IH]; simpl; [done|].
  case_bool_decide; [|done]. unfold assignedTo at 1.
  destruct (decide (sem_id sem = k)) as [<-|Hne].
  - rewrite lookup_insert_eq. simpl. apply length_filter.
  - by rewrite lookup_insert_ne.
Qed.

Lemma delete_shorter (semId : Z) (ss : gmap Z (list Z)) (k : Z) :
  (length (assignedTo (delete semId ss) k) ≤ length (assignedTo ss k))%nat.
Proof.
  unfold assignedTo. destruct (decide (semId = k)) as [<-|Hne].
  - rewrite lookup_delete_eq. simpl. lia.
  - by rewrite lookup_delete_ne.
Qed.

Lemma fmap_filter_shorter (subjectId : Z) (ss : gmap Z (list Z)) (k : Z) :
  (length (assignedTo (filter (λ sid, sid ≠ subjectId) <$> ss) k)
   ≤ length (assignedTo ss k))%nat.
Proof.
  unfold assignedTo. rewrite lookup_fmap.
  destruct (ss !! k) as [l|]; simpl; [apply length_filter | done].
Qed.

Lemma NoDup_ids_filter (P : Semester → Prop) `{∀ s, Decision (P s)}
    (sems : list Semester) :
  NoDup (sem_id <$> sems) → NoDup (sem_id <$> filter P sems).
Proof.
  induction sems as [|s sems IH]; intros Hnd; [done|].
  rewrite fmap_cons in Hnd. apply NoDup_cons in Hnd as [Hs Hnd].
  rewrite filter_cons. destruct (decide (P s)); [|by apply IH].
  rewrite fmap_cons. apply NoDup_cons. split; [|by apply IH].
  intros Hin. apply Hs. apply list_elem_of_fmap in Hin as (y & Hid & Hy).
  apply list_elem_of_filter in Hy as [_ Hy]. apply list_elem_of_fmap. eauto.
Qed.

Lemma handleDeleteSemester_withinCaps (st : PlanState) (semId : Z) :
  withinCaps st → withinCaps (handleDeleteSemester st semId).
Proof.
  intros [Hg Hy]. unfold handleDeleteSemester. case_decide; [done|].
  unfold withinCaps, groupTotal, yearTotal. simpl. split.
  - intros year term. etrans; [|apply (Hg year term)].
    apply sum_filter_sub. intros s. apply delete_shorter.
  - intros year. etrans; [|apply (Hy year)].
    apply sum_filter_sub. intros s. apply delete_shorter.
Qed.

Lemma foldl_delete_shorter (l : list Semester) (ss : gmap Z (list Z)) (k : Z) :
  (length (assignedTo (foldl (λ next s, delete (sem_id s) next) ss l) k)
   ≤ length (assignedTo ss k))%nat.
Proof.
  unfold assignedTo.
  destruct (foldl _ ss l !! k) as [v|] eqn:E; simpl; [|lia].
  apply foldl_delete_lookup in E. by rewrite E.
Qed.

Lemma foldl_last {A B} (g : B → A) (a : A) (l : list B) :
  foldl (λ _ x, g x) a l = default a (g <$> last l).
Proof.
  induction l as [|x l _] using rev_ind; [done|].
  by rewrite foldl_app, last_snoc.
Qed.

(** The semester list a group deletion leaves: the list itself, or the list
    without the semesters of one id. *)
Lemma handleDeleteGroup_semesters (st : PlanState) (groupKey : string) :
  semesters (handleDeleteGroup st groupKey) = semesters st
  ∨ ∃ semId, semesters (handleDeleteGroup st groupKey)
             = filter (λ s, sem_id s ≠ semId) (semesters st).
Proof.
  unfold handleDeleteGroup. case_decide; [by left|]. simpl.
  rewrite foldl_last.
  destruct (last (groupSemsOf (semesters st) groupKey)) as [s|]; [|by left].
  simpl. unfold handleDeleteSemester. case_decide; [by left|]. simpl. eauto.
Qed.

Lemma handleDeleteGroup_shorter (st : PlanState) (groupKey : string) (k : Z) :
  (length (assignedTo (semesterSubjects (handleDeleteGroup st groupKey)) k)
   ≤ length (assignedTo (semesterSubjects st) k))%nat.
Proof.
  unfold handleDeleteGroup. case_decide; [done|]. simpl.
  apply foldl_delete_shorter.
Qed.

Lemma handleDeleteGroup_withinCaps (st : PlanState) (groupKey : string) :
  withinCaps st → withinCaps (handleDeleteGroup st groupKey).
Proof.
  intros [Hg Hy]. unfold withinCaps, groupTotal, yearTotal.
  pose proof (handleDeleteGroup_shorter st groupKey) as Hle.
  destruct (handleDeleteGroup_semesters st groupKey) as [->|[semId ->]]; split.
  - intros year term. etrans; [|apply (Hg year term)].
    apply sum_filter_mono; [|done]. intros s. apply Hle.
  - intros year. etrans; [|apply (Hy year)].
    apply sum_filter_mono; [|done]. intros s. apply Hle.
  - intros year term. etrans; [|apply (Hg year term)].
    apply sum_filter_sub. intros s. apply Hle.
  - intros year. etrans; [|apply (Hy year)].
    apply sum_filter_sub. intros s. apply Hle.
Qed.

Lemma applyOp_capacity (st : PlanState) (op : PlanOp) :
  addsNoSemester op →
  NoDup (sem_id <$> semesters st) ∧ withinCaps st →
  NoDup (sem_id <$> semesters (applyOp st op)) ∧ withinCaps (applyOp st op).
Proof.
  intros Hop [Hnd Hcaps]. destruct op; simpl in *; try done.
  - split; [|by apply handleSubjectClick_withinCaps].
    by destruct (handleSubjectClick_cases st subjectId) as [->|(_ & _ & ->)].
  - split; [done|]. apply withinCaps_shorter; [|done].
    intros k. apply removeFromGroup_shorter.
  - split; [|by apply handleDeleteSemester_withinCaps].
    unfold handleDeleteSemester. case_decide; [done|]. simpl.
    by apply NoDup_ids_filter.
  - split; [|by apply handleDeleteGroup_withinCaps].
    destruct (handleDeleteGroup_semesters st groupKey) as [->|[semId ->]];
      [done | by apply NoDup_ids_filter].
  - unfold handleDeleteSubject. destruct dbError; [done|]. split; [done|].
    apply (withinCaps_shorter st); [|done]. intros k. apply fmap_filter_shorter.
Qed.

Lemma runOps_capacity (ops : list PlanOp) (st : PlanState) :
  Forall addsNoSemester ops →
  NoDup (sem_id <$> semesters st) ∧ withinCaps st →
  NoDup (sem_id <$> semesters (runOps st ops)) ∧ withinCaps (runOps st ops).
Proof.
  revert st. induction ops as [|op ops IH]; intros st Hops Hinv; [done|].
  apply Forall_cons in Hops as [Hop Hops]. simpl. apply IH; [done|].
  by apply applyOp_capacity.
Qed.

(** The two side conditions of the capacity theorem below are needed.
    Semesters that share an id share a list, so one click counts once per
    such semester: from 6 the group goes to 9.  And a semester that is
    added takes over whatever list sits under its id: after the group
    deletion the selection points at the deleted id 2, the nine clicks go
    unchecked into the list of id 2, and the added semester, which gets
    id 2, starts with nine subjects. *)
Remark capacity_side_conditions :
  groupTotal (semesters exampleSharedId) (semesterSubjects exampleSharedId)
             "2025" 1 = 6%nat
  ∧ groupTotal (semesters (handleSubjectClick exampleSharedId 3))
               (semesterSubjects (handleSubjectClick exampleSharedId 3))
               "2025" 1 = 9%nat
  ∧ selectedSemester (runOps exampleCohorts [DeleteGroup "2025-1"]) = 2
  ∧ sem_id <$> semesters (runOps exampleCohorts [DeleteGroup "2025-1"]) = [0; 1]
  ∧ groupTotal (semesters (runOps exampleCohorts exampleReuseOps))
               (semesterSubjects (runOps exampleCohorts exampleReuseOps))
               "2026" 1 = 9%nat.
Proof. split_and!; by vm_compute. Qed.

(** C3. From a plan within both caps whose semesters have pairwise distinct
    ids, every sequence of subject clicks (with changes of selection,
    removals and deletions in between) ends in a plan where each
    (year, term) group holds at most 8 subjects over its cohorts and each
    year at most 14; a further click keeps the caps, and a click whose
    assignment would break a cap leaves the state, the assignment map
    included, as it is and, for a subject not yet used, ends in one of
    the two alerts. *)
Theorem capacity_caps_invariant (st : PlanState) (ops : list PlanOp) :
  NoDup (sem_id <$> semesters st) →
  withinCaps st →
  Forall addsNoSemester ops →
  let st' := runOps st ops in
  (∀ year term,
     (groupTotal (semesters st') (semesterSubjects st') year term ≤ 8)%nat)
  ∧ (∀ year,
     (yearTotal (semesters st') (semesterSubjects st') year ≤ 14)%nat)
  ∧ (∀ subjectId,
       withinCaps (handleSubjectClick st' subjectId)
       ∧ (¬ withinCaps (forceAssign st' subjectId) →
          semesterSubjects (handleSubjectClick st' subjectId)
          = semesterSubjects st'
          ∧ handleSubjectClick st' subjectId = st'
          ∧ (subjectId ∉ assignedIds (semesterSubjects st') →
             (∃ term, subjectClickOutcome st' subjectId = AlertSemesterMax term)
             ∨ (∃ year, subjectClickOutcome st' subjectId = AlertYearMax year)))).
Proof.
  intros Hnd Hcaps Hops st'.
  destruct (runOps_capacity ops st Hops (conj Hnd Hcaps)) as [Hnd' Hcaps'].
  fold st' in Hnd', Hcaps'.
  split; [apply Hcaps'|]. split; [apply Hcaps'|].
  intros subjectId.
  pose proof (handleSubjectClick_withinCaps st' subjectId Hnd' Hcaps') as Hclick.
  split; [done|]. intros Hover.
  assert (handleSubjectClick st' subjectId ≠ forceAssign st' subjectId) as Hne.
  { intros E. apply Hover. by rewrite <- E. }
  destruct (handleSubjectClick_cases st' subjectId) as [E|(_ & _ & E)];
    [|done].
  rewrite E. split_and!; [done | done |].
  intros Hfresh. clear Hclick.
  unfold handleSubjectClick in E, Hne. unfold forceAssign in Hne.
  unfold subjectClickOutcome, isSubjectUsed in *.
  rewrite bool_decide_eq_false_2 in * by done.
  repeat case_decide; eauto. done.
Qed.

Lemma exampleFull_withinCaps : withinCaps exampleFull.
Proof.
  assert (assignedCount (semesterSubjects exampleFull)
            (mkSemester 0 "2025" 1 1 "" "") = 5%nat) as E0 by reflexivity.
  assert (assignedCount (semesterSubjects exampleFull)
            (mkSemester 1 "2025" 2 1 "" "") = 6%nat) as E1 by reflexivity.
  assert (assignedCount (semesterSubjects exampleFull)
            (mkSemester 2 "2025" 1 2 "" "") = 3%nat) as E2 by reflexivity.
  split.
  - intros year term. unfold groupTotal.
    change (semesters exampleFull)
      with [mkSemester 0 "2025" 1 1 "" ""; mkSemester 1 "2025" 2 1 "" "";
            mkSemester 2 "2025" 1 2 "" ""].
    rewrite !filter_cons, filter_nil.
    repeat case_decide; simpl in *; rewrite ?E0, ?E1, ?E2; lia.
  - intros year. unfold yearTotal.
    change (semesters exampleFull)
      with [mkSemester 0 "2025" 1 1 "" ""; mkSemester 1 "2025" 2 1 "" "";
            mkSemester 2 "2025" 1 2 "" ""].
    rewrite !filter_cons, filter_nil.
    repeat case_decide; simpl in *; rewrite ?E0, ?E1, ?E2; lia.
Qed.

(** On the full example plan: a click while the second half is selected
    would make the year's 15th subject and is refused, although that group
    holds only 6; after selecting the second cohort of the first half a
    click would make the group's 9th subject and is refused too.  The
    group stays at 8 and the year at 14. *)
Lemma capacity_caps_invariant_witness :
  handleSubjectClick exampleFull 20 = exampleFull
  ∧ handleSubjectClick (runOps exampleFull [SubjectClick 20; SelectSemester 2]) 20
    = runOps exampleFull [SubjectClick 20; SelectSemester 2]
  ∧ (groupTotal (semesters (runOps exampleFull [SubjectClick 20; SelectSemester 2]))
       (semesterSubjects (runOps exampleFull [SubjectClick 20; SelectSemester 2]))
       "2025" 1 ≤ 8)%nat
  ∧ (yearTotal (semesters (runOps exampleFull [SubjectClick 20; SelectSemester 2]))
       (semesterSubjects (runOps exampleFull [SubjectClick 20; SelectSemester 2]))
       "2025" ≤ 14)%nat.
Proof.
  assert (NoDup (sem_id <$> semesters exampleFull)) as Hnd.
  { apply (bool_decide_unpack _). reflexivity. }
  destruct (capacity_caps_invariant exampleFull [] Hnd exampleFull_withinCaps)
    as (_ & _ & Hyear); [constructor|].
  destruct (capacity_caps_invariant exampleFull
              [SubjectClick 20; SelectSemester 2] Hnd exampleFull_withinCaps)
    as (Hg & Hy & Hgroup); [repeat constructor|].
  split_and!.
  - apply (Hyear 20). intros [_ Hcap]. specialize (Hcap "2025").
    vm_compute in Hcap. lia.
  - apply (Hgroup 20). intros [Hcap _]. specialize (Hcap "2025" 1).
    vm_compute in Hcap. lia.
  - apply Hg.
  - apply Hy.
Defined.

(** ** Credit aggregation *)

Lemma foldl_Zadd (l : list Z) (a : Z) : foldl Z.add a l = a + sumZ l.
Proof.
  revert a. induction l as [|x l IH]; intros a; simpl; [lia|].
  rewrite IH. unfold sumZ. simpl. lia.
Qed.

Lemma sumZ_Permutation (l k : list Z) : l ≡ₚ k → sumZ l = sumZ k.
Proof. unfold sumZ. induction 1; simpl; lia. Qed.

(** Sum of the values of the by-category map: the sum over the three
    categories, a missing key counting 0. *)
Lemma sum_values_categories (m : gmap SubjectCategory Z) :
  sumZ ((map_to_list m).*2)
  = default 0 (m !! Major) + default 0 (m !! Liberal) + default 0 (m !! General).
Proof.
  induction m as [|k v m Hk _ IH] using map_first_key_ind.
  - by rewrite map_to_list_empty, !lookup_empty.
  - rewrite (sumZ_Permutation _ _
               (fmap_Permutation snd _ _ (map_to_list_insert m k v Hk))).
    rewrite fmap_cons. unfold sumZ in *. simpl. rewrite IH.
    destruct k; rewrite lookup_insert_eq, !lookup_insert_ne by done;
      rewrite Hk; simpl; lia.
Qed.

Lemma getCategoryCredits_all (m : gmap SubjectCategory Z) :
  getCategoryCredits m [Major; Liberal; General]
  = default 0 (m !! Major) + default 0 (m !! Liberal) + default 0 (m !! General).
Proof. unfold getCategoryCredits. simpl. lia. Qed.

Lemma lookup_addCredits (m : gmap SubjectCategory Z) (c c' : SubjectCategory)
    (n : Z) :
  default 0 (addCredits m c n !! c')
  = default 0 (m !! c') + (if decide (c = c') then n else 0).
Proof.
  unfold addCredits. destruct (decide (c = c')) as [->|Hne].
  - by rewrite lookup_insert_eq.
  - rewrite lookup_insert_ne by done. lia.
Qed.

Lemma creditsByCategory_entries (ids : list Z) (subjs : list Subject)
    (prevSubjects : list PrevSubject) (dokaksaList : list DokaksaEntry) :
  creditsByCategory ids subjs prevSubjects dokaksaList
  = addEntries ∅ (assignedEntries ids subjs ++ prevEntries prevSubjects
                  ++ dokaksaEntries dokaksaList).
Proof.
  unfold creditsByCategory, addEntries. rewrite !foldl_app.
  unfold prevEntries, dokaksaEntries. rewrite !foldl_fmap. simpl.
  do 2 f_equal. generalize (∅ : gmap SubjectCategory Z).
  unfold assignedEntries.
  induction ids as [|sid ids IH]; intros m; simpl; [done|].
  destruct (findSubject subjs sid) as [s|]; simpl; by rewrite IH.
Qed.

Lemma lookup_addEntries (m : gmap SubjectCategory Z)
    (entries : list (SubjectCategory * Z)) (cat : SubjectCategory) :
  default 0 (addEntries m entries !! cat)
  = default 0 (m !! cat) + creditsIn cat entries.
Proof.
  unfold addEntries, creditsIn, creditsOf, sumZ.
  revert m. induction entries as [|[c n] entries IH]; intros m; simpl; [lia|].
  rewrite IH, lookup_addCredits, filter_cons. simpl.
  destruct (decide (c = cat)); csimpl; lia.
Qed.

Lemma creditsIn_app (cat : SubjectCategory)
    (l k : list (SubjectCategory * Z)) :
  creditsIn cat (l ++ k) = creditsIn cat l + creditsIn cat k.
Proof.
  unfold creditsIn, creditsOf, sumZ. rewrite filter_app, fmap_app, foldr_app.
  generalize ((filter (λ e, e.1 = cat) k).*2). intros k'.
  induction ((filter (λ e, e.1 = cat) l).*2) as [|x l' IH]; simpl; lia.
Qed.

Lemma creditsOf_app (l k : list (SubjectCategory * Z)) :
  creditsOf (l ++ k) = creditsOf l + creditsOf k.
Proof.
  unfold creditsOf, sumZ. rewrite fmap_app, foldr_app.
  generalize (k.*2). intros k'. induction (l.*2) as [|x l' IH]; simpl; lia.
Qed.

(** Over the three categories the per-category credits add up to all
    credits. *)
Lemma creditsIn_all (entries : list (SubjectCategory * Z)) :
  creditsIn Major entries + creditsIn Liberal entries + creditsIn General entries
  = creditsOf entries.
Proof.
  unfold creditsIn, creditsOf, sumZ.
  induction entries as [|[c n] entries IH]; csimpl; [done|].
  rewrite !filter_cons. csimpl.
  destruct c; repeat case_decide; try done; csimpl; lia.
Qed.

Lemma dokaksaCredits_creditsOf (dokaksaList : list DokaksaEntry) :
  dokaksaCredits dokaksaList = creditsOf (dokaksaEntries dokaksaList).
Proof.
  unfold dokaksaCredits, creditsOf, dokaksaEntries.
  rewrite <- list_fmap_compose.
  assert (∀ a, foldl (λ s d, s + dokaksa_credits d) a dokaksaList
               = a + sumZ (dokaksa_credits <$> dokaksaList)) as H.
  { induction dokaksaList as [|d l IH]; intros a; csimpl;
      [unfold sumZ; simpl; lia|].
    rewrite IH. unfold sumZ. csimpl. lia. }
  rewrite H. simpl. done.
Qed.

(** C5. The grand total is the sum of the by-category map over the three
    categories plus the certificate total.  Each category of the map holds
    the credits of the assigned subjects found in the catalog, of the
    prior-institution subjects and of the self-study entries typed with
    that category, so that the grand total counts every self-study entry
    once.  With 20 assigned major credits, one prior major subject of 3
    credits and one self-study entry of 4 credits typed major, the map
    holds 27 for the major category. *)
Theorem credits_aggregation (ss : gmap Z (list Z)) (subjs : list Subject)
    (prevSubjects : list PrevSubject) (creditCerts : list CreditCert)
    (dokaksaList : list DokaksaEntry) :
  let byCategory :=
    creditsByCategory (assignedIds ss) subjs prevSubjects dokaksaList in
  let assigned := assignedEntries (assignedIds ss) subjs in
  totalCredits byCategory (certCredits creditCerts)
  = getCategoryCredits byCategory [Major; Liberal; General]
    + certCredits creditCerts
  ∧ (∀ cat, default 0 (byCategory !! cat)
            = creditsIn cat assigned
              + creditsIn cat (prevEntries prevSubjects)
              + creditsIn cat (dokaksaEntries dokaksaList))
  ∧ totalCredits byCategory (certCredits creditCerts)
    = creditsOf assigned + creditsOf (prevEntries prevSubjects)
      + dokaksaCredits dokaksaList + certCredits creditCerts
  ∧ (∀ p d,
       creditsIn Major assigned = 20 →
       prevSubjects = [p] → prev_category p = Major → prev_credits p = 3 →
       dokaksaList = [d] → dokaksa_credit_type d = Major →
       dokaksa_credits d = 4 →
       byCategory !! Major = Some 27).
Proof.
  intros byCategory assigned.
  assert (∀ cat, default 0 (byCategory !! cat)
                 = creditsIn cat assigned
                   + creditsIn cat (prevEntries prevSubjects)
                   + creditsIn cat (dokaksaEntries dokaksaList)) as Hcat.
  { intros cat. subst byCategory assigned.
    rewrite creditsByCategory_entries, lookup_addEntries, lookup_empty.
    rewrite !creditsIn_app. simpl. lia. }
  assert (totalCredits byCategory (certCredits creditCerts)
          = getCategoryCredits byCategory [Major; Liberal; General]
            + certCredits creditCerts) as Htotal.
  { unfold totalCredits.
    by rewrite foldl_Zadd, sum_values_categories, getCategoryCredits_all. }
  split_and!; [done | done | |].
  - rewrite Htotal, getCategoryCredits_all, !Hcat, dokaksaCredits_creditsOf.
    rewrite <- (creditsIn_all assigned),
            <- (creditsIn_all (prevEntries prevSubjects)),
            <- (creditsIn_all (dokaksaEntries dokaksaList)).
    lia.
  - intros p d Hassigned -> Hpc Hpn -> Hdc Hdn.
    pose proof (Hcat Major) as HM. rewrite Hassigned in HM.
    unfold creditsIn, creditsOf, sumZ, prevEntries, dokaksaEntries in HM.
    simpl in HM. rewrite !filter_cons, !filter_nil in HM. simpl in HM.
    rewrite Hpc, Hdc, Hpn, Hdn in HM. simpl in HM.
    destruct (byCategory !! Major) as [v|]; simpl in HM; [|lia].
    f_equal. lia.
Qed.

(** The example of the spec, evaluated: 20 + 3 + 4 major credits, and a
    grand total that adds the 5-credit certificate and counts the
    self-study entry once. *)
Lemma credits_aggregation_witness :
  creditsByCategory (assignedIds exampleAssignment) exampleCatalog
                    [examplePrev] [exampleDokaksa] !! Major = Some 27
  ∧ totalCredits
      (creditsByCategory (assignedIds exampleAssignment) exampleCatalog
                         [examplePrev] [exampleDokaksa])
      (certCredits [exampleCert]) = 32.
Proof.
  destruct (credits_aggregation exampleAssignment exampleCatalog
              [examplePrev] [exampleCert] [exampleDokaksa])
    as (_ & _ & Htotal & Hex).
  split.
  - apply (Hex examplePrev exampleDokaksa); reflexivity.
  - rewrite Htotal. reflexivity.
Defined.

(** ** Load: class_start reconciliation *)

Lemma sameCohort_spec (s cs : Semester) :
  sameCohort s cs = true
  ↔ sem_year s = sem_year cs ∧ sem_term s = sem_term cs
    ∧ sem_class_number s = sem_class_number cs.
Proof.
  unfold sameCohort. rewrite !andb_true_iff, !bool_decide_eq_true. tauto.
Qed.

Lemma represented_spec (finalSemesters : list Semester) (cs : Semester) :
  represented finalSemesters cs = true
  ↔ ∃ s, s ∈ finalSemesters
         ∧ sem_year s = sem_year cs ∧ sem_term s = sem_term cs
         ∧ sem_class_number s = sem_class_number cs.
Proof.
  unfold represented. rewrite existsb_exists. split.
  - intros (s & Hin & Hs). exists s. split; [by apply list_elem_of_In|].
    by apply sameCohort_spec.
  - intros (s & Hin & Hs). exists s. split; [by apply list_elem_of_In|].
    by apply sameCohort_spec.
Qed.

Lemma represented_app_l (l k : list Semester) (cs : Semester) :
  represented l cs = true → represented (l ++ k) cs = true.
Proof.
  unfold represented. rewrite existsb_app. intros ->. done.
Qed.

Lemma sameCohort_withId (cs : Semester) (id : Z) :
  sameCohort (withId cs id) cs = true.
Proof. apply sameCohort_spec. done. Qed.

Lemma appendLoop_represented (csItems final : list Semester) (nextId : Z) :
  (∀ cs, cs ∈ csItems → represented final cs = true) →
  appendLoop csItems (final, nextId) = (final, nextId).
Proof.
  unfold appendLoop. induction csItems as [|cs csItems IH]; intros Hall; [done|].
  simpl. rewrite (Hall cs) by (by apply elem_of_cons; left).
  apply IH. intros cs' Hcs'. apply Hall. by apply elem_of_cons; right.
Qed.

(** The loop only appends, and leaves every descriptor represented. *)
Lemma appendLoop_complete (csItems final : list Semester) (nextId : Z) :
  (∀ cs, represented final cs = true →
         represented (appendLoop csItems (final, nextId)).1 cs = true)
  ∧ (∀ cs, cs ∈ csItems →
           represented (appendLoop csItems (final, nextId)).1 cs = true).
Proof.
  unfold appendLoop. revert final nextId.
  induction csItems as [|c csItems IH]; intros final nextId.
  - split; [done|]. intros cs Hcs. by apply elem_of_nil in Hcs.
  - simpl. destruct (represented final c) eqn:Hc.
    + destruct (IH final nextId) as [IH1 IH2]. split; [done|].
      intros cs Hcs. apply elem_of_cons in Hcs as [->|Hcs]; auto.
    + destruct (IH (final ++ [withId c nextId]) (nextId + 1)) as [IH1 IH2].
      split.
      * intros cs Hcs. apply IH1. by apply represented_app_l.
      * intros cs Hcs. apply elem_of_cons in Hcs as [->|Hcs]; [|auto].
        apply IH1. unfold represented. rewrite existsb_app. simpl.
        rewrite sameCohort_withId. by rewrite orb_true_r.
Qed.

Lemma imap_withId_represented (csItems : list Semester) (cs : Semester) :
  cs ∈ csItems →
  represented (imap (λ i c, withId c (Z.of_nat i)) csItems) cs = true.
Proof.
  intros Hin. apply list_elem_of_lookup in Hin as [i Hi].
  apply represented_spec. exists (withId cs (Z.of_nat i)). split; [|done].
  apply list_elem_of_lookup. exists i. by rewrite list_lookup_imap, Hi.
Qed.

(** When every descriptor is represented the merge changes nothing. *)
Lemma mergeClassStart_synced (csItems finalSemesters : list Semester)
    (hasPlan : bool) :
  (∀ cs, cs ∈ csItems → represented finalSemesters cs = true) →
  mergeClassStart csItems finalSemesters hasPlan = finalSemesters.
Proof.
  intros Hall. unfold mergeClassStart.
  destruct csItems as [|c csItems]; [done|].
  assert (existsb (represented finalSemesters) (c :: csItems) = true) as ->.
  { simpl. rewrite (Hall c) by (by apply elem_of_cons; left). done. }
  simpl. unfold appendMissing. by rewrite appendLoop_represented.
Qed.

(** After a merge every descriptor is represented. *)
Lemma mergeClassStart_complete (csItems finalSemesters : list Semester)
    (hasPlan : bool) (cs : Semester) :
  cs ∈ csItems →
  represented (mergeClassStart csItems finalSemesters hasPlan) cs = true.
Proof.
  intros Hin. unfold mergeClassStart.
  destruct csItems as [|c csItems]; [by apply elem_of_nil in Hin|].
  destruct (negb _ && negb hasPlan).
  - by apply imap_withId_represented.
  - unfold appendMissing. by apply appendLoop_complete.
Qed.

Lemma savedSemesters_nonempty (plan : option SavedPlan) :
  savedSemesters plan ≠ [].
Proof.
  unfold savedSemesters. destruct plan as [[[[|s l]|] ? ?]|]; done.
Qed.

(** C7. The class_start step of the load is idempotent: when every cohort
    parsed from class_start is in the loaded semester list by year, term
    and class number, the list the page starts with is that list
    unchanged; and running the step again on the list a load produced, or
    loading again from a plan that stored that list, yields the same list,
    with no semester added. *)
Theorem class_start_reconciliation_idempotent
    (classStart : option string) (plan : option SavedPlan) :
  ((∀ cs, cs ∈ parseClassStart classStart →
      ∃ s, s ∈ savedSemesters plan
           ∧ sem_year s = sem_year cs ∧ sem_term s = sem_term cs
           ∧ sem_class_number s = sem_class_number cs) →
   loadSemesters classStart plan = savedSemesters plan)
  ∧ (∀ hasPlan,
       mergeClassStart (parseClassStart classStart)
                       (loadSemesters classStart plan) hasPlan
       = loadSemesters classStart plan)
  ∧ (∀ plan',
       savedSemesters plan' = loadSemesters classStart plan →
       loadSemesters classStart plan' = loadSemesters classStart plan).
Proof.
  split_and!.
  - intros Hall. apply mergeClassStart_synced.
    intros cs Hcs. apply represented_spec. by apply Hall.
  - intros hasPlan. apply mergeClassStart_synced.
    intros cs Hcs. by apply mergeClassStart_complete.
  - intros plan' Hsaved. unfold loadSemesters at 1. rewrite Hsaved.
    apply mergeClassStart_synced.
    intros cs Hcs. by apply mergeClassStart_complete.
Qed.

(** Both cohorts of "2025년 1학기 1기, 2025년 2학기 1기" are in the initial
    two semesters, so the load leaves them as they are; and loading
    "2025년 1학기 1기,2026년 1학기 2기" again from the plan stored after a
    first load gives the same three semesters. *)
Lemma class_start_reconciliation_idempotent_witness :
  loadSemesters (Some "2025년 1학기 1기, 2025년 2학기 1기") None
  = INITIAL_SEMESTERS
  ∧ loadSemesters (Some "2025년 1학기 1기,2026년 1학기 2기") (Some exampleSavedPlan)
    = loadSemesters (Some "2025년 1학기 1기,2026년 1학기 2기") None
  ∧ length (loadSemesters (Some "2025년 1학기 1기,2026년 1학기 2기")
                          (Some exampleSavedPlan)) = 3%nat.
Proof.
  destruct (class_start_reconciliation_idempotent
              (Some "2025년 1학기 1기, 2025년 2학기 1기") None) as (Hsync & _).
  destruct (class_start_reconciliation_idempotent
              (Some "2025년 1학기 1기,2026년 1학기 2기") None) as (_ & _ & Hagain).
  split_and!.
  - apply Hsync. intros cs Hcs. apply represented_spec.
    assert (Forall (λ c, represented (savedSemesters None) c = true)
              (parseClassStart (Some "2025년 1학기 1기, 2025년 2학기 1기"))) as Hall.
    { apply (bool_decide_unpack _). by vm_compute. }
    rewrite Forall_forall in Hall. by apply Hall.
  - apply Hagain. reflexivity.
  - rewrite (Hagain (Some exampleSavedPlan)) by reflexivity. reflexivity.
Defined.

(** ** Self-study entries *)

(** The rule of [presetCreditType], case by case. *)
Lemma presetCreditType_spec (stage : string) (major : option string)
    (category : string) :
  (stage = "1단계" → presetCreditType stage major category = Liberal)
  ∧ (stage ≠ "1단계" → major = Some category → category ≠ "" →
     presetCreditType stage major category = Major)
  ∧ (stage ≠ "1단계" → major ≠ Some category →
     presetCreditType stage major category = General)
  ∧ (stage ≠ "1단계" → presetCreditType stage major category ≠ Liberal).
Proof.
  unfold presetCreditType. split_and!.
  - intros ->. done.
  - intros Hs -> Hc. rewrite bool_decide_eq_false_2 by done.
    by rewrite !bool_decide_eq_true_2.
  - intros Hs Hm. rewrite bool_decide_eq_false_2 by done.
    destruct major as [m|]; [|done].
    rewrite (bool_decide_eq_false_2 (category = m)) by congruence.
    by rewrite andb_false_r.
  - intros Hs. rewrite bool_decide_eq_false_2 by done.
    destruct major as [m|]; [|done]. by destruct (_ && _).
Qed.

(** The preset path sends the [credit_type] the rule gives. *)
Lemma handleToggleDokaksaPreset_credit_type (studentId : string)
    (major : option string) (dokaksaList : list DokaksaEntry)
    (dokaksaForm : DokaksaForm) (preset : DokaksaPreset) (row : DokaksaInsert) :
  handleToggleDokaksaPreset studentId major dokaksaList dokaksaForm preset
  = InsertDokaksa row →
  ins_credit_type row
  = Some (presetCreditType (form_stage dokaksaForm) major (preset_category preset)).
Proof.
  unfold handleToggleDokaksaPreset. destruct (List.find _ _); [done|].
  by intros [= <-].
Qed.

(** The manual path sends no [credit_type] at all, whatever the stage. *)
Lemma handleAddDokaksa_no_credit_type (studentId : string)
    (dokaksaForm : DokaksaForm) (row : DokaksaInsert) :
  handleAddDokaksa studentId dokaksaForm = InsertDokaksa row →
  ins_credit_type row = None ∧ ins_stage row = form_stage dokaksaForm.
Proof.
  unfold handleAddDokaksa. case_bool_decide; [done|]. by intros [= <-].
Qed.

(** C6 fails on the manual path.  For the form [{stage: '1단계',
    subject_name: '국어', credits: 4}] [handleAddDokaksa] inserts a row with
    no [credit_type], where the preset path sends '교양' for the same
    subject; and whatever the column holds for such a row, the rule is
    broken at stage 1 or at stage 2: a stored '교양' is wrong for every
    stage-2 entry, anything else is wrong for every stage-1 entry. *)
Theorem handleAddDokaksa_skips_credit_type_rule :
  handleAddDokaksa "student-1" (mkDokaksaForm "1단계" "국어" 4)
  = InsertDokaksa (mkDokaksaInsert "student-1" "1단계" "국어" 4 None)
  ∧ handleToggleDokaksaPreset "student-1" None []
      (mkDokaksaForm "1단계" "" 4)
      (mkDokaksaPreset "1단계" "교양" "국어" 4 Required 1)
    = InsertDokaksa (mkDokaksaInsert "student-1" "1단계" "국어" 4 (Some Liberal))
  ∧ (∀ columnDefault : option SubjectCategory,
       ∃ stage, stage ∈ ["1단계"; "2단계"]
         ∧ ∀ major category,
             storedCreditType columnDefault
               (mkDokaksaInsert "student-1" stage "국어" 4 None)
             ≠ Some (presetCreditType stage major category))
  ∧ (∀ stage,
       handleAddDokaksa "student-1" (mkDokaksaForm stage "국어" 4)
       = InsertDokaksa (mkDokaksaInsert "student-1" stage "국어" 4 None)).
Proof.
  split_and!; [reflexivity | reflexivity | | intros stage; reflexivity].
  intros columnDefault. unfold storedCreditType. simpl.
  destruct (decide (columnDefault = Some Liberal)) as [->|Hne].
  - exists "2단계". split; [set_solver|]. intros major category [= E].
    destruct (presetCreditType_spec "2단계" major category) as (_ & _ & _ & H).
    apply H; [discriminate | by symmetry].
  - exists "1단계". split; [set_solver|]. intros major category E.
    apply Hne. rewrite E. done.
Qed.

(** ** Parsing class_start: the captured groups are numbers *)

Lemma digitsPrefix_allDigits (s : string) : allDigits (digitsPrefix s).1 = true.
Proof.
  induction s as [|c s IH]; simpl; [done|].
  destruct (isDigit c) eqn:Hc; [|done].
  destruct (digitsPrefix s) as [ds rest]. simpl in *. by rewrite Hc, IH.
Qed.

Lemma parseDigits_acc (radix : N) (s : string) (a : N) :
  is_Some (parseDigits radix s (Some a)).
Proof.
  revert a. induction s as [|c s IH]; intros a; simpl; [by eexists|].
  destruct (digitValue radix c); [apply IH | by eexists].
Qed.

Lemma isDigit_digitValue (c : ascii) :
  isDigit c = true → is_Some (digitValue 10 c).
Proof.
  destruct c as [[] [] [] [] [] [] [] []]; try discriminate; by eexists.
Qed.

Lemma trimStart_digit (c : ascii) (r : string) :
  isDigit c = true → trimStart (String c r) = String c r.
Proof.
  destruct c as [[] [] [] [] [] [] [] []]; try discriminate;
    intros _; by destruct r as [|? [|? ?]].
Qed.

(** [parseInt] of a non-empty run of digits is a number, never [NaN]. *)
Lemma parseInt_digits (s : string) :
  s ≠ "" → allDigits s = true → is_Some (parseInt s).
Proof.
  destruct s as [|c r]; [done|]. intros _ Hall. simpl in Hall.
  apply andb_true_iff in Hall as [Hc Hr].
  unfold parseInt. rewrite trimStart_digit by done.
  assert (∀ radix s' a,
            is_Some (match parseDigits radix s' (Some a) with
                     | Some n => Some (Z.of_N n)
                     | None => None
                     end)) as Hsome.
  { intros radix s' a. destruct (parseDigits_acc radix s' a) as [n ->].
    by eexists. }
  destruct c as [[] [] [] [] [] [] [] []]; try discriminate;
    try (simpl; apply Hsome).
  destruct r as [|c2 r2]; [by eexists|].
  simpl in Hr. apply andb_true_iff in Hr as [Hc2 _].
  destruct c2 as [[] [] [] [] [] [] [] []]; try discriminate;
    simpl; apply Hsome.
Qed.

(** The groups captured by the cohort pattern are a 4-digit year and two
    non-empty runs of digits, so both [parseInt] calls of
    [parseClassStart] return numbers. *)
Lemma matchCohortAt_groups (s m1 m2 m3 : string) :
  matchCohortAt s = Some (m1, m2, m3) →
  String.length m1 = 4%nat ∧ allDigits m1 = true
  ∧ is_Some (parseInt m2) ∧ is_Some (parseInt m3).
Proof.
  unfold matchCohortAt.
  destruct s as [|d1 [|d2 [|d3 [|d4 r0]]]]; try done.
  destruct (isDigit d1 && isDigit d2 && isDigit d3 && isDigit d4) eqn:Hd;
    [|done].
  destruct (stripPrefix "년" r0) as [r1|]; [|done].
  pose proof (digitsPrefix_allDigits (trimStart r1)) as H2.
  destruct (digitsPrefix (trimStart r1)) as [g2 r2]. simpl in H2.
  case_bool_decide as Hg2; [done|].
  destruct (stripPrefix "학기" r2) as [r3|]; [|done].
  pose proof (digitsPrefix_allDigits (trimStart r3)) as H3.
  destruct (digitsPrefix (trimStart r3)) as [g3 r4]. simpl in H3.
  case_bool_decide as Hg3; [done|].
  destruct (stripPrefix "기" r4); [|done].
  intros [= <- <- <-]. split_and!; [done | | by apply parseInt_digits..].
  simpl. rewrite !andb_true_iff in Hd. destruct Hd as [[[-> ->] ->] ->]. done.
Qed.

Lemma matchCohort_groups (s m1 m2 m3 : string) :
  matchCohort s = Some (m1, m2, m3) →
  String.length m1 = 4%nat ∧ allDigits m1 = true
  ∧ is_Some (parseInt m2) ∧ is_Some (parseInt m3).
Proof.
  induction s as [|c s IH]; [done|].
  intros H. unfold matchCohort in H. fold matchCohort in H.
  destruct (matchCohortAt (String c s)) as [m|] eqn:E; [|by apply IH].
  injection H as ->. by apply matchCohortAt_groups in E.
Qed.

(** ** Semester ids are pairwise distinct in every plan the page builds *)

Lemma increasingIds_NoDup (sems : list Semester) :
  increasingIds sems → NoDup (sem_id <$> sems).
Proof.
  unfold increasingIds. generalize (sem_id <$> sems). intros ids.
  induction 1 as [|x l _ IH Hx]; [constructor|].
  apply NoDup_cons. split; [|done].
  intros Hin. rewrite Forall_forall in Hx. specialize (Hx x Hin). lia.
Qed.

Lemma increasingIds_filter (P : Semester → Prop) `{∀ s, Decision (P s)}
    (sems : list Semester) :
  increasingIds sems → increasingIds (filter P sems).
Proof.
  unfold increasingIds. induction sems as [|s sems IH]; [done|].
  rewrite fmap_cons, StronglySorted_cons. intros [Hs Hsorted].
  rewrite filter_cons. destruct (decide (P s)); [|by apply IH].
  rewrite fmap_cons, StronglySorted_cons. split; [|by apply IH].
  rewrite Forall_forall in *. intros x Hx. apply Hs.
  apply list_elem_of_fmap in Hx as (y & -> & Hy).
  apply list_elem_of_filter in Hy as [_ Hy]. apply list_elem_of_fmap. eauto.
Qed.

Lemma increasingIds_below_next (sems : list Semester) (s : Semester) :
  increasingIds sems → s ∈ sems → sem_id s < nextSemesterId sems.
Proof.
  unfold increasingIds, nextSemesterId. intros Hsorted Hin.
  destruct (last sems) as [m|] eqn:El.
  - apply last_Some in El as [l' ->]. simpl.
    rewrite fmap_app in Hsorted. apply elem_of_app in Hin as [Hin|Hin].
    + assert (sem_id s < sem_id m); [|lia].
      eapply (StronglySorted_app_1_elem_of _ _ _ _ _ Hsorted).
      * apply list_elem_of_fmap. eauto.
      * simpl. apply list_elem_of_singleton. done.
    + apply list_elem_of_singleton in Hin as ->. lia.
  - apply last_None in El as ->. by apply elem_of_nil in Hin.
Qed.

Lemma increasingIds_snoc (sems : list Semester) (s : Semester) :
  increasingIds sems → (∀ x, x ∈ sems → sem_id x < sem_id s) →
  increasingIds (sems ++ [s]).
Proof.
  unfold increasingIds. intros Hsorted Hlt.
  rewrite fmap_app. apply StronglySorted_app. split_and!; [|done|].
  - intros x1 x2 H1 H2. apply list_elem_of_fmap in H1 as (y & -> & Hy).
    simpl in H2. apply list_elem_of_singleton in H2 as ->. by apply Hlt.
  - simpl. repeat constructor.
Qed.

Lemma applyOp_increasingIds (st : PlanState) (op : PlanOp) :
  increasingIds (semesters st) → increasingIds (semesters (applyOp st op)).
Proof.
  intros Hinc. destruct op; simpl; try done.
  - by destruct (handleSubjectClick_cases st subjectId) as [->|(_ & _ & ->)].
  - unfold increasingIds in *. rewrite <- list_fmap_compose.
    erewrite list_fmap_ext; [exact Hinc|].
    intros i s _. simpl. case_bool_decide; by destruct upd.
  - apply increasingIds_snoc; [done|]. intros x Hx. simpl.
    by apply increasingIds_below_next.
  - unfold handleDeleteSemester. case_decide; [done|]. simpl.
    by apply increasingIds_filter.
  - destruct (handleDeleteGroup_semesters st groupKey) as [->|[semId ->]];
      [done | by apply increasingIds_filter].
  - unfold handleAddKisu. destruct (currentSemester st); [|done]. simpl.
    apply increasingIds_snoc; [done|]. intros x Hx. simpl.
    by apply increasingIds_below_next.
  - unfold handleDeleteSubject. by destruct dbError.
Qed.

(** Every plan reached from one with increasing ids has pairwise distinct
    semester ids. *)
Lemma runOps_ids_distinct (ops : list PlanOp) (st : PlanState) :
  increasingIds (semesters st) →
  increasingIds (semesters (runOps st ops))
  ∧ NoDup (sem_id <$> semesters (runOps st ops)).
Proof.
  revert st. induction ops as [|op ops IH]; intros st Hinc.
  - split; [done | by apply increasingIds_NoDup].
  - simpl. apply IH. by apply applyOp_increasingIds.
Qed.

Lemma INITIAL_SEMESTERS_increasing : increasingIds INITIAL_SEMESTERS.
Proof. unfold increasingIds. simpl. repeat constructor. Qed.

Lemma maxId_ge (sems : list Semester) (s : Semester) :
  s ∈ sems → sem_id s ≤ maxId sems.
Proof.
  unfold maxId. destruct sems as [|x sems]; [by intros ?%elem_of_nil|].
  assert (∀ l a, a ≤ foldl Z.max a l ∧ ∀ y, y ∈ l → y ≤ foldl Z.max a l) as H.
  { induction l as [|z l IH]; intros a; simpl.
    - split; [lia|]. by intros y ?%elem_of_nil.
    - destruct (IH (Z.max a z)) as [IH1 IH2]. split; [lia|].
      intros y Hy. apply elem_of_cons in Hy as [->|Hy]; [lia | auto]. }
  destruct (H (sem_id <$> sems) (sem_id x)) as [H1 H2].
  intros Hin. apply elem_of_cons in Hin as [->|Hin]; [done|].
  apply H2. apply list_elem_of_fmap. eauto.
Qed.

Lemma appendLoop_increasing (csItems final : list Semester) (nextId : Z) :
  increasingIds final → (∀ s, s ∈ final → sem_id s < nextId) →
  increasingIds (appendLoop csItems (final, nextId)).1.
Proof.
  unfold appendLoop. revert final nextId.
  induction csItems as [|c csItems IH]; intros final nextId Hinc Hlt; [done|].
  simpl. destruct (represented final c); [by apply IH|].
  apply IH.
  - apply increasingIds_snoc; [done|]. intros x Hx. simpl. by apply Hlt.
  - intros s Hs. apply elem_of_app in Hs as [Hs|Hs].
    + specialize (Hlt s Hs). lia.
    + apply list_elem_of_singleton in Hs as ->. simpl. lia.
Qed.

Lemma imap_withId_increasing (csItems : list Semester) :
  increasingIds (imap (λ i c, withId c (Z.of_nat i)) csItems).
Proof.
  unfold increasingIds.
  assert (∀ k, StronglySorted Z.lt
                 (sem_id <$> imap (λ i c, withId c (Z.of_nat (k + i))) csItems)
               ∧ Forall (λ x, Z.of_nat k ≤ x)
                   (sem_id <$> imap (λ i c, withId c (Z.of_nat (k + i))) csItems))
    as H.
  { induction csItems as [|c csItems IH]; intros k; simpl.
    - split; constructor.
    - destruct (IH (S k)) as [IH1 IH2].
      assert (imap ((λ i c0, withId c0 (Z.of_nat (k + i))) ∘ S) csItems
              = imap (λ i c0, withId c0 (Z.of_nat (S k + i))) csItems) as ->.
      { apply imap_ext. intros i x _. simpl. f_equal. lia. }
      split.
      + constructor; [done|]. eapply Forall_impl; [exact IH2|].
        intros x Hx. simpl in Hx. lia.
      + constructor; [lia|]. eapply Forall_impl; [exact IH2|].
        intros x Hx. simpl in Hx. lia. }
  apply (H 0%nat).
Qed.

(** The class_start step keeps the ids increasing. *)
Lemma mergeClassStart_increasing (csItems finalSemesters : list Semester)
    (hasPlan : bool) :
  increasingIds finalSemesters →
  increasingIds (mergeClassStart csItems finalSemesters hasPlan).
Proof.
  intros Hinc. unfold mergeClassStart. destruct csItems as [|c csItems]; [done|].
  destruct (negb _ && negb hasPlan); [apply imap_withId_increasing|].
  unfold appendMissing. apply appendLoop_increasing; [done|].
  intros s Hs. pose proof (maxId_ge _ _ Hs). lia.
Qed.

(** Whatever class_start holds and whatever the user does afterwards, a
    page loaded without a stored plan, or from a stored plan whose ids
    grow along the list, always has pairwise distinct semester ids: the
    ids are allotted above the last or the largest one. *)
Lemma page_ids_distinct (loadedSubjects : list Subject)
    (classStart : option string) (plan : option SavedPlan) (ops : list PlanOp) :
  increasingIds (savedSemesters plan) →
  NoDup (sem_id <$>
           semesters (runOps (loadPlanState loadedSubjects classStart plan) ops)).
Proof.
  intros Hinc. apply runOps_ids_distinct. simpl.
  by apply mergeClassStart_increasing.
Qed.

Lemma page_ids_distinct_no_plan (loadedSubjects : list Subject)
    (classStart : option string) (ops : list PlanOp) :
  NoDup (sem_id <$>
           semesters (runOps (loadPlanState loadedSubjects classStart None) ops)).
Proof. apply page_ids_distinct. apply INITIAL_SEMESTERS_increasing. Qed.

(** * Further properties of the page *)

(** ** Flags of the requirement profile *)

(** X1. Whatever the input, the extended-program flag of the profile is set
    exactly when the profile has the three category targets, which is
    exactly when it has no subject-count target; a practicum requirement is
    present exactly when the course name holds the practicum marker, and
    then the flag is off and the total is 6. *)
Theorem getPlanConfig_flags
    (educationLevel courseName desiredDegree : option string) :
  let cfg := getPlanConfig educationLevel courseName desiredDegree in
  (isHighSchool cfg = true ↔ target_categories <$> targets cfg
                             = [[Major]; [Liberal]; [General]])
  ∧ (isHighSchool cfg = false ↔ targetTable cfg = [([Major], totalTarget cfg)])
  ∧ (isHighSchool cfg = true ↔ subjectTarget cfg = None)
  ∧ (is_Some (practice cfg) ↔ containsPracticum courseName)
  ∧ (is_Some (practice cfg) ↔ totalTarget cfg = 6)
  ∧ (isHighSchool cfg = true ↔ 80 ≤ totalTarget cfg).
Proof.
  intros cfg.
  destruct (getPlanConfig_cases educationLevel courseName desiredDegree)
    as [(Hc & E) | [(Hc & _ & _ & E) | [(Hc & _ & _ & E)
       | [(Hc & _ & _ & _ & E) | (Hc & _ & _ & E)]]]];
    fold cfg in E; rewrite E; unfold targetTable; simpl;
    (split_and!; split; intros H; try done; try lia;
     try (by inversion H); try (by destruct H)).
Qed.

(** ** Degrees offered by the student form *)

Lemma not_practicum_includes (c : string) :
  includes c "실습" = false → ¬ containsPracticum (Some c).
Proof. intros Hc H. apply includes_practicum in H. congruence. Qed.

(** X2. For a course without the practicum marker, every education level of
    the form and every desired degree the form offers for it resolves as
    follows: the bachelor gives the 140-credit profile, the associate
    degree (offered to high-school and withdrawn levels only) the 80-credit
    profile, and "none" (offered to 2- and 3-year graduates only) the
    51-credit profile.  A 4-year graduate and a practicum course are
    offered no degree at all. *)
Theorem offered_degree_profile (level courseName d : string) :
  level ∈ EDUCATION_LEVELS →
  d ∈ degreeOptions courseName level →
  includes courseName "실습" = false
  ∧ level ≠ "4년제졸업"
  ∧ (d = "학사" →
     totalTarget (getPlanConfig (orNull level) (Some courseName) (orNull d)) = 140)
  ∧ (d = "전문학사" →
     level ∈ JUNGTAE_GROUP
     ∧ totalTarget (getPlanConfig (orNull level) (Some courseName) (orNull d)) = 80)
  ∧ (d = "없음" →
     level ∈ TWOTHREE_GRAD
     ∧ totalTarget (getPlanConfig (orNull level) (Some courseName) (orNull d)) = 51)
  ∧ (d = "학사" ∨ d = "전문학사" ∨ d = "없음").
Proof.
  intros Hlevel Hd. unfold degreeOptions in Hd.
  destruct (includes courseName "실습") eqn:Hc; [by apply elem_of_nil in Hd|].
  split; [done|].
  unfold getPlanConfig. rewrite Hc.
  unfold EDUCATION_LEVELS in Hlevel.
  rewrite !elem_of_cons, elem_of_nil in Hlevel.
  destruct Hlevel as [->|[->|[->|[->|[->|[->|[->|[]]]]]]]];
    match type of Hd with
    | _ ∈ ?l => let v := eval vm_compute in l in change l with v in Hd
    end;
    try (by apply elem_of_nil in Hd);
    rewrite !elem_of_cons, elem_of_nil in Hd;
    destruct Hd as [->|[->|[]]];
    (split_and!;
     [ discriminate
     | intros E; (discriminate E || reflexivity)
     | intros E; (discriminate E
                  || (split; [unfold JUNGTAE_GROUP; set_solver | reflexivity]))
     | intros E; (discriminate E
                  || (split; [unfold TWOTHREE_GRAD; set_solver | reflexivity]))
     | auto ]).
Qed.

(** A 3-year graduate on the statutory course: both offered degrees. *)
Lemma offered_degree_profile_witness :
  totalTarget (getPlanConfig (Some "3년제졸업") (Some "사회복지사2급(신법)") (Some "학사"))
  = 140
  ∧ totalTarget (getPlanConfig (Some "3년제졸업") (Some "사회복지사2급(신법)") (Some "없음"))
    = 51.
Proof.
  split.
  - destruct (offered_degree_profile "3년제졸업" "사회복지사2급(신법)" "학사")
      as (_ & _ & H & _).
    + vm_compute. set_solver.
    + vm_compute. set_solver.
    + by apply H.
  - destruct (offered_degree_profile "3년제졸업" "사회복지사2급(신법)" "없음")
      as (_ & _ & _ & _ & H & _).
    + vm_compute. set_solver.
    + vm_compute. set_solver.
    + by apply H.
Defined.

(** ** Practicum counters *)

Lemma practiceCount_fold (subjs : list Subject) (ids : list Z) (acc : Z * Z) :
  foldl (countTyped subjs) acc ids
  = (acc.1 + Z.of_nat (length (filter (isTyped subjs Required) ids)),
     acc.2 + Z.of_nat (length (filter (isTyped subjs Elective) ids))).
Proof.
  revert acc. induction ids as [|sid ids IH]; intros [r e]; simpl.
  - f_equal; lia.
  - rewrite IH, !filter_cons. unfold countTyped. simpl.
    repeat case_bool_decide; repeat case_decide; unfold isTyped in *;
      try congruence; simpl; f_equal; lia.
Qed.

Lemma practiceCount_prev_fold (prevSubjects : list PrevSubject) (e : Z) :
  foldl countPrevMajor e prevSubjects
  = e + Z.of_nat (length (filter (λ s, prev_category s = Major) prevSubjects)).
Proof.
  revert e. induction prevSubjects as [|s l IH]; intros e; simpl; [lia|].
  rewrite IH, filter_cons. unfold countPrevMajor.
  case_bool_decide; case_decide; try done; simpl; lia.
Qed.

(** X4. The practicum tracker exists exactly for profiles with a practicum
    requirement.  Its required count is the number of assigned subjects the
    catalog marks required; its elective count is the number marked
    elective plus one for every prior-institution subject of the major
    category, so prior subjects never add to the required count; subjects
    without a mark or missing from the catalog count for neither, and the
    two counts together never exceed the subject total of the page. *)
Theorem practiceCount_counts (planConfig : PlanConfig) (ids : list Z)
    (subjs : list Subject) (prevSubjects : list PrevSubject) :
  (practiceCount planConfig ids subjs prevSubjects = None
   ↔ practice planConfig = None)
  ∧ ∀ c, practiceCount planConfig ids subjs prevSubjects = Some c →
      counter_required c
      = Z.of_nat (length (filter (isTyped subjs Required) ids))
      ∧ counter_elective c
        = Z.of_nat (length (filter (isTyped subjs Elective) ids))
          + Z.of_nat (length (filter (λ s, prev_category s = Major) prevSubjects))
      ∧ practiceCount planConfig ids subjs []
        = Some (mkPracticeCounter
                  (counter_required c)
                  (Z.of_nat (length (filter (isTyped subjs Elective) ids))))
      ∧ counter_required c + counter_elective c ≤ totalSubjects ids prevSubjects.
Proof.
  unfold practiceCount. destruct (practice planConfig) as [req|]; [|done].
  split; [done|]. intros c [= <-]. simpl.
  rewrite (practiceCount_fold subjs ids (0, 0)). simpl.
  rewrite practiceCount_prev_fold. split_and!; [lia | lia | f_equal; f_equal; lia |].
  unfold totalSubjects.
  pose proof (length_filter (λ s, prev_category s = Major) prevSubjects).
  assert (length (filter (isTyped subjs Required) ids)
          + length (filter (isTyped subjs Elective) ids) ≤ length ids)%nat.
  { clear. induction ids as [|sid ids IH]; [done|].
    rewrite !filter_cons.
    repeat case_decide; unfold isTyped in *; try congruence; simpl; lia. }
  lia.
Qed.

(** The scenario of the practicum profile: three required subjects assigned
    against a target of four, and one prior major subject: the tracker
    shows 3 required and 1 elective, and 3 and 0 without the prior
    subject. *)
Lemma practiceCount_counts_witness :
  practiceCount (getPlanConfig None (Some "사회복지사 실습") None) [1; 2; 3; 4]
    [ mkSubject 1 Major "a" 3 Theory (Some Required) None;
      mkSubject 2 Major "b" 3 Theory (Some Required) None;
      mkSubject 3 Major "c" 3 Practice (Some Required) None;
      mkSubject 4 Major "d" 3 Theory None None ]
    []
  = Some (mkPracticeCounter 3 0)
  ∧ 3 + 1 ≤ totalSubjects [1; 2; 3; 4] [examplePrev].
Proof.
  destruct (practiceCount_counts
              (getPlanConfig None (Some "사회복지사 실습") None) [1; 2; 3; 4]
              [ mkSubject 1 Major "a" 3 Theory (Some Required) None;
                mkSubject 2 Major "b" 3 Theory (Some Required) None;
                mkSubject 3 Major "c" 3 Practice (Some Required) None;
                mkSubject 4 Major "d" 3 Theory None None ]
              [examplePrev]) as [_ H].
  destruct (H (mkPracticeCounter 3 1) eq_refl) as (_ & _ & Hnoprev & Hbound).
  split; [exact Hnoprev | exact Hbound].
Defined.

(** ** Credit aggregation does not depend on the order of its inputs *)

Lemma creditsIn_Permutation (cat : SubjectCategory)
    (l k : list (SubjectCategory * Z)) :
  l ≡ₚ k → creditsIn cat l = creditsIn cat k.
Proof.
  intros H. unfold creditsIn, creditsOf. apply sumZ_Permutation.
  by rewrite H.
Qed.

Lemma addEntries_lookup_None (m : gmap SubjectCategory Z)
    (entries : list (SubjectCategory * Z)) (cat : SubjectCategory) :
  addEntries m entries !! cat = None
  ↔ m !! cat = None ∧ ∀ e, e ∈ entries → e.1 ≠ cat.
Proof.
  unfold addEntries. revert m.
  induction entries as [|[c n] entries IH]; intros m; simpl.
  - split; [intros H; split; [done | by intros e ?%elem_of_nil] | by intros [? _]].
  - rewrite IH. unfold addCredits. rewrite lookup_insert_None. split.
    + intros [[Hm Hc] Hrest]. split; [done|]. intros e He.
      apply elem_of_cons in He as [->|He]; [done | by apply Hrest].
    + intros [Hm Hall]. split.
      * split; [done|]. apply (Hall (c, n)). by apply elem_of_cons; left.
      * intros e He. apply Hall. by apply elem_of_cons; right.
Qed.

Lemma addEntries_Permutation (m : gmap SubjectCategory Z)
    (l k : list (SubjectCategory * Z)) :
  l ≡ₚ k → addEntries m l = addEntries m k.
Proof.
  intros H. apply map_eq. intros cat.
  pose proof (lookup_addEntries m l cat) as Hl.
  pose proof (lookup_addEntries m k cat) as Hk.
  rewrite (creditsIn_Permutation cat l k H) in Hl.
  pose proof (addEntries_lookup_None m l cat) as Nl.
  pose proof (addEntries_lookup_None m k cat) as Nk.
  destruct (addEntries m l !! cat) as [v|] eqn:El,
           (addEntries m k !! cat) as [w|] eqn:Ek; simpl in *.
  - f_equal. lia.
  - exfalso. destruct Nk as [[Hm Hall] _]; [done|].
    assert (Some v = None); [|done]. apply Nl. split; [done|].
    intros e He. apply Hall. by rewrite <- H.
  - exfalso. destruct Nl as [[Hm Hall] _]; [done|].
    assert (Some w = None); [|done]. apply Nk. split; [done|].
    intros e He. apply Hall. by rewrite H.
  - done.
Qed.

(** X5. The by-category map, and with it the grand total, does not depend
    on the order in which the assigned ids, the prior-institution subjects
    and the self-study entries are listed: permuting any of the three
    lists gives the same map, key for key. *)
Theorem creditsByCategory_order_independent
    (ids ids' : list Z) (subjs : list Subject)
    (prevSubjects prevSubjects' : list PrevSubject)
    (dokaksaList dokaksaList' : list DokaksaEntry) (cert : Z) :
  ids ≡ₚ ids' → prevSubjects ≡ₚ prevSubjects' → dokaksaList ≡ₚ dokaksaList' →
  creditsByCategory ids subjs prevSubjects dokaksaList
  = creditsByCategory ids' subjs prevSubjects' dokaksaList'
  ∧ totalCredits (creditsByCategory ids subjs prevSubjects dokaksaList) cert
    = totalCredits (creditsByCategory ids' subjs prevSubjects' dokaksaList') cert.
Proof.
  intros Hi Hp Hd.
  assert (creditsByCategory ids subjs prevSubjects dokaksaList
          = creditsByCategory ids' subjs prevSubjects' dokaksaList') as E.
  { rewrite !creditsByCategory_entries. apply addEntries_Permutation.
    unfold assignedEntries, prevEntries, dokaksaEntries.
    by rewrite Hi, Hp, Hd. }
  by rewrite E.
Qed.

Lemma creditsByCategory_order_independent_witness :
  creditsByCategory [1; 8; 7] exampleCatalog [examplePrev] [exampleDokaksa]
  = creditsByCategory [7; 1; 8] exampleCatalog [examplePrev] [exampleDokaksa].
Proof.
  apply (creditsByCategory_order_independent [1; 8; 7] [7; 1; 8] exampleCatalog
           [examplePrev] [examplePrev] [exampleDokaksa] [exampleDokaksa] 0);
    [|done|done].
  etrans; [apply Permutation_skip, Permutation_swap | apply Permutation_swap].
Defined.

(** ** Full view totals *)

Lemma assignedIds_delete (ss : gmap Z (list Z)) (k : Z) :
  assignedIds ss ≡ₚ assignedTo ss k ++ assignedIds (delete k ss).
Proof.
  unfold assignedIds, assignedTo. destruct (ss !! k) as [l|] eqn:E; simpl.
  - rewrite <- (insert_delete_id ss k l E) at 1.
    rewrite map_to_list_insert by apply lookup_delete_eq. by rewrite fmap_cons.
  - by rewrite delete_id.
Qed.

(** With pairwise distinct semester ids and no list outside the semesters,
    the assigned ids are the lists of the semesters put together. *)
Lemma assignedIds_semesters (sems : list Semester) (ss : gmap Z (list Z)) :
  NoDup (sem_id <$> sems) →
  (∀ k x, x ∈ assignedTo ss k → k ∈ sem_id <$> sems) →
  assignedIds ss ≡ₚ mjoin ((λ s, assignedTo ss (sem_id s)) <$> sems).
Proof.
  revert ss. induction sems as [|s sems IH]; intros ss Hnd Hkeys.
  - simpl. destruct (assignedIds ss) as [|x l] eqn:E; [done|].
    assert (x ∈ assignedIds ss) as Hx by (rewrite E; by apply elem_of_cons; left).
    apply elem_of_assignedIds in Hx as (k & l' & Hk & Hx).
    assert (x ∈ assignedTo ss k) as Hx' by (unfold assignedTo; by rewrite Hk).
    apply Hkeys in Hx'. by apply elem_of_nil in Hx'.
  - rewrite fmap_cons in Hnd. apply NoDup_cons in Hnd as [Hs Hnd].
    rewrite (assignedIds_delete ss (sem_id s)). simpl.
    apply Permutation_app; [done|].
    rewrite (IH (delete (sem_id s) ss) Hnd).
    + assert ((λ s0, assignedTo (delete (sem_id s) ss) (sem_id s0)) <$> sems
              = (λ s0, assignedTo ss (sem_id s0)) <$> sems) as ->; [|done].
      apply list_fmap_ext. intros i y Hy.
      unfold assignedTo. rewrite lookup_delete_ne; [done|].
      intros E. apply Hs. rewrite E. apply list_elem_of_fmap.
      exists y. split; [done|]. by eapply list_elem_of_lookup_2.
    + intros k x Hx. unfold assignedTo in Hx.
      destruct (decide (sem_id s = k)) as [<-|Hne].
      * rewrite lookup_delete_eq in Hx. by apply elem_of_nil in Hx.
      * rewrite lookup_delete_ne in Hx by done.
        apply Hkeys in Hx. rewrite fmap_cons in Hx.
        apply elem_of_cons in Hx as [->|Hx]; done.
Qed.

(** The credits a list of ids brings to a column of the full view. *)
Lemma getSemCreditByCol_category (st : PlanState) (semId : Z) :
  getSemCreditByCol st semId "전공"
  = creditsIn Major
      (assignedEntries (assignedTo (semesterSubjects st) semId) (subjects st))
  ∧ getSemCreditByCol st semId "교양"
    = creditsIn Liberal
        (assignedEntries (assignedTo (semesterSubjects st) semId) (subjects st)).
Proof.
  unfold getSemCreditByCol.
  generalize (assignedTo (semesterSubjects st) semId). intros ids.
  assert (∀ (col : string) (cat : SubjectCategory) a,
            foldl (λ sum sid,
                     match findSubject (subjects st) sid with
                     | None => sum
                     | Some s =>
                         if bool_decide (subject_category s = cat)
                         then sum + subject_credits s else sum
                     end) a ids
            = a + creditsIn cat (assignedEntries ids (subjects st))) as H.
  { intros _ cat. unfold creditsIn, creditsOf, sumZ, assignedEntries.
    induction ids as [|sid ids IH]; intros a; csimpl; [lia|].
    rewrite IH. destruct (findSubject (subjects st) sid) as [s|]; csimpl; [|lia].
    rewrite filter_cons. simpl.
    case_bool_decide; case_decide; try done; csimpl; lia. }
  split.
  - rewrite <- (Z.add_0_l (creditsIn Major _)), <- (H "전공" Major 0). done.
  - rewrite <- (Z.add_0_l (creditsIn Liberal _)), <- (H "교양" Liberal 0). done.
Qed.

Lemma getSemCreditByCol_other (st : PlanState) (semId : Z) (col : string) :
  col ≠ "전공" → col ≠ "교양" → col ≠ "실습" → getSemCreditByCol st semId col = 0.
Proof.
  intros H1 H2 H3. unfold getSemCreditByCol.
  rewrite !bool_decide_eq_false_2 by done.
  induction (assignedTo (semesterSubjects st) semId) as [|sid ids IH]; [done|].
  simpl. by destruct (findSubject (subjects st) sid).
Qed.

Lemma getTotalCreditByCol_sum (st : PlanState) (col : string) :
  getTotalCreditByCol st col
  = sumZ ((λ sem, getSemCreditByCol st (sem_id sem) col) <$> semesters st).
Proof.
  unfold getTotalCreditByCol.
  assert (∀ a, foldl (λ sum sem, sum + getSemCreditByCol st (sem_id sem) col)
                 a (semesters st)
               = a + sumZ ((λ sem, getSemCreditByCol st (sem_id sem) col)
                             <$> semesters st)) as H.
  { unfold sumZ. induction (semesters st) as [|s l IH]; intros a; csimpl; [lia|].
    rewrite IH. lia. }
  by rewrite H.
Qed.

Lemma creditsIn_join_semesters (cat : SubjectCategory) (subjs : list Subject)
    (ss : gmap Z (list Z)) (sems : list Semester) :
  sumZ ((λ sem, creditsIn cat (assignedEntries (assignedTo ss (sem_id sem)) subjs))
          <$> sems)
  = creditsIn cat
      (assignedEntries (mjoin ((λ s, assignedTo ss (sem_id s)) <$> sems)) subjs).
Proof.
  induction sems as [|s sems IH]; csimpl; [done|].
  unfold sumZ in *. csimpl. rewrite IH.
  unfold assignedEntries. by rewrite omap_app, creditsIn_app.
Qed.

(** X6. In a plan with pairwise distinct semester ids and no assignment
    list outside its semesters, the 전공 and 교양 totals of the full view
    are the credits of the assigned subjects of that category: what the
    stat cards show for the category less the prior-institution and
    self-study credits, which the full view leaves out.  A column other
    than the three fixed ones totals 0. *)
Theorem fullview_totals (st : PlanState)
    (prevSubjects : list PrevSubject) (dokaksaList : list DokaksaEntry) :
  NoDup (sem_id <$> semesters st) →
  (∀ k x, x ∈ assignedTo (semesterSubjects st) k → k ∈ sem_id <$> semesters st) →
  let byCategory :=
    creditsByCategory (assignedIds (semesterSubjects st)) (subjects st)
                      prevSubjects dokaksaList in
  getTotalCreditByCol st "전공"
    + creditsIn Major (prevEntries prevSubjects)
    + creditsIn Major (dokaksaEntries dokaksaList)
  = getCategoryCredits byCategory [Major]
  ∧ getTotalCreditByCol st "교양"
      + creditsIn Liberal (prevEntries prevSubjects)
      + creditsIn Liberal (dokaksaEntries dokaksaList)
    = getCategoryCredits byCategory [Liberal]
  ∧ (∀ col, col ≠ "전공" → col ≠ "교양" → col ≠ "실습" →
            getTotalCreditByCol st col = 0).
Proof.
  intros Hnd Hkeys byCategory.
  pose proof (assignedIds_semesters _ _ Hnd Hkeys) as Hperm.
  assert (∀ cat, creditsIn cat (assignedEntries (assignedIds (semesterSubjects st))
                                                (subjects st))
                 = sumZ ((λ sem, creditsIn cat
                                   (assignedEntries
                                      (assignedTo (semesterSubjects st) (sem_id sem))
                                      (subjects st))) <$> semesters st)) as Hsum.
  { intros cat. rewrite creditsIn_join_semesters.
    apply creditsIn_Permutation. unfold assignedEntries. by rewrite Hperm. }
  assert (∀ cat, getCategoryCredits byCategory [cat]
                 = creditsIn cat (assignedEntries (assignedIds (semesterSubjects st))
                                                  (subjects st))
                   + creditsIn cat (prevEntries prevSubjects)
                   + creditsIn cat (dokaksaEntries dokaksaList)) as Hcard.
  { intros cat. unfold getCategoryCredits. simpl. subst byCategory.
    rewrite creditsByCategory_entries, lookup_addEntries, lookup_empty.
    rewrite !creditsIn_app. simpl. lia. }
  split_and!.
  - rewrite Hcard, Hsum, getTotalCreditByCol_sum. do 3 f_equal.
    apply list_fmap_ext. intros i s _. apply getSemCreditByCol_category.
  - rewrite Hcard, Hsum, getTotalCreditByCol_sum. do 3 f_equal.
    apply list_fmap_ext. intros i s _. apply getSemCreditByCol_category.
  - intros col H1 H2 H3. rewrite getTotalCreditByCol_sum.
    assert ((λ sem, getSemCreditByCol st (sem_id sem) col) <$> semesters st
            = (λ _, 0) <$> semesters st) as ->.
    { apply list_fmap_ext. intros. by apply getSemCreditByCol_other. }
    unfold sumZ. generalize (semesters st). intros l.
    induction l as [|s l IH]; [done|]. exact IH.
Qed.

Lemma fullview_totals_witness :
  getTotalCreditByCol examplePlan "전공" + 3 + 4
  = getCategoryCredits
      (creditsByCategory (assignedIds (semesterSubjects examplePlan))
                         (subjects examplePlan) [examplePrev] [exampleDokaksa])
      [Major]
  ∧ getTotalCreditByCol examplePlan "합계" = 0.
Proof.
  destruct (fullview_totals examplePlan [examplePrev] [exampleDokaksa])
    as (Hmajor & _ & Hother).
  - apply (bool_decide_unpack _). reflexivity.
  - intros k x Hx. unfold assignedTo, examplePlan in Hx. simpl in Hx.
    destruct (decide (k = 0)) as [->|H0]; [by apply elem_of_cons; left|].
    destruct (decide (k = 1)) as [->|H1];
      [by apply elem_of_cons; right; apply elem_of_cons; left|].
    rewrite !lookup_insert_ne, lookup_empty in Hx by done.
    by apply elem_of_nil in Hx.
  - split; [exact Hmajor | by apply Hother].
Defined.

(** ** Subject list panel *)

Lemma elem_of_firstSeen {A} `{EqDecision A} (x : A) (l : list A) :
  x ∈ firstSeen l ↔ x ∈ l.
Proof. unfold firstSeen. by rewrite elem_of_reverse, elem_of_remove_dups, elem_of_reverse. Qed.

Lemma NoDup_firstSeen {A} `{EqDecision A} (l : list A) : NoDup (firstSeen l).
Proof. unfold firstSeen. rewrite reverse_Permutation. apply NoDup_remove_dups. Qed.

Lemma firstSeen_snoc {A} `{EqDecision A} (l : list A) (x : A) :
  firstSeen (l ++ [x]) = if decide (x ∈ l) then firstSeen l else firstSeen l ++ [x].
Proof.
  unfold firstSeen. rewrite reverse_app. simpl.
  destruct (decide_rel elem_of x (reverse l)) as [Hin|Hin];
    rewrite elem_of_reverse in Hin; destruct (decide (x ∈ l)); try done.
  by rewrite reverse_cons.
Qed.

Lemma ofCategory_nil (c : SubjectCategory) (l : list Subject) :
  ofCategory c l = [] ↔ c ∉ subject_category <$> l.
Proof.
  unfold ofCategory. induction l as [|s l IH]; csimpl.
  - split; [intros _; apply not_elem_of_nil | done].
  - rewrite filter_cons, not_elem_of_cons. destruct (decide (subject_category s = c)).
    + split; [done | intros [? _]; congruence].
    + rewrite IH. split; [intros ?; split; [congruence | done] | by intros [_ ?]].
Qed.

Lemma ofCategory_snoc (c : SubjectCategory) (l : list Subject) (s : Subject) :
  ofCategory c (l ++ [s])
  = if decide (c = subject_category s) then ofCategory c l ++ [s] else ofCategory c l.
Proof.
  unfold ofCategory. rewrite filter_app, filter_cons, filter_nil.
  destruct (decide (subject_category s = c));
    destruct (decide (c = subject_category s)); try congruence.
  by rewrite app_nil_r.
Qed.

Lemma pushGroup_fmap (F : SubjectCategory → list Subject)
    (ks : list SubjectCategory) (s : Subject) :
  NoDup ks →
  pushGroup ((λ c, (c, F c)) <$> ks) s
  = if decide (subject_category s ∈ ks)
    then (λ c, (c, if decide (c = subject_category s) then F c ++ [s] else F c)) <$> ks
    else ((λ c, (c, F c)) <$> ks) ++ [(subject_category s, [s])].
Proof.
  induction ks as [|k ks IH]; intros Hnd.
  - simpl. destruct (decide (subject_category s ∈ [])) as [H|_]; [|done].
    by apply elem_of_nil in H.
  - apply NoDup_cons in Hnd as [Hk Hnd]. csimpl. case_bool_decide as Hks.
    + subst k. rewrite decide_True by (by apply elem_of_cons; left).
      csimpl. rewrite decide_True by done. f_equal.
      apply list_fmap_ext. intros i c Hc. rewrite decide_False; [done|].
      intros ->. apply Hk. by eapply list_elem_of_lookup_2.
    + rewrite (IH Hnd). destruct (decide (subject_category s ∈ ks)) as [Hin|Hin].
      * rewrite decide_True by (by apply elem_of_cons; right).
        csimpl. by rewrite decide_False by done.
      * rewrite decide_False; [done|].
        intros [?|?]%elem_of_cons; congruence.
Qed.

(** The groups of the panel: one per category met in the list, in the
    order of first appearance, each holding the subjects of its category
    in list order. *)
Lemma groupedSubjects_firstSeen (filtered : list Subject) :
  groupedSubjects filtered
  = (λ c, (c, ofCategory c filtered)) <$> firstSeen (subject_category <$> filtered).
Proof.
  unfold groupedSubjects.
  induction filtered as [|s l IH] using rev_ind; [done|].
  rewrite foldl_app. simpl. rewrite IH, fmap_app. csimpl.
  rewrite firstSeen_snoc, pushGroup_fmap by apply NoDup_firstSeen.
  destruct (decide (subject_category s ∈ subject_category <$> l)) as [Hin|Hin].
  - rewrite decide_True by (by apply elem_of_firstSeen).
    apply list_fmap_ext. intros i c _. by rewrite ofCategory_snoc.
  - rewrite decide_False by (by rewrite elem_of_firstSeen).
    rewrite fmap_app. csimpl. f_equal.
    + apply list_fmap_ext. intros i c Hc. rewrite ofCategory_snoc, decide_False; [done|].
      intros ->. apply Hin, elem_of_firstSeen. by eapply list_elem_of_lookup_2.
    + rewrite ofCategory_snoc, decide_True by done.
      apply ofCategory_nil in Hin. by rewrite Hin.
Qed.

Lemma category_label_inj (c d : SubjectCategory) :
  category_label c = category_label d → c = d.
Proof. by destruct c, d. Qed.

(** X7. The subject panel groups the filtered subjects by category: no
    category heads two groups, a pair is a group exactly when it is a
    category together with the non-empty list of the filtered subjects of
    that category in their list order, and the groups come in the order
    in which the categories first appear.  With a category selected in
    place of 전체, at most the group of that category is shown, and it
    holds all of the student's subjects of that category. *)
Theorem groupedSubjects_partition (selectedCategory : string) (subjs : list Subject) :
  let filtered := filteredSubjects selectedCategory subjs in
  let groups := groupedSubjects filtered in
  NoDup groups.*1
  ∧ groups.*1 = firstSeen (subject_category <$> filtered)
  ∧ (∀ c g, (c, g) ∈ groups ↔ g = ofCategory c filtered ∧ g ≠ [])
  ∧ (∀ s, s ∈ filtered ↔ ∃ g, (subject_category s, g) ∈ groups ∧ s ∈ g)
  ∧ (selectedCategory ≠ "전체" →
     ∀ c g, (c, g) ∈ groups →
            category_label c = selectedCategory
            ∧ groups = [(c, g)] ∧ g = ofCategory c subjs).
Proof.
  intros filtered groups.
  assert (groups.*1 = firstSeen (subject_category <$> filtered)) as Hkeys.
  { unfold groups. rewrite groupedSubjects_firstSeen, <- list_fmap_compose.
    apply list_fmap_id. }
  assert (∀ c g, (c, g) ∈ groups ↔ g = ofCategory c filtered ∧ g ≠ []) as Hgroups.
  { intros c g. unfold groups. rewrite groupedSubjects_firstSeen, list_elem_of_fmap.
    split.
    - intros (c' & [= <- ->] & Hc). split; [done|].
      rewrite ofCategory_nil. intros H. by apply H, elem_of_firstSeen.
    - intros [-> Hne]. exists c. split; [done|].
      apply elem_of_firstSeen. destruct (decide (c ∈ subject_category <$> filtered));
        [done|]. by apply ofCategory_nil in n. }
  split_and!; [rewrite Hkeys; apply NoDup_firstSeen | done | done | |].
  - intros s. split.
    + intros Hs. exists (ofCategory (subject_category s) filtered).
      assert (s ∈ ofCategory (subject_category s) filtered) as Hin
        by (by apply list_elem_of_filter).
      split; [|done]. apply Hgroups. split; [done|].
      intros E. rewrite E in Hin. by apply elem_of_nil in Hin.
    + intros (g & [-> _]%Hgroups & Hs). by apply list_elem_of_filter in Hs as [_ Hs].
  - intros Hsel c g Hcg.
    assert (∀ s, s ∈ filtered → category_label (subject_category s) = selectedCategory)
      as Hall.
    { intros s. unfold filtered, filteredSubjects.
      rewrite bool_decide_eq_false_2 by done.
      by intros [? _]%list_elem_of_filter. }
    pose proof Hcg as [-> Hne]%Hgroups.
    assert (category_label c = selectedCategory) as Hc.
    { destruct (ofCategory c filtered) as [|s g] eqn:E; [done|].
      assert (s ∈ ofCategory c filtered) as Hs by (rewrite E; by apply elem_of_cons; left).
      apply list_elem_of_filter in Hs as [<- Hs]. by apply Hall. }
    split_and!; [done | |].
    + assert (firstSeen (subject_category <$> filtered) = [c]) as Hone.
      { pose proof (NoDup_firstSeen (subject_category <$> filtered)) as Hnd.
        assert (∀ d, d ∈ firstSeen (subject_category <$> filtered) → d = c) as Hd.
        { intros d (s & -> & Hs)%elem_of_firstSeen%list_elem_of_fmap.
          apply category_label_inj. rewrite Hc. by apply Hall. }
        assert (c ∈ firstSeen (subject_category <$> filtered)) as Hin.
        { rewrite <- Hkeys. apply list_elem_of_fmap. by exists (c, ofCategory c filtered). }
        destruct (firstSeen (subject_category <$> filtered)) as [|d [|e l]].
        - by apply elem_of_nil in Hin.
        - f_equal. apply Hd. by apply elem_of_cons; left.
        - apply NoDup_cons in Hnd as [Hde _]. exfalso. apply Hde.
          rewrite (Hd d), (Hd e); [by apply elem_of_cons; left | |].
          + apply elem_of_cons; right. by apply elem_of_cons; left.
          + by apply elem_of_cons; left. }
      unfold groups. by rewrite groupedSubjects_firstSeen, Hone.
    + unfold filtered, filteredSubjects, ofCategory.
      rewrite bool_decide_eq_false_2 by done.
      rewrite list_filter_filter. apply filter_ext_elem_of.
      intros s _. split; [by intros [? _]|]. intros <-. by split.
Qed.

(** ** Removing an assigned subject *)

Lemma setSemesterSubjects_same (st : PlanState) :
  setSemesterSubjects st (semesterSubjects st) = st.
Proof. by destruct st. Qed.

(** The loop changes nothing when no list of the group holds the subject,
    and otherwise filters the subject out of the list of one semester of
    the group that holds it. *)
Lemma removeFromGroup_cases (groupSems : list Semester) (x : Z)
    (ss : gmap Z (list Z)) :
  (removeFromGroup groupSems x ss = ss
   ∧ ∀ sem, sem ∈ groupSems → x ∉ assignedTo ss (sem_id sem))
  ∨ ∃ sem, sem ∈ groupSems ∧ x ∈ assignedTo ss (sem_id sem)
           ∧ removeFromGroup groupSems x ss
             = <[sem_id sem := filter (λ id, id ≠ x) (assignedTo ss (sem_id sem))]> ss.
Proof.
  induction groupSems as [|s rest IH]; simpl.
  - left. split; [done|]. intros sem H. by apply elem_of_nil in H.
  - case_bool_decide as Hin.
    + right. exists s. split_and!; [by apply elem_of_cons; left | done | done].
    + destruct IH as [[E Hno]|(sem & Hsem & Hx & E)].
      * left. split; [done|]. intros sem [->|H]%elem_of_cons; [done | by apply Hno].
      * right. exists sem. split_and!; [by apply elem_of_cons; right | done | done].
Qed.

Lemma elem_of_currentSemesterSubjectIds (st : PlanState) (x : Z) :
  x ∈ currentSemesterSubjectIds st
  ↔ ∃ sem, sem ∈ selectedGroupSemesters st
           ∧ x ∈ assignedTo (semesterSubjects st) (sem_id sem).
Proof.
  unfold currentSemesterSubjectIds. rewrite list_elem_of_join. split.
  - intros (l & Hx & (sem & -> & Hsem)%list_elem_of_fmap). eauto.
  - intros (sem & Hsem & Hx). eexists. split; [exact Hx|].
    apply list_elem_of_fmap. eauto.
Qed.

Lemma length_currentSemesterSubjectIds (st : PlanState) :
  length (currentSemesterSubjectIds st)
  = countSubjects (semesterSubjects st) (selectedGroupSemesters st).
Proof.
  rewrite countSubjects_sum. unfold currentSemesterSubjectIds, assignedCount.
  induction (selectedGroupSemesters st) as [|s l IH]; csimpl; [done|].
  by rewrite length_app, IH.
Qed.

Lemma handleRemoveAssigned_group (st : PlanState) (semId x : Z) :
  handleRemoveAssigned st semId x
  = setSemesterSubjects st
      (removeFromGroup (selectedGroupSemesters st) x (semesterSubjects st)).
Proof. reflexivity. Qed.

Lemma not_elem_of_assignedIds (ss : gmap Z (list Z)) (x : Z) :
  (∀ k, x ∉ assignedTo ss k) → x ∉ assignedIds ss.
Proof.
  intros H (k & l & Hk & Hx)%elem_of_assignedIds.
  apply (H k). unfold assignedTo. by rewrite Hk.
Qed.

(** X8. The remove button of a chip.  Chips are drawn for the ids of
    [currentSemesterSubjectIds]; when no subject sits in two lists, the
    button takes the subject out of every list and leaves all other
    entries of every list in place and in order, whichever semester id
    the button passes; the subject is then unused again and no longer
    among the displayed ids.  The rest of the state is untouched. *)
Theorem remove_button_frees_subject (st : PlanState) (semId x : Z) :
  uniquelyAssigned (semesterSubjects st) →
  x ∈ currentSemesterSubjectIds st →
  let st' := handleRemoveAssigned st semId x in
  (∀ k, assignedTo (semesterSubjects st') k
        = filter (λ id, id ≠ x) (assignedTo (semesterSubjects st) k))
  ∧ isSubjectUsed st' x = false
  ∧ (x ∉ currentSemesterSubjectIds st')
  ∧ subjects st' = subjects st ∧ semesters st' = semesters st
  ∧ semesterDates st' = semesterDates st
  ∧ selectedSemester st' = selectedSemester st.
Proof.
  intros Hu Hx st'.
  assert (∀ k, assignedTo (semesterSubjects st') k
               = filter (λ id, id ≠ x) (assignedTo (semesterSubjects st) k)) as Hall.
  { intros k. unfold st'. rewrite handleRemoveAssigned_group. simpl.
    apply elem_of_currentSemesterSubjectIds in Hx as (sem0 & Hsem0 & Hx0).
    destruct (removeFromGroup_cases (selectedGroupSemesters st) x (semesterSubjects st))
      as [[_ Hno]|(sem & Hsem & Hx & ->)]; [by destruct (Hno sem0 Hsem0)|].
    destruct (decide (sem_id sem = k)) as [<-|Hne].
    - unfold assignedTo at 1. by rewrite lookup_insert_eq.
    - unfold assignedTo at 1. rewrite lookup_insert_ne by done.
      fold (assignedTo (semesterSubjects st) k).
      symmetry. apply filter_id_elem_of. intros y Hy ->. apply Hne.
      unfold assignedTo in Hx, Hy.
      destruct (semesterSubjects st !! sem_id sem) as [l1|] eqn:E1;
        [|by apply elem_of_nil in Hx].
      destruct (semesterSubjects st !! k) as [l2|] eqn:E2;
        [|by apply elem_of_nil in Hy].
      exact (Hu _ _ _ _ x E1 E2 Hx Hy). }
  assert (∀ k, x ∉ assignedTo (semesterSubjects st') k) as Hgone.
  { intros k. rewrite Hall. by intros [? _]%list_elem_of_filter. }
  split_and!; try done.
  - unfold isSubjectUsed. apply bool_decide_eq_false_2.
    by apply not_elem_of_assignedIds.
  - intros (sem & _ & H)%elem_of_currentSemesterSubjectIds. by apply (Hgone (sem_id sem)).
Qed.

(** ** A click undone *)

Lemma findSemester_currentSemester (st : PlanState) (c : Semester) :
  findSemester (semesters st) (selectedSemester st) = Some c →
  currentSemester st = Some c.
Proof. unfold currentSemester. by intros ->. Qed.

Lemma selected_in_group (st : PlanState) (c : Semester) :
  findSemester (semesters st) (selectedSemester st) = Some c →
  c ∈ selectedGroupSemesters st ∧ sem_id c = selectedSemester st.
Proof.
  intros Hc. pose proof (findSemester_Some _ _ _ Hc) as [Hin Hid].
  split; [|done]. unfold selectedGroupSemesters, selectedGroupKey.
  rewrite (findSemester_currentSemester _ _ Hc).
  by apply list_elem_of_filter.
Qed.

(** X9. With the selected semester in the plan, a click on an unused
    subject followed by the removal of that subject gives back the lists
    the plan had: the list of every semester id is as before the click,
    and so is the rest of the state.  This holds whether the click
    assigned the subject or was turned down by a cap. *)
Theorem click_then_remove (st : PlanState) (semId x : Z) :
  is_Some (findSemester (semesters st) (selectedSemester st)) →
  isSubjectUsed st x = false →
  let st' := handleRemoveAssigned (handleSubjectClick st x) semId x in
  (∀ k, assignedTo (semesterSubjects st') k = assignedTo (semesterSubjects st) k)
  ∧ isSubjectUsed st' x = false
  ∧ subjects st' = subjects st ∧ semesters st' = semesters st
  ∧ semesterDates st' = semesterDates st
  ∧ selectedSemester st' = selectedSemester st.
Proof.
  intros [c Hc] Hun st'. apply bool_decide_eq_false in Hun.
  assert (∀ k, x ∉ assignedTo (semesterSubjects st) k) as Hfresh.
  { intros k H. by apply Hun, (elem_of_assignedTo _ k). }
  assert (∀ k, assignedTo (semesterSubjects st') k
               = assignedTo (semesterSubjects st) k) as Hall.
  { intros k. unfold st'. rewrite handleRemoveAssigned_group.
    destruct (handleSubjectClick_cases st x) as [->|(_ & _ & ->)].
    - simpl. destruct (removeFromGroup_cases (selectedGroupSemesters st) x
                         (semesterSubjects st)) as [[-> _]|(sem & _ & Hx & _)]; [done|].
      by destruct (Hfresh (sem_id sem)).
    - set (st1 := setSemesterSubjects st _).
      assert (findSemester (semesters st1) (selectedSemester st1) = Some c) as Hc1
        by done.
      apply selected_in_group in Hc1 as [Hin Hid].
      change (selectedSemester st1) with (selectedSemester st) in Hid.
      assert (∀ j, j ≠ selectedSemester st →
                   assignedTo (semesterSubjects st1) j
                   = assignedTo (semesterSubjects st) j) as Hother.
      { intros j Hj. unfold assignedTo, st1. simpl. by rewrite lookup_insert_ne. }
      assert (assignedTo (semesterSubjects st1) (selectedSemester st)
              = assignedTo (semesterSubjects st) (selectedSemester st) ++ [x]) as Hsel.
      { unfold assignedTo at 1, st1. simpl. by rewrite lookup_insert_eq. }
      destruct (removeFromGroup_cases (selectedGroupSemesters st1) x
                  (semesterSubjects st1)) as [[_ Hno]|(sem & _ & Hx & ->)];
        cbn [semesterSubjects setSemesterSubjects].
      + exfalso. apply (Hno c Hin). rewrite Hid, Hsel.
        apply elem_of_app; right. by apply elem_of_cons; left.
      + assert (sem_id sem = selectedSemester st) as Hsem.
        { destruct (decide (sem_id sem = selectedSemester st)) as [|Hne]; [done|].
          rewrite Hother in Hx by done. by destruct (Hfresh (sem_id sem)). }
        rewrite Hsem, Hsel, filter_app, filter_cons, filter_nil.
        rewrite decide_False by (intros H; by apply H).
        rewrite app_nil_r, filter_id_elem_of
          by (intros y Hy ->; by apply (Hfresh (selectedSemester st))).
        destruct (decide (k = selectedSemester st)) as [->|Hk].
        * unfold assignedTo at 1. by rewrite lookup_insert_eq.
        * unfold assignedTo at 1. rewrite lookup_insert_ne by done.
          by apply Hother. }
  split_and!; try done.
  - unfold isSubjectUsed. apply bool_decide_eq_false_2.
    apply not_elem_of_assignedIds. intros k. rewrite Hall. apply Hfresh.
  - unfold st'. by destruct (handleSubjectClick_cases st x) as [->|(_ & _ & ->)].
  - unfold st'. by destruct (handleSubjectClick_cases st x) as [->|(_ & _ & ->)].
  - unfold st'. by destruct (handleSubjectClick_cases st x) as [->|(_ & _ & ->)].
  - unfold st'. by destruct (handleSubjectClick_cases st x) as [->|(_ & _ & ->)].
Qed.

(** ** A selection that names no semester *)

(** X10. When the selected id belongs to no semester of the plan, a click
    on an unused subject is never turned down, whatever the counts: the
    subject goes into the list kept under the selected id.  No list of a
    semester of the plan changes, the subject is shown under no group,
    and neither a further click nor the remove handler changes the state:
    the subject stays used. *)
Theorem click_without_selected_semester (st : PlanState) (x : Z) :
  findSemester (semesters st) (selectedSemester st) = None →
  isSubjectUsed st x = false →
  let st' := handleSubjectClick st x in
  semesterSubjects st'
  = <[selectedSemester st :=
        assignedTo (semesterSubjects st) (selectedSemester st) ++ [x]]>
      (semesterSubjects st)
  ∧ (∀ s, s ∈ semesters st →
          assignedTo (semesterSubjects st') (sem_id s)
          = assignedTo (semesterSubjects st) (sem_id s))
  ∧ isSubjectUsed st' x = true
  ∧ (x ∉ currentSemesterSubjectIds st')
  ∧ handleSubjectClick st' x = st'
  ∧ (∀ semId, handleRemoveAssigned st' semId x = st').
Proof.
  intros Hnone Hun st'.
  pose proof (findSemester_None _ _ Hnone) as Hids.
  assert (st' = setSemesterSubjects st
                  (<[selectedSemester st :=
                       assignedTo (semesterSubjects st) (selectedSemester st) ++ [x]]>
                     (semesterSubjects st))) as Est.
  { unfold st', handleSubjectClick, subjectClickOutcome.
    rewrite Hun, Hnone. unfold groupSemsOf.
    assert (filter (λ s, groupKeyOf s = "") (semesters st) = []) as ->.
    { clear. generalize (semesters st). intros l.
      induction l as [|s l IH]; [done|].
      by rewrite filter_cons, decide_False by apply groupKeyOf_nonempty. }
    unfold MAX_PER_SEMESTER, MAX_PER_YEAR, countSubjects. simpl.
    repeat case_decide; (done || lia). }
  apply bool_decide_eq_false in Hun.
  assert (∀ s, s ∈ semesters st →
               assignedTo (semesterSubjects st') (sem_id s)
               = assignedTo (semesterSubjects st) (sem_id s)) as Hsame.
  { intros s Hs. rewrite Est. unfold assignedTo. simpl.
    rewrite lookup_insert_ne; [done|]. intros E. by apply (Hids s). }
  assert (x ∈ assignedIds (semesterSubjects st')) as Hused.
  { apply (elem_of_assignedTo _ (selectedSemester st)). rewrite Est.
    unfold assignedTo at 1. simpl. rewrite lookup_insert_eq. simpl.
    apply elem_of_app; right. by apply elem_of_cons; left. }
  assert (∀ sem, sem ∈ selectedGroupSemesters st' →
                 x ∉ assignedTo (semesterSubjects st') (sem_id sem)) as Hno.
  { intros sem Hsem Hx.
    assert (sem ∈ semesters st) as Hin.
    { unfold selectedGroupSemesters, groupSemsOf in Hsem.
      apply list_elem_of_filter in Hsem as [_ Hsem]. by rewrite Est in Hsem. }
    rewrite Hsame in Hx by done. by apply Hun, (elem_of_assignedTo _ (sem_id sem)). }
  split_and!.
  - by rewrite Est.
  - done.
  - unfold isSubjectUsed. by apply bool_decide_eq_true_2.
  - intros (sem & Hsem & Hx)%elem_of_currentSemesterSubjectIds. by apply (Hno sem).
  - by apply handleSubjectClick_used.
  - intros semId. rewrite handleRemoveAssigned_group.
    destruct (removeFromGroup_cases (selectedGroupSemesters st') x
                (semesterSubjects st')) as [[-> _]|(sem & Hsem & Hx & _)].
    + apply setSemesterSubjects_same.
    + by destruct (Hno sem Hsem).
Qed.

Lemma remove_button_frees_subject_witness :
  7 ∈ currentSemesterSubjectIds examplePlan
  ∧ assignedTo (semesterSubjects (handleRemoveAssigned examplePlan 1 7)) 0 = []
  ∧ isSubjectUsed (handleRemoveAssigned examplePlan 1 7) 7 = false.
Proof.
  assert (7 ∈ currentSemesterSubjectIds examplePlan) as Hin.
  { vm_compute. by apply elem_of_cons; left. }
  destruct (remove_button_frees_subject examplePlan 1 7 examplePlan_unique Hin)
    as (Hall & Hfree & _).
  split_and!; [exact Hin | by rewrite Hall | exact Hfree].
Defined.

Lemma click_then_remove_witness :
  assignedTo (semesterSubjects
                (handleRemoveAssigned (handleSubjectClick examplePlan 11) 0 11)) 0
  = [7]
  ∧ isSubjectUsed (handleRemoveAssigned (handleSubjectClick examplePlan 11) 0 11) 11
    = false.
Proof.
  destruct (click_then_remove examplePlan 0 11) as (Hall & Hfree & _).
  - by eexists.
  - reflexivity.
  - split; [by rewrite Hall | exact Hfree].
Defined.

Lemma click_without_selected_semester_witness :
  findSemester (semesters exampleOrphan) (selectedSemester exampleOrphan) = None
  ∧ isSubjectUsed (handleSubjectClick exampleOrphan 101) 101 = true
  ∧ handleRemoveAssigned (handleSubjectClick exampleOrphan 101) 2 101
    = handleSubjectClick exampleOrphan 101.
Proof.
  assert (findSemester (semesters exampleOrphan) (selectedSemester exampleOrphan)
          = None) as Hnone by reflexivity.
  destruct (click_without_selected_semester exampleOrphan 101 Hnone)
    as (_ & _ & Hused & _ & _ & Hstuck); [reflexivity|].
  split_and!; [exact Hnone | exact Hused | apply Hstuck].
Defined.

(** ** The header badges and the click *)

(** X11. The header shows the number of displayed ids out of 8 and the
    subjects of the year of the current semester out of 14.  With the
    selected semester in the plan, a click on an unused subject ends in
    the semester alert exactly when the first badge has reached 8, in the
    year alert exactly when it has not but the second has reached 14, and
    otherwise assigns the subject; when the semester ids are pairwise
    distinct the assignment raises each of the two badges by exactly
    one. *)
Theorem click_follows_badges (st : PlanState) (x : Z) (c : Semester) :
  findSemester (semesters st) (selectedSemester st) = Some c →
  isSubjectUsed st x = false →
  let groupBadge := length (currentSemesterSubjectIds st) in
  let yearBadge := getYearSubjectCount st (sem_year c) in
  (subjectClickOutcome st x = AlertSemesterMax (Some (sem_term c))
   ↔ (8 ≤ groupBadge)%nat)
  ∧ (subjectClickOutcome st x = AlertYearMax (Some (sem_year c))
     ↔ (groupBadge < 8)%nat ∧ (14 ≤ yearBadge)%nat)
  ∧ ((groupBadge < 8)%nat → (yearBadge < 14)%nat →
     handleSubjectClick st x = forceAssign st x
     ∧ (NoDup (sem_id <$> semesters st) →
        length (currentSemesterSubjectIds (handleSubjectClick st x)) = S groupBadge
        ∧ getYearSubjectCount (handleSubjectClick st x) (sem_year c) = S yearBadge)).
Proof.
  intros Hc Hun groupBadge yearBadge.
  assert (groupBadge
          = countSubjects (semesterSubjects st)
              (groupSemsOf (semesters st) (groupKeyOf c))) as Hbadge.
  { unfold groupBadge. rewrite length_currentSemesterSubjectIds.
    unfold selectedGroupSemesters, selectedGroupKey.
    by rewrite (findSemester_currentSemester _ _ Hc). }
  assert (subjectClickOutcome st x
          = if decide (8 ≤ groupBadge)%nat then AlertSemesterMax (Some (sem_term c))
            else if decide (14 ≤ yearBadge)%nat then AlertYearMax (Some (sem_year c))
            else Assign (selectedSemester st)
                        (assignedTo (semesterSubjects st) (selectedSemester st)))
    as Hout.
  { unfold subjectClickOutcome, MAX_PER_SEMESTER, MAX_PER_YEAR.
    rewrite Hun, Hc, Hbadge. simpl. done. }
  split_and!.
  - rewrite Hout. repeat case_decide; split; (done || lia).
  - rewrite Hout. repeat case_decide; split; try done; try lia.
  - intros Hg Hy.
    assert (handleSubjectClick st x = forceAssign st x) as Hclick.
    { unfold handleSubjectClick. rewrite Hout.
      rewrite !decide_False by lia. done. }
    split; [done|]. intros Hnd. rewrite Hclick.
    pose proof (findSemester_Some _ _ _ Hc) as [Hin Hid].
    assert (findSemester (semesters (forceAssign st x))
                         (selectedSemester (forceAssign st x)) = Some c) as Hc' by done.
    split.
    + rewrite length_currentSemesterSubjectIds.
      unfold selectedGroupSemesters, selectedGroupKey.
      rewrite (findSemester_currentSemester _ _ Hc').
      rewrite countSubjects_sum. unfold forceAssign. simpl.
      rewrite <- Hid. unfold groupSemsOf.
      rewrite (sum_insert_NoDup _ _ _ (λ s, groupKeyOf s = groupKeyOf c)) by done.
      rewrite decide_True by done. rewrite Hbadge, countSubjects_sum.
      unfold groupSemsOf. lia.
    + unfold getYearSubjectCount. rewrite countSubjects_sum.
      unfold forceAssign. simpl. rewrite <- Hid.
      rewrite (sum_insert_NoDup _ _ _ (λ s, sem_year s = sem_year c)) by done.
      rewrite decide_True by done. unfold yearBadge, getYearSubjectCount.
      rewrite countSubjects_sum. lia.
Qed.

Lemma click_follows_badges_witness :
  subjectClickOutcome exampleFull 20 = AlertYearMax (Some "2025")
  ∧ length (currentSemesterSubjectIds (handleSubjectClick examplePlan 11)) = 2%nat.
Proof.
  split.
  - destruct (click_follows_badges exampleFull 20 (mkSemester 1 "2025" 2 1 "" ""))
      as (_ & Hyear & _); [reflexivity | reflexivity |].
    apply Hyear. vm_compute. lia.
  - destruct (click_follows_badges examplePlan 11 (mkSemester 0 "2025" 1 1 "" ""))
      as (_ & _ & Hassign); [reflexivity | reflexivity |].
    destruct Hassign as [_ Hone]; [vm_compute; lia | vm_compute; lia |].
    destruct Hone as [Hlen _]; [apply (bool_decide_unpack _); reflexivity|].
    exact Hlen.
Defined.

(** ** The delete button of a group tab *)

Lemma foldl_delete_in {V} (l : list Semester) (m : gmap Z V) (s : Semester) :
  s ∈ l → foldl (λ next s, delete (sem_id s) next) m l !! sem_id s = None.
Proof.
  intros Hs. destruct (foldl _ m l !! sem_id s) as [v|] eqn:E; [|done].
  exfalso. revert m E. induction l as [|y l IH]; intros m E;
    [by apply elem_of_nil in Hs|].
  simpl in E. apply elem_of_cons in Hs as [->|Hs].
  - apply foldl_delete_lookup in E. by rewrite lookup_delete_eq in E.
  - by apply (IH Hs _ E).
Qed.

Lemma foldl_delete_notin {V} (l : list Semester) (m : gmap Z V) (k : Z) :
  k ∉ sem_id <$> l → foldl (λ next s, delete (sem_id s) next) m l !! k = m !! k.
Proof.
  revert m. induction l as [|y l IH]; intros m Hk; [done|].
  rewrite fmap_cons in Hk. apply not_elem_of_cons in Hk as [Hy Hk].
  simpl. rewrite IH by done. by apply lookup_delete_ne.
Qed.

Lemma foldl_reselect (st : PlanState) (l : list Semester) (a : Z) :
  foldl (λ selected s,
           if bool_decide (selectedSemester st = sem_id s)
           then selectedSemester (handleDeleteSemester st (sem_id s))
           else selected) a l
  = if decide (selectedSemester st ∈ sem_id <$> l)
    then selectedSemester (handleDeleteSemester st (selectedSemester st))
    else a.
Proof.
  revert a. induction l as [|s l IH]; intros a.
  - simpl. destruct (decide (selectedSemester st ∈ [])) as [H|_]; [|done].
    by apply elem_of_nil in H.
  - csimpl. case_bool_decide as Hs; rewrite IH;
      destruct (decide (selectedSemester st ∈ sem_id <$> l)) as [Hin|Hin];
      destruct (decide (selectedSemester st ∈ sem_id s :: (sem_id <$> l)))
        as [Hin'|Hin'];
      try done; try (by rewrite <- Hs);
      exfalso; rewrite elem_of_cons in Hin'; tauto.
Qed.

Lemma sem_id_NoDup_inj (sems : list Semester) (s1 s2 : Semester) :
  NoDup (sem_id <$> sems) → s1 ∈ sems → s2 ∈ sems → sem_id s1 = sem_id s2 → s1 = s2.
Proof.
  intros Hnd H1 H2 E.
  pose proof (findSemester_NoDup _ _ Hnd H1) as F1.
  pose proof (findSemester_NoDup _ _ Hnd H2) as F2.
  rewrite E in F1. congruence.
Qed.

(** X12. The delete button of a group tab, for a group that is not the
    whole plan.  The entries of every cohort of the group leave the
    assignment map and the date map, and no other entry changes.  Of the
    semester list only the semesters with the id of the last cohort of the
    group are taken out: with pairwise distinct ids every other cohort of
    the group is still in the list.  A selection outside the group stays;
    a selection on a cohort of the group moves to the first other cohort of
    the group, and when the group has exactly two cohorts and the first is
    selected, the new selection is the one semester that was taken out, so
    it names no semester of the plan. *)
Theorem handleDeleteGroup_spec (st : PlanState) (groupKey : string) :
  let group := groupSemsOf (semesters st) groupKey in
  let st' := handleDeleteGroup st groupKey in
  (length group < length (semesters st))%nat →
  (∀ s, s ∈ group → semesterSubjects st' !! sem_id s = None
                    ∧ semesterDates st' !! sem_id s = None)
  ∧ (∀ k, k ∉ sem_id <$> group →
          semesterSubjects st' !! k = semesterSubjects st !! k
          ∧ semesterDates st' !! k = semesterDates st !! k)
  ∧ (∀ l, last group = Some l →
          semesters st' = filter (λ s, sem_id s ≠ sem_id l) (semesters st))
  ∧ (NoDup (sem_id <$> semesters st) →
     ∀ s, s ∈ group → last group ≠ Some s → s ∈ semesters st')
  ∧ subjects st' = subjects st
  ∧ (selectedSemester st ∉ sem_id <$> group →
     selectedSemester st' = selectedSemester st)
  ∧ (NoDup (sem_id <$> semesters st) →
     ∀ s, s ∈ group → sem_id s = selectedSemester st →
          match filter (λ o, sem_id o ≠ sem_id s) group with
          | other :: _ => selectedSemester st' = sem_id other
          | [] => selectedSemester st' = lastIdOrZero (semesters st')
          end)
  ∧ (NoDup (sem_id <$> semesters st) →
     ∀ a b, group = [a; b] → selectedSemester st = sem_id a →
            selectedSemester st' = sem_id b
            ∧ findSemester (semesters st') (selectedSemester st') = None).
Proof.
  intros group st' Hlen.
  assert (st' = mkPlanState
            (subjects st)
            (foldl (λ _ s, semesters (handleDeleteSemester st (sem_id s)))
                   (semesters st) group)
            (foldl (λ next s, delete (sem_id s) next) (semesterSubjects st) group)
            (foldl (λ next s, delete (sem_id s) next) (semesterDates st) group)
            (foldl (λ selected s,
                      if bool_decide (selectedSemester st = sem_id s)
                      then selectedSemester (handleDeleteSemester st (sem_id s))
                      else selected)
                   (selectedSemester st) group)) as Est.
  { unfold st', handleDeleteGroup. fold group. by rewrite decide_False by lia. }
  assert (∀ s, s ∈ group → s ∈ semesters st ∧ groupKeyOf s = groupKey) as Hgroup.
  { intros s Hs. apply list_elem_of_filter in Hs as [? ?]. done. }
  assert (∀ s, s ∈ group → (1 < length (semesters st))%nat) as Hlong.
  { intros s Hs. destruct group; [by apply elem_of_nil in Hs|]. simpl in Hlen. lia. }
  assert (∀ l, last group = Some l →
               semesters st' = filter (λ s, sem_id s ≠ sem_id l) (semesters st))
    as Hsems.
  { intros l Hl. rewrite Est. simpl. rewrite foldl_last, Hl. simpl.
    unfold handleDeleteSemester. rewrite decide_False; [done|].
    apply last_Some in Hl as [pre Hpre].
    assert (l ∈ group) as Hin by (rewrite Hpre; apply elem_of_app; right;
                                  by apply elem_of_cons; left).
    apply Hlong in Hin. lia. }
  assert (NoDup (sem_id <$> semesters st) →
          ∀ s, s ∈ group → sem_id s = selectedSemester st →
               selectedSemester st'
               = match filter (λ o, sem_id o ≠ sem_id s) group with
                 | other :: _ => sem_id other
                 | [] => lastIdOrZero (filter (λ o, sem_id o ≠ sem_id s) (semesters st))
                 end) as Hsel.
  { intros Hnd s Hs Hid. destruct (Hgroup s Hs) as [Hin Hkey].
    rewrite Est. simpl. rewrite foldl_reselect.
    rewrite decide_True by (rewrite <- Hid; apply list_elem_of_fmap; eauto).
    rewrite <- Hid. unfold handleDeleteSemester.
    rewrite decide_False by (apply Hlong in Hs; lia).
    simpl. rewrite bool_decide_eq_true_2 by done.
    rewrite (findSemester_NoDup _ _ Hnd Hin).
    unfold groupSemsOf at 1. rewrite Hkey.
    assert (filter (λ s0, groupKeyOf s0 = groupKey)
                   (filter (λ s0, sem_id s0 ≠ sem_id s) (semesters st))
            = filter (λ o, sem_id o ≠ sem_id s) group) as ->; [|done].
    unfold group, groupSemsOf. rewrite !list_filter_filter.
    apply filter_ext_elem_of. intros; tauto. }
  split_and!.
  - intros s Hs. rewrite Est. simpl. split; by apply foldl_delete_in.
  - intros k Hk. rewrite Est. simpl. split; by apply foldl_delete_notin.
  - done.
  - intros Hnd s Hs Hlast.
    destruct (last group) as [l|] eqn:El.
    + rewrite (Hsems l eq_refl). apply list_elem_of_filter.
      destruct (Hgroup s Hs) as [Hin _]. split; [|done].
      intros E. apply Hlast. f_equal.
      apply last_Some in El as [pre Epre].
      assert (l ∈ group) as Hl by (rewrite Epre; apply elem_of_app; right;
                                   by apply elem_of_cons; left).
      symmetry. apply (sem_id_NoDup_inj (semesters st)); try done.
      by apply Hgroup.
    + apply last_None in El. rewrite El in Hs. by apply elem_of_nil in Hs.
  - by rewrite Est.
  - intros Hout. rewrite Est. simpl. rewrite foldl_reselect.
    by rewrite decide_False.
  - intros Hnd s Hs Hid. rewrite (Hsel Hnd s Hs Hid).
    destruct (filter (λ o, sem_id o ≠ sem_id s) group) as [|o rest] eqn:Ef; [|done].
    f_equal. symmetry. apply Hsems.
    assert (∀ o, o ∈ group → o = s) as Hall.
    { intros o Ho. destruct (decide (sem_id o = sem_id s)) as [E|E].
      - apply (sem_id_NoDup_inj (semesters st)); try done; by apply Hgroup.
      - assert (o ∈ filter (λ o, sem_id o ≠ sem_id s) group) as H
          by (by apply list_elem_of_filter).
        rewrite Ef in H. by apply elem_of_nil in H. }
    destruct (last group) as [l|] eqn:El.
    + f_equal. apply Hall. apply last_Some in El as [pre ->].
      apply elem_of_app; right. by apply elem_of_cons; left.
    + apply last_None in El. rewrite El in Hs. by apply elem_of_nil in Hs.
  - intros Hnd a b Eg Ha.
    assert (a ∈ group ∧ b ∈ group) as [Hain Hbin].
    { rewrite Eg. split; [by apply elem_of_cons; left|].
      apply elem_of_cons; right. by apply elem_of_cons; left. }
    assert (sem_id a ≠ sem_id b) as Hab.
    { intros E. assert (a = b) as Eab.
      { apply (sem_id_NoDup_inj (semesters st)); try done; by apply Hgroup. }
      subst b. assert (NoDup group) as Hg.
      { unfold group, groupSemsOf. apply NoDup_filter.
        by apply (NoDup_fmap_1 sem_id). }
      rewrite Eg in Hg. apply NoDup_cons in Hg as [Hg _].
      apply Hg. by apply elem_of_cons; left. }
    assert (selectedSemester st' = sem_id b) as Hb.
    { rewrite (Hsel Hnd a Hain (eq_sym Ha)), Eg.
      rewrite !filter_cons, filter_nil.
      rewrite decide_False by (intros H; by apply H).
      rewrite decide_True by done. done. }
    split; [done|]. rewrite Hb, (Hsems b) by (by rewrite Eg).
    destruct (findSemester _ (sem_id b)) as [o|] eqn:Eo; [|done].
    apply findSemester_Some in Eo as [Ho Hid].
    by apply list_elem_of_filter in Ho as [Hne _].
Qed.

Lemma handleDeleteGroup_spec_witness :
  semesterSubjects exampleOrphan !! 0 = None
  ∧ mkSemester 0 "2025" 1 1 "" "" ∈ semesters exampleOrphan
  ∧ selectedSemester exampleOrphan = 2
  ∧ findSemester (semesters exampleOrphan) (selectedSemester exampleOrphan) = None.
Proof.
  assert (NoDup (sem_id <$> semesters exampleCohorts)) as Hnd.
  { apply (bool_decide_unpack _). reflexivity. }
  destruct (handleDeleteGroup_spec exampleCohorts "2025-1")
    as (Hgone & _ & _ & Hstay & _ & _ & _ & Horphan); [vm_compute; lia|].
  destruct (Horphan Hnd (mkSemester 0 "2025" 1 1 "" "") (mkSemester 2 "2025" 1 2 "" ""))
    as [Hsel Hnone]; [reflexivity | reflexivity |].
  split_and!.
  - apply (Hgone (mkSemester 0 "2025" 1 1 "" "")). vm_compute.
    by apply elem_of_cons; left.
  - apply (Hstay Hnd).
    + vm_compute. by apply elem_of_cons; left.
    + vm_compute. discriminate.
  - exact Hsel.
  - exact Hnone.
Defined.

(** ** Adding a semester, adding a cohort *)

(** With non-negative terms, the semesters whose key is that of [c] are
    those of the year and term of [c]. *)
Lemma groupSemsOf_year_term (sems : list Semester) (c : Semester) :
  0 ≤ sem_term c → Forall (λ s, 0 ≤ sem_term s) sems →
  groupSemsOf sems (groupKeyOf c)
  = filter (λ s, sem_year s = sem_year c ∧ sem_term s = sem_term c) sems.
Proof.
  intros Hc Hall. unfold groupSemsOf. apply filter_ext_elem_of. intros s Hs.
  rewrite Forall_forall in Hall. split.
  - intros E. apply groupKeyOf_inj; [by apply Hall | done | done].
  - intros [? ?]. by apply groupKeyOf_same.
Qed.

Lemma snoc_increasing_found (sems : list Semester) (new : Semester) :
  increasingIds sems → sem_id new = nextSemesterId sems →
  increasingIds (sems ++ [new])
  ∧ (sem_id new ∉ sem_id <$> sems)
  ∧ findSemester (sems ++ [new]) (sem_id new) = Some new.
Proof.
  intros Hinc Hid.
  assert (∀ x, x ∈ sems → sem_id x < sem_id new) as Hlt.
  { intros x Hx. rewrite Hid. by apply increasingIds_below_next. }
  pose proof (increasingIds_snoc _ _ Hinc Hlt) as Hinc'.
  split_and!; [done | |].
  - intros (x & E & Hx)%list_elem_of_fmap. apply Hlt in Hx. lia.
  - apply findSemester_NoDup; [by apply increasingIds_NoDup|].
    apply elem_of_app; right. by apply elem_of_cons; left.
Qed.

Lemma findSemester_app_l (sems more : list Semester) (id : Z) (c : Semester) :
  findSemester sems id = Some c → findSemester (sems ++ more) id = Some c.
Proof.
  unfold findSemester. induction sems as [|s sems IH]; [done|]. simpl.
  by case_bool_decide.
Qed.

(** X13. Confirming the add-semester popup, in a plan whose ids grow along
    the list and whose terms are not negative.  One semester of the chosen
    year and term is appended; its id is the id of no semester of the
    plan, so the ids stay pairwise distinct; it becomes the current
    semester; the displayed group is the cohorts the plan had for that
    year and term followed by the new one, and the cohort number of the
    new semester is the size of that group; it gets the default dates. *)
Theorem handleConfirmAddSemester_spec (st : PlanState) (formYear : string)
    (formTerm : Z) :
  increasingIds (semesters st) →
  Forall (λ s, 0 ≤ sem_term s) (semesters st) →
  0 ≤ formTerm →
  let st' := handleConfirmAddSemester st formYear formTerm in
  ∃ new,
    semesters st' = semesters st ++ [new]
    ∧ sem_year new = formYear ∧ sem_term new = formTerm
    ∧ (sem_id new ∉ sem_id <$> semesters st)
    ∧ NoDup (sem_id <$> semesters st')
    ∧ currentSemester st' = Some new
    ∧ selectedGroupSemesters st'
      = filter (λ s, sem_year s = formYear ∧ sem_term s = formTerm) (semesters st)
        ++ [new]
    ∧ sem_class_number new = Z.of_nat (length (selectedGroupSemesters st'))
    ∧ semesterDates st' !! sem_id new = Some (getDefaultDates formYear formTerm)
    ∧ semesterSubjects st' = semesterSubjects st
    ∧ subjects st' = subjects st.
Proof.
  intros Hinc Hterms Ht st'.
  set (sameGroup := filter (λ s, sem_year s = formYear ∧ sem_term s = formTerm)
                           (semesters st)).
  set (new := mkSemester (nextSemesterId (semesters st)) formYear formTerm
                         (Z.of_nat (length sameGroup) + 1) "" "").
  exists new.
  destruct (snoc_increasing_found (semesters st) new Hinc eq_refl)
    as (Hinc' & Hfresh & Hfound).
  assert (currentSemester st' = Some new) as Hcur.
  { apply findSemester_currentSemester. exact Hfound. }
  assert (selectedGroupSemesters st' = sameGroup ++ [new]) as Hgroup.
  { unfold selectedGroupSemesters, selectedGroupKey. rewrite Hcur.
    change (semesters st') with (semesters st ++ [new]).
    rewrite groupSemsOf_year_term; [|done|].
    - rewrite filter_app, filter_cons, filter_nil.
      by rewrite decide_True by done.
    - apply Forall_app. split; [done|]. by apply Forall_singleton. }
  split_and!; try done.
  - by apply increasingIds_NoDup.
  - rewrite Hgroup, length_app. simpl. lia.
  - unfold st', handleConfirmAddSemester. simpl. by rewrite lookup_insert_eq.
Qed.

Lemma handleConfirmAddSemester_spec_witness :
  ∃ new, semesters (handleConfirmAddSemester exampleCohorts "2025" 1)
         = semesters exampleCohorts ++ [new]
         ∧ sem_class_number new = 3
         ∧ currentSemester (handleConfirmAddSemester exampleCohorts "2025" 1)
           = Some new.
Proof.
  destruct (handleConfirmAddSemester_spec exampleCohorts "2025" 1)
    as (new & Hsems & _ & _ & _ & _ & Hcur & Hgroup & Hnum & _).
  - unfold increasingIds. simpl. repeat constructor; lia.
  - repeat constructor; simpl; lia.
  - lia.
  - exists new. split_and!; [done | | done].
    rewrite Hnum, Hgroup, length_app. reflexivity.
Defined.

(** X14. The add-cohort button, with the selected semester in such a
    plan.  The handler returns a state; one semester is appended, with a
    fresh id and the year and term of the current semester; the selection
    and with it the current semester stay; the displayed group grows by
    the new cohort at its end, and the cohort number of the new semester
    is the size of the group after the addition.  The list shown for the
    new cohort is whatever the assignment map holds under its id. *)
Theorem handleAddKisu_spec (st : PlanState) (c : Semester) :
  increasingIds (semesters st) →
  Forall (λ s, 0 ≤ sem_term s) (semesters st) →
  findSemester (semesters st) (selectedSemester st) = Some c →
  ∃ st' new,
    handleAddKisu st = Some st'
    ∧ semesters st' = semesters st ++ [new]
    ∧ sem_year new = sem_year c ∧ sem_term new = sem_term c
    ∧ (sem_id new ∉ sem_id <$> semesters st)
    ∧ NoDup (sem_id <$> semesters st')
    ∧ selectedSemester st' = selectedSemester st
    ∧ currentSemester st' = Some c
    ∧ selectedGroupSemesters st' = selectedGroupSemesters st ++ [new]
    ∧ sem_class_number new = Z.of_nat (length (selectedGroupSemesters st'))
    ∧ currentSemesterSubjectIds st'
      = currentSemesterSubjectIds st
        ++ assignedTo (semesterSubjects st) (sem_id new)
    ∧ semesterDates st' !! sem_id new
      = Some (getDefaultDates (sem_year c) (sem_term c))
    ∧ semesterSubjects st' = semesterSubjects st.
Proof.
  intros Hinc Hterms Hc.
  pose proof (findSemester_currentSemester _ _ Hc) as Hcur.
  pose proof (findSemester_Some _ _ _ Hc) as [Hin Hid].
  assert (0 ≤ sem_term c) as Htc by (rewrite Forall_forall in Hterms; by apply Hterms).
  set (sameGroup := filter (λ s, sem_year s = sem_year c ∧ sem_term s = sem_term c)
                           (semesters st)).
  set (new := mkSemester (nextSemesterId (semesters st)) (sem_year c) (sem_term c)
                         (Z.of_nat (length sameGroup) + 1) "" "").
  destruct (snoc_increasing_found (semesters st) new Hinc eq_refl)
    as (Hinc' & Hfresh & _).
  unfold handleAddKisu. rewrite Hcur. eexists _, new. split; [reflexivity|].
  set (st' := mkPlanState _ _ _ _ _).
  assert (currentSemester st' = Some c) as Hcur'.
  { apply findSemester_currentSemester. by apply findSemester_app_l. }
  assert (selectedGroupSemesters st = sameGroup) as Hold.
  { unfold selectedGroupSemesters, selectedGroupKey. rewrite Hcur.
    by apply groupSemsOf_year_term. }
  assert (selectedGroupSemesters st' = selectedGroupSemesters st ++ [new]) as Hgroup.
  { rewrite Hold. unfold selectedGroupSemesters, selectedGroupKey. rewrite Hcur'.
    change (semesters st') with (semesters st ++ [new]).
    rewrite groupSemsOf_year_term; [|done|].
    - rewrite filter_app, filter_cons, filter_nil.
      by rewrite decide_True by done.
    - apply Forall_app. split; [done|]. by apply Forall_singleton. }
  split_and!; try done.
  - by apply increasingIds_NoDup.
  - rewrite Hgroup, Hold, length_app. simpl. lia.
  - unfold currentSemesterSubjectIds. rewrite Hgroup, fmap_app, join_app.
    simpl. by rewrite app_nil_r.
  - unfold st'. simpl. by rewrite lookup_insert_eq.
Qed.

Lemma handleAddKisu_spec_witness :
  ∃ st' new, handleAddKisu exampleCohorts = Some st'
             ∧ semesters st' = semesters exampleCohorts ++ [new]
             ∧ sem_class_number new = 3
             ∧ selectedSemester st' = 0.
Proof.
  destruct (handleAddKisu_spec exampleCohorts (mkSemester 0 "2025" 1 1 "" ""))
    as (st' & new & Hsome & Hsems & _ & _ & _ & _ & Hsel & _ & Hgroup & Hnum & _).
  - unfold increasingIds. simpl. repeat constructor; lia.
  - repeat constructor; simpl; lia.
  - reflexivity.
  - exists st', new. split_and!; [done | done | | done].
    rewrite Hnum, Hgroup, length_app. reflexivity.
Defined.

(** ** Decimal strings read back by [parseInt] *)

Lemma digitValue_pretty_N_char (d : N) :
  (d < 10)%N → digitValue 10 (pretty_N_char d) = Some d.
Proof.
  intros Hd.
  assert (d = 0 ∨ d = 1 ∨ d = 2 ∨ d = 3 ∨ d = 4 ∨ d = 5 ∨ d = 6 ∨ d = 7
          ∨ d = 8 ∨ d = 9)%N as H by lia.
  repeat (destruct H as [->|H]; [reflexivity|]). by subst.
Qed.

Lemma parseDigits_pretty_N_go (x : N) (s : string) :
  (0 < x)%N →
  parseDigits 10 (pretty_N_go x s) None = parseDigits 10 s (Some x).
Proof.
  revert s. induction (N.lt_wf_0 x) as [x _ IH]. intros s Hx.
  rewrite pretty_N_go_step by done.
  assert (x `mod` 10 < 10)%N as Hmod by (apply N.mod_lt; lia).
  pose proof (N.div_mod x 10 ltac:(lia)) as Hdiv.
  destruct (decide (x `div` 10 = 0)%N) as [E|E].
  - rewrite E, pretty_N_go_0. simpl.
    rewrite digitValue_pretty_N_char by done. do 2 f_equal. lia.
  - rewrite IH; [|apply N.div_lt; lia | lia]. simpl.
    rewrite digitValue_pretty_N_char by done. simpl. do 2 f_equal. lia.
Qed.

(** The decimal rendering of a positive number starts with a digit from 1
    to 9. *)
Lemma pretty_N_go_head (x : N) (s : string) :
  (0 < x)%N →
  ∃ d r, (1 ≤ d ≤ 9)%N ∧ pretty_N_go x s = String (pretty_N_char d) r.
Proof.
  revert s. induction (N.lt_wf_0 x) as [x _ IH]. intros s Hx.
  rewrite pretty_N_go_step by done.
  destruct (decide (x `div` 10 = 0)%N) as [E|E].
  - rewrite E, pretty_N_go_0. exists (x `mod` 10)%N, s. split; [|done].
    pose proof (N.div_mod x 10 ltac:(lia)).
    assert (x `mod` 10 < 10)%N by (apply N.mod_lt; lia). lia.
  - assert (x `div` 10 < x)%N as Hlt by (apply N.div_lt; lia).
    assert (0 < x `div` 10)%N as Hpos by (by apply N.neq_0_lt_0).
    exact (IH _ Hlt _ Hpos).
Qed.

Lemma parseInt_leading_digit (d : N) (r : string) :
  (1 ≤ d ≤ 9)%N →
  parseInt (String (pretty_N_char d) r)
  = (λ n, Z.of_N n) <$> parseDigits 10 (String (pretty_N_char d) r) None
  ∧ parseInt (String "-" (String (pretty_N_char d) r))
    = (λ n, - Z.of_N n) <$> parseDigits 10 (String (pretty_N_char d) r) None.
Proof.
  intros Hd.
  assert (d = 1 ∨ d = 2 ∨ d = 3 ∨ d = 4 ∨ d = 5 ∨ d = 6 ∨ d = 7
          ∨ d = 8 ∨ d = 9)%N as H by lia.
  assert (∀ c, isDigit c = true → trimStart (String "-" (String c r))
                                  = String "-" (String c r)) as Hdash.
  { intros c Hc. destruct c as [[] [] [] [] [] [] [] []]; try discriminate;
      by destruct r as [|? ?]. }
  unfold parseInt.
  repeat (destruct H as [->|H];
          [split; [rewrite trimStart_digit by reflexivity
                  | rewrite Hdash by reflexivity];
           unfold pretty_N_char; cbv beta iota zeta;
           by destruct (parseDigits 10 _ None)|]).
  subst. split; [rewrite trimStart_digit by reflexivity
                | rewrite Hdash by reflexivity];
    unfold pretty_N_char; cbv beta iota zeta;
    by destruct (parseDigits 10 _ None).
Qed.

Lemma pretty_Z_digits (p : positive) :
  pretty (Z.pos p) = pretty_N_go (N.pos p) ""
  ∧ pretty (Z.neg p) = "-" +:+ pretty_N_go (N.pos p) "".
Proof.
  unfold pretty, pretty_Z, pretty, pretty_positive, pretty, pretty_N.
  by destruct (decide (N.pos p = 0)%N).
Qed.

(** In the model, [parseInt] reads the decimal rendering of an integer
    back as that integer. *)
Lemma parseInt_pretty (y : Z) : parseInt (pretty y) = Some y.
Proof.
  destruct y as [|p|p]; [reflexivity| |].
  - destruct (pretty_Z_digits p) as [-> _].
    destruct (pretty_N_go_head (N.pos p) "") as (d & r & Hd & E); [lia|].
    pose proof (parseDigits_pretty_N_go (N.pos p) "" ltac:(lia)) as Hdigits.
    rewrite E in *. destruct (parseInt_leading_digit d r Hd) as [-> _].
    by rewrite Hdigits.
  - destruct (pretty_Z_digits p) as [_ ->].
    destruct (pretty_N_go_head (N.pos p) "") as (d & r & Hd & E); [lia|].
    pose proof (parseDigits_pretty_N_go (N.pos p) "" ltac:(lia)) as Hdigits.
    rewrite E in *. rewrite append_cons, append_nil_l.
    destruct (parseInt_leading_digit d r Hd) as [_ ->].
    by rewrite Hdigits.
Qed.

(** X15. For an integer [y] below 2^53 in absolute value, where the
    numbers of the code are exact, [parseInt] reads the decimal rendering
    of [y] back as [y], and so the default dates of a semester whose year
    is the decimal string of [y] run from 15 November of [y - 1] to 5 May
    of [y] for term 1 and from 15 May to 5 November of [y] for any other
    term.  A year string with no leading number gives dates that begin
    with NaN. *)
Theorem getDefaultDates_decimal (y term : Z) :
  Z.abs y < 2 ^ 53 →
  parseInt (pretty y) = Some y
  ∧ getDefaultDates (pretty y) term
    = (if bool_decide (term = 1)
       then mkSemesterDates (pretty (y - 1) +:+ "-11-15") (pretty y +:+ "-05-05")
       else mkSemesterDates (pretty y +:+ "-05-15") (pretty y +:+ "-11-05"))
  ∧ (∀ year, parseInt year = None →
             getDefaultDates year term
             = if bool_decide (term = 1)
               then mkSemesterDates "NaN-11-15" "NaN-05-05"
               else mkSemesterDates "NaN-05-15" "NaN-11-05").
Proof.
  intros _. pose proof (parseInt_pretty y) as Hparse.
  split_and!; [done | |].
  - unfold getDefaultDates. rewrite Hparse. simpl. by case_bool_decide.
  - intros year Hnone. unfold getDefaultDates. rewrite Hnone. simpl.
    by case_bool_decide.
Qed.

(** ** The selection after a load *)

(** The loop keeps the list it starts from and appends, under ids from
    [nextId] on, cohorts of [csItems] that the list did not hold. *)
Lemma appendLoop_appends (csItems final : list Semester) (nextId : Z) :
  ∃ added,
    (appendLoop csItems (final, nextId)).1 = final ++ added
    ∧ ∀ s, s ∈ added →
           nextId ≤ sem_id s
           ∧ ∃ cs, cs ∈ csItems ∧ s = withId cs (sem_id s)
                   ∧ represented final cs = false.
Proof.
  unfold appendLoop. revert final nextId.
  induction csItems as [|c csItems IH]; intros final nextId.
  - exists []. split; [by rewrite app_nil_r|]. by intros s ?%elem_of_nil.
  - simpl. destruct (represented final c) eqn:Hc.
    + destruct (IH final nextId) as (added & E & Hadded).
      exists added. split; [done|]. intros s Hs.
      destruct (Hadded s Hs) as (Hid & cs & Hcs & Hw & Hr).
      split; [done|]. exists cs. split; [by apply elem_of_cons; right | done].
    + destruct (IH (final ++ [withId c nextId]) (nextId + 1)) as (added & E & Hadded).
      exists (withId c nextId :: added). split; [by rewrite E, <- app_assoc|].
      intros s [->|Hs]%elem_of_cons.
      * simpl. split; [lia|]. exists c. split; [by apply elem_of_cons; left | done].
      * destruct (Hadded s Hs) as (Hid & cs & Hcs & Hw & Hr).
        split; [lia|]. exists cs. split_and!; [by apply elem_of_cons; right | done |].
        unfold represented in *. rewrite existsb_app in Hr.
        by apply orb_false_iff in Hr as [? _].
Qed.

(** X16. The page starts with selection 0, which the load never changes.
    Without a stored plan the first semester of the loaded list has id 0,
    so the selection names it.  With a stored plan the stored semesters
    are kept, in order, at the head of the list, and what class_start adds
    follows under ids above the largest stored id, each added semester
    being a parsed cohort the stored list did not hold; so when every
    stored id is positive the selection names no semester of the loaded
    plan, and the page shows the first semester as current. *)
Theorem load_selected_semester (loadedSubjects : list Subject)
    (classStart : option string) (plan : option SavedPlan) :
  let st := loadPlanState loadedSubjects classStart plan in
  selectedSemester st = 0
  ∧ (plan = None →
     ∃ s, head (semesters st) = Some s ∧ sem_id s = 0
          ∧ findSemester (semesters st) (selectedSemester st) = Some s)
  ∧ (is_Some plan →
     ∃ added,
       semesters st = savedSemesters plan ++ added
       ∧ (∀ s, s ∈ added →
               maxId (savedSemesters plan) < sem_id s
               ∧ ∃ cs, cs ∈ parseClassStart classStart
                       ∧ s = withId cs (sem_id s)
                       ∧ represented (savedSemesters plan) cs = false)
       ∧ ((∀ s, s ∈ savedSemesters plan → 0 < sem_id s) →
          findSemester (semesters st) (selectedSemester st) = None
          ∧ currentSemester st = head (savedSemesters plan))).
Proof.
  intros st. split_and!; [done | |].
  - intros ->. unfold st, loadPlanState, loadSemesters. simpl.
    unfold mergeClassStart.
    destruct (parseClassStart classStart) as [|c cs] eqn:Ecs.
    + by exists (mkSemester 0 "2025" 1 1 "" "").
    + destruct (negb _ && negb _).
      * by exists (withId c 0).
      * unfold appendMissing.
        destruct (appendLoop_appends (c :: cs) INITIAL_SEMESTERS
                    (maxId INITIAL_SEMESTERS + 1)) as (added & -> & _).
        by exists (mkSemester 0 "2025" 1 1 "" "").
  - intros [p ->].
    assert (∃ added,
              semesters st = savedSemesters (Some p) ++ added
              ∧ ∀ s, s ∈ added →
                     maxId (savedSemesters (Some p)) < sem_id s
                     ∧ ∃ cs, cs ∈ parseClassStart classStart
                             ∧ s = withId cs (sem_id s)
                             ∧ represented (savedSemesters (Some p)) cs = false)
      as (added & E & Hadded).
    { unfold st, loadPlanState, loadSemesters. cbn [semesters].
      rewrite (bool_decide_eq_true_2 (is_Some (Some p))) by (by eexists).
      unfold mergeClassStart.
      destruct (parseClassStart classStart) as [|c cs] eqn:Ecs.
      - exists []. split; [by rewrite app_nil_r|]. by intros s ?%elem_of_nil.
      - rewrite andb_false_r. unfold appendMissing.
        destruct (appendLoop_appends (c :: cs) (savedSemesters (Some p))
                    (maxId (savedSemesters (Some p)) + 1)) as (added & -> & Hadded).
        exists added. split; [done|]. intros s Hs.
        destruct (Hadded s Hs) as (Hid & Hcs). split; [lia | done]. }
    exists added. split_and!; [done | done |].
    intros Hpos.
    assert (findSemester (semesters st) (selectedSemester st) = None) as Hnone.
    { destruct (findSemester _ _) as [s|] eqn:Es; [|done].
      apply findSemester_Some in Es as [Hs Hid]. rewrite E in Hs.
      change (selectedSemester st) with 0 in Hid.
      apply elem_of_app in Hs as [Hs|Hs].
      - apply Hpos in Hs. lia.
      - destruct (Hadded s Hs) as [Hlt _].
        pose proof (savedSemesters_nonempty (Some p)) as Hne.
        destruct (savedSemesters (Some p)) as [|x l] eqn:Ex; [done|].
        assert (x ∈ x :: l) as Hx by (by apply elem_of_cons; left).
        pose proof (maxId_ge _ _ Hx). specialize (Hpos x Hx). lia. }
    split; [done|]. unfold currentSemester. rewrite Hnone, E.
    pose proof (savedSemesters_nonempty (Some p)) as Hne.
    by destruct (savedSemesters (Some p)).
Qed.

Lemma load_selected_semester_witness :
  findSemester
    (semesters (loadPlanState [] (Some "2026년 1학기 1기") None)) 0
  = Some (mkSemester 0 "2026" 1 1 "" "")
  ∧ findSemester
      (semesters (loadPlanState [] None
                    (Some (mkSavedPlan
                             (Some [mkSavedSemester 1 "2025" 2 (Some 1) "" ""])
                             None None)))) 0
    = None.
Proof.
  split.
  - destruct (load_selected_semester [] (Some "2026년 1학기 1기") None)
      as (_ & Hnew & _).
    destruct (Hnew eq_refl) as (s & Hhead & _ & Hfound).
    etrans; [exact Hfound|]. f_equal. vm_compute in Hhead. by injection Hhead.
  - destruct (load_selected_semester [] None
                (Some (mkSavedPlan
                         (Some [mkSavedSemester 1 "2025" 2 (Some 1) "" ""])
                         None None))) as (_ & _ & Hplan).
    destruct Hplan as (added & _ & _ & Horphan); [by eexists|].
    destruct Horphan as [Hnone _]; [|exact Hnone].
    intros s Hs. simpl in Hs.
    apply elem_of_cons in Hs as [->|Hs]; [simpl; lia | by apply elem_of_nil in Hs].
Defined.

(** ** Cohort tags of the student form *)

Lemma append_assoc (a b c : string) : (a +:+ b) +:+ c = a +:+ (b +:+ c).
Proof.
  induction a as [|x a IH]; [by rewrite !append_nil_l|].
  by rewrite !append_cons, IH.
Qed.

Lemma append_nil_r (a : string) : a +:+ "" = a.
Proof. induction a as [|x a IH]; [done|]. by rewrite append_cons, IH. Qed.

Lemma noComma_app (a b : string) :
  noComma (a +:+ b) = noComma a && noComma b.
Proof.
  induction a as [|x a IH]; [by rewrite append_nil_l|].
  rewrite append_cons. simpl. rewrite IH. by rewrite andb_assoc.
Qed.

Lemma split_comma_nonempty (s : string) : split_comma s ≠ [].
Proof.
  induction s as [|c s IH]; simpl; [done|].
  case_bool_decide; [done|]. by destruct (split_comma s).
Qed.

Lemma split_comma_noComma (s : string) :
  noComma s = true → split_comma s = [s].
Proof.
  induction s as [|c s IH]; simpl; [done|].
  case_bool_decide; [done|]. simpl. intros Hs. by rewrite IH.
Qed.

Lemma split_comma_app (a b : string) :
  noComma a = true → split_comma (a +:+ "," +:+ b) = a :: split_comma b.
Proof.
  induction a as [|c a IH]; [done|].
  rewrite append_cons. simpl. case_bool_decide; [done|]. simpl.
  intros Ha. by rewrite IH.
Qed.

(** The pieces of a split hold no comma. *)
Lemma split_comma_pieces (s : string) :
  Forall (λ t, noComma t = true) (split_comma s).
Proof.
  induction s as [|c s IH]; simpl; [by repeat constructor|].
  case_bool_decide as Hc; [by constructor|].
  destruct (split_comma s) as [|h t].
  { constructor; [|constructor]. simpl. by rewrite bool_decide_eq_false_2. }
  apply Forall_cons in IH as [Hh Ht]. constructor; [|done].
  simpl. rewrite Hh. by rewrite bool_decide_eq_false_2.
Qed.

Lemma split_comma_join (l : list string) :
  l ≠ [] → Forall (λ t, noComma t = true) l → split_comma (joinComma l) = l.
Proof.
  unfold joinComma. induction l as [|a l IH]; [done|]. intros _ Hall.
  apply Forall_cons in Hall as [Ha Hl]. destruct l as [|b l].
  - simpl. by apply split_comma_noComma.
  - change (String.concat "," (a :: b :: l))
      with (a +:+ "," +:+ String.concat "," (b :: l)).
    rewrite split_comma_app by done. f_equal. by apply IH.
Qed.

(** Tags are never empty and hold no comma. *)
Lemma classStartTags_wf (s : string) :
  Forall (λ t, noComma t = true ∧ t ≠ "") (classStartTags s).
Proof.
  unfold classStartTags. apply Forall_forall. intros t Ht.
  apply list_elem_of_filter in Ht as [Hne Ht]. split; [|done].
  pose proof (split_comma_pieces s) as H. rewrite Forall_forall in H. by apply H.
Qed.

(** Joining well-formed tags and splitting again gives the tags back. *)
Lemma classStartTags_join (l : list string) :
  Forall (λ t, noComma t = true ∧ t ≠ "") l → classStartTags (joinComma l) = l.
Proof.
  intros Hall. unfold classStartTags. destruct l as [|a l]; [done|].
  rewrite split_comma_join; [|done|].
  - apply filter_id_elem_of. intros t Ht. rewrite Forall_forall in Hall.
    by apply Hall.
  - eapply Forall_impl; [exact Hall|]. by intros t [? _].
Qed.

(** X17. The cohort tags of the student form.  Whatever class_start
    holds, its tags are never empty and hold no comma.  Adding the input
    (trimmed, and free of commas, as the text the input formatter
    produces is) appends it as the last tag when it is not empty and not
    yet a tag, and otherwise leaves class_start as it is; so tags that
    were pairwise distinct stay so.  The remove button of tag [i] takes
    out exactly the tag at position [i] and keeps the others in order. *)
Theorem class_start_tags (class_start classStartInput : string) (i : nat) :
  noComma (trim classStartInput) = true →
  let tags := classStartTags class_start in
  let val := trim classStartInput in
  Forall (λ t, noComma t = true ∧ t ≠ "") tags
  ∧ (val ≠ "" → val ∉ tags →
     classStartTags (addClassStartTag class_start classStartInput) = tags ++ [val])
  ∧ (val = "" ∨ val ∈ tags →
     addClassStartTag class_start classStartInput = class_start)
  ∧ (NoDup tags →
     NoDup (classStartTags (addClassStartTag class_start classStartInput)))
  ∧ classStartTags (removeClassStartTag class_start i) = delete i tags.
Proof.
  intros Hval tags val.
  pose proof (classStartTags_wf class_start) as Hwf. fold tags in Hwf.
  assert (val ≠ "" → val ∉ tags →
          classStartTags (addClassStartTag class_start classStartInput)
          = tags ++ [val]) as Hadd.
  { intros Hne Hfresh. unfold addClassStartTag. fold val tags.
    rewrite bool_decide_eq_true_2, bool_decide_eq_false_2 by done. simpl.
    apply classStartTags_join. apply Forall_app. split; [done|].
    by apply Forall_singleton. }
  assert (val = "" ∨ val ∈ tags →
          addClassStartTag class_start classStartInput = class_start) as Hkeep.
  { intros H. unfold addClassStartTag. fold val tags.
    destruct H as [->|Hin]; [done|].
    rewrite (bool_decide_eq_true_2 (val ∈ tags)) by done. simpl.
    by rewrite andb_false_r. }
  split_and!; [done | done | done | |].
  - intros Hnd. destruct (decide (val = "")) as [E|E]; [by rewrite Hkeep by auto|].
    destruct (decide (val ∈ tags)) as [Hin|Hin]; [by rewrite Hkeep by auto|].
    rewrite Hadd by done. apply NoDup_app. split_and!; [done | | apply NoDup_singleton].
    intros t Ht ->%list_elem_of_singleton. done.
  - unfold removeClassStartTag. fold tags. apply classStartTags_join.
    apply Forall_forall. intros t Ht. rewrite Forall_forall in Hwf. apply Hwf.
    clear -Ht. revert i Ht. induction tags as [|a l IH]; intros [|i] Ht;
      simpl in Ht; try done.
    + by apply elem_of_cons; right.
    + apply elem_of_cons in Ht as [->|Ht]; [by apply elem_of_cons; left|].
      apply elem_of_cons; right. by apply (IH i).
Qed.

Lemma class_start_tags_witness :
  classStartTags (addClassStartTag "2025년 1학기 1기" " 2025년 2학기 1기 ")
  = ["2025년 1학기 1기"; "2025년 2학기 1기"]
  ∧ addClassStartTag "2025년 1학기 1기" "2025년 1학기 1기" = "2025년 1학기 1기"
  ∧ classStartTags (removeClassStartTag "2025년 1학기 1기,2025년 2학기 1기" 0)
    = ["2025년 2학기 1기"].
Proof.
  split_and!.
  - destruct (class_start_tags "2025년 1학기 1기" " 2025년 2학기 1기 " 0)
      as (_ & Hadd & _); [reflexivity|].
    rewrite Hadd; [reflexivity | discriminate |].
    vm_compute. intros [E|H]%elem_of_cons; [discriminate | by apply elem_of_nil in H].
  - destruct (class_start_tags "2025년 1학기 1기" "2025년 1학기 1기" 0)
      as (_ & _ & Hkeep & _); [reflexivity|].
    apply Hkeep. right. vm_compute. by apply elem_of_cons; left.
  - destruct (class_start_tags "2025년 1학기 1기,2025년 2학기 1기" "" 0)
      as (_ & _ & _ & _ & Hremove); [reflexivity|].
    rewrite Hremove. reflexivity.
Defined.

(** ** Phone and cost fields *)

Lemma onlyDigits_app (a b : string) :
  onlyDigits (a +:+ b) = onlyDigits a +:+ onlyDigits b.
Proof.
  induction a as [|c a IH]; [by rewrite !append_nil_l|].
  rewrite append_cons. simpl. destruct (isDigit c); [|done].
  by rewrite append_cons, IH.
Qed.

Lemma allDigits_onlyDigits (s : string) : allDigits (onlyDigits s) = true.
Proof.
  induction s as [|c s IH]; [done|]. simpl.
  destruct (isDigit c) eqn:Hc; [|done]. simpl. by rewrite Hc.
Qed.

Lemma onlyDigits_allDigits (s : string) : allDigits s = true → onlyDigits s = s.
Proof.
  induction s as [|c s IH]; [done|]. simpl.
  intros [Hc Hs]%andb_true_iff. by rewrite Hc, IH.
Qed.

Lemma allDigits_sliceTo (n : nat) (s : string) :
  allDigits s = true → allDigits (sliceTo n s) = true.
Proof.
  revert s. induction n as [|n IH]; intros [|c s]; try done. simpl.
  intros [Hc Hs]%andb_true_iff. by rewrite Hc, IH.
Qed.

Lemma allDigits_sliceFrom (n : nat) (s : string) :
  allDigits s = true → allDigits (sliceFrom n s) = true.
Proof.
  revert s. induction n as [|n IH]; intros [|c s]; try done. simpl.
  intros [Hc Hs]%andb_true_iff. by apply IH.
Qed.

Lemma sliceTo_sliceFrom (n : nat) (s : string) :
  sliceTo n s +:+ sliceFrom n s = s.
Proof.
  revert s. induction n as [|n IH]; intros [|c s]; try done. simpl.
  by rewrite append_cons, IH.
Qed.

Lemma sliceFrom_add (a b : nat) (s : string) :
  sliceFrom (a + b) s = sliceFrom b (sliceFrom a s).
Proof.
  revert s. induction a as [|a IH]; intros s; [done|].
  destruct s as [|c s]; [by destruct b|]. simpl. apply IH.
Qed.

(** Consecutive slices put together again. *)
Lemma slice_sliceFrom (a b : nat) (s : string) :
  (a ≤ b)%nat → slice a b s +:+ sliceFrom b s = sliceFrom a s.
Proof.
  intros Hab. unfold slice. replace b with (a + (b - a))%nat at 2 by lia.
  rewrite sliceFrom_add. apply sliceTo_sliceFrom.
Qed.

Lemma length_sliceTo (n : nat) (s : string) :
  String.length (sliceTo n s) = (n `min` String.length s)%nat.
Proof.
  revert s. induction n as [|n IH]; intros [|c s]; try done. simpl.
  by rewrite IH.
Qed.

Lemma length_sliceFrom (n : nat) (s : string) :
  String.length (sliceFrom n s) = (String.length s - n)%nat.
Proof.
  revert s. induction n as [|n IH]; intros [|c s]; try done. simpl.
  by rewrite IH.
Qed.

Lemma sliceTo_all (n : nat) (s : string) :
  (String.length s ≤ n)%nat → sliceTo n s = s.
Proof.
  revert s. induction n as [|n IH]; intros [|c s]; simpl; try done; try lia.
  intros H. rewrite IH; [done | lia].
Qed.

Lemma length_append (a b : string) :
  String.length (a +:+ b) = (String.length a + String.length b)%nat.
Proof.
  induction a as [|c a IH]; [by rewrite append_nil_l|].
  rewrite append_cons. simpl. by rewrite IH.
Qed.

(** X18. The phone field keeps the first eleven digits typed, in order,
    and nothing else but the dashes it puts in: stripping the non-digits
    from the formatted value gives those digits back.  The formatted
    value is at most 13 characters long, and formatting it again changes
    nothing.  The cost field keeps exactly the digits typed. *)
Theorem handlePhone_digits (raw : string) :
  onlyDigits (handlePhone raw) = sliceTo 11 (onlyDigits raw)
  ∧ handlePhone (handlePhone raw) = handlePhone raw
  ∧ (String.length (handlePhone raw) ≤ 13)%nat
  ∧ (String.length (onlyDigits raw) ≤ 3 → handlePhone raw = onlyDigits raw)%nat
  ∧ allDigits (handleCost raw) = true
  ∧ handleCost (handleCost raw) = handleCost raw.
Proof.
  set (d := sliceTo 11 (onlyDigits raw)).
  assert (allDigits d = true) as Hd
    by apply allDigits_sliceTo, allDigits_onlyDigits.
  assert (String.length d ≤ 11)%nat as Hlen
    by (unfold d; rewrite length_sliceTo; lia).
  assert (onlyDigits (handlePhone raw) = d) as Hdigits.
  { unfold handlePhone. fold d. repeat case_decide.
    - rewrite !onlyDigits_app. change (onlyDigits "-") with "".
      rewrite !append_nil_l.
      rewrite !onlyDigits_allDigits
        by (unfold slice; auto using allDigits_sliceTo, allDigits_sliceFrom).
      rewrite (slice_sliceFrom 3 7) by lia.
      rewrite (slice_sliceFrom 0 3) by lia. done.
    - rewrite !onlyDigits_app. change (onlyDigits "-") with "".
      rewrite !append_nil_l.
      rewrite !onlyDigits_allDigits
        by (unfold slice; auto using allDigits_sliceTo, allDigits_sliceFrom).
      rewrite (slice_sliceFrom 0 3) by lia. done.
    - by apply onlyDigits_allDigits. }
  split_and!.
  - done.
  - unfold handlePhone at 1. rewrite Hdigits.
    rewrite (sliceTo_all 11 d) by done. done.
  - unfold handlePhone. fold d. unfold slice.
    repeat case_decide;
      rewrite ?length_append, ?length_sliceTo, ?length_sliceFrom;
      change (String.length "-") with 1%nat; lia.
  - intros Hshort. unfold handlePhone. fold d.
    assert (d = onlyDigits raw) as E by (apply sliceTo_all; lia).
    rewrite E. repeat case_decide; (done || lia).
  - apply allDigits_onlyDigits.
  - unfold handleCost. apply onlyDigits_allDigits, allDigits_onlyDigits.
Qed.

(** ** From the cohort input to the plan page *)

Lemma digitValue_digit (c : ascii) :
  isDigit c = true → digitValue 10 c = Some (byte c - 48)%N.
Proof.
  unfold isDigit, digitValue. intros H. rewrite H.
  apply andb_true_iff in H as [H1 H2].
  apply N.leb_le in H1, H2.
  assert ((byte c - 48 <? 10)%N = true) as -> by (apply N.ltb_lt; lia). done.
Qed.

Lemma parseDigits_decimal (s : string) (a : N) :
  allDigits s = true → parseDigits 10 s (Some a) = Some (decimalFrom a s).
Proof.
  revert a. induction s as [|c s IH]; intros a; [done|]. simpl.
  intros [Hc Hs]%andb_true_iff. rewrite digitValue_digit by done. simpl.
  by apply IH.
Qed.

(** [parseInt] of a non-empty run of digits is the number it denotes. *)
Lemma parseInt_decimal (s : string) :
  s ≠ "" → allDigits s = true → parseInt s = Some (decimal s).
Proof.
  destruct s as [|c r]; [done|]. intros _ Hall.
  assert (parseDigits 10 (String c r) None = Some (decimalFrom 0 (String c r)))
    as Hdec.
  { simpl in *. apply andb_true_iff in Hall as [Hc Hr].
    rewrite digitValue_digit by done. simpl. by apply parseDigits_decimal. }
  simpl in Hall. apply andb_true_iff in Hall as [Hc Hr].
  unfold parseInt, decimal. rewrite trimStart_digit by done.
  destruct c as [[] [] [] [] [] [] [] []]; try discriminate;
    try (cbv beta iota zeta; by rewrite Hdec).
  destruct r as [|c2 r2]; [cbv beta iota zeta; by rewrite Hdec|].
  simpl in Hr. apply andb_true_iff in Hr as [Hc2 _].
  destruct c2 as [[] [] [] [] [] [] [] []]; try discriminate;
    cbv beta iota zeta; by rewrite Hdec.
Qed.

Lemma stripPrefix_app (p s : string) : stripPrefix p (p +:+ s) = Some s.
Proof.
  induction p as [|a p IH]; [done|]. rewrite append_cons. simpl.
  by rewrite bool_decide_eq_true_2.
Qed.

(** The greedy run of digits stops where the digits stop. *)
Lemma digitsPrefix_app (ds rest : string) :
  allDigits ds = true →
  (∀ c r, rest = String c r → isDigit c = false) →
  digitsPrefix (ds +:+ rest) = (ds, rest).
Proof.
  intros Hds Hrest. induction ds as [|c ds IH].
  - rewrite append_nil_l. destruct rest as [|c r]; [done|].
    simpl. by rewrite (Hrest c r).
  - simpl in Hds. apply andb_true_iff in Hds as [Hc Hds].
    rewrite append_cons. simpl. by rewrite Hc, IH.
Qed.

Lemma trimStart_digits (ds rest : string) :
  ds ≠ "" → allDigits ds = true → trimStart (ds +:+ rest) = ds +:+ rest.
Proof.
  destruct ds as [|c ds]; [done|]. intros _ [Hc _]%andb_true_iff.
  rewrite append_cons. by apply trimStart_digit.
Qed.

Lemma matchCohort_unfold (s : string) :
  matchCohort s =
  match matchCohortAt s with
  | Some m => Some m
  | None => match s with
            | EmptyString => None
            | String _ r => matchCohort r
            end
  end.
Proof. by destruct s. Qed.

(** The pattern matches a tag at its head and captures its three runs of
    digits. *)
Lemma matchCohort_cohortTag (c : string * string * string) :
  wellFormedCohort c → matchCohort (cohortTag c) = Some c.
Proof.
  destruct c as [[y t] n]. unfold wellFormedCohort, cohortTag. simpl.
  intros (Hlen & Hy & Ht0 & Ht & Hn0 & Hn & _).
  rewrite matchCohort_unfold.
  set (rest := "년 " +:+ t +:+ "학기 " +:+ n +:+ "기").
  destruct y as [|d1 [|d2 [|d3 [|d4 [|d5 y]]]]]; try done. clear Hlen.
  simpl in Hy. rewrite !andb_true_iff in Hy. destruct Hy as (H1 & H2 & H3 & H4 & _).
  change (String d1 (String d2 (String d3 (String d4 ""))) +:+ rest)
    with (String d1 (String d2 (String d3 (String d4 rest)))).
  unfold matchCohortAt. rewrite H1, H2, H3, H4. simpl andb. cbv iota.
  unfold rest.
  change ("년 " +:+ t +:+ "학기 " +:+ n +:+ "기")
    with ("년" +:+ String " " (t +:+ "학기 " +:+ n +:+ "기")).
  rewrite stripPrefix_app.
  change (trimStart (String " " (t +:+ "학기 " +:+ n +:+ "기")))
    with (trimStart (t +:+ "학기 " +:+ n +:+ "기")).
  rewrite trimStart_digits by done.
  change ("학기 " +:+ n +:+ "기") with ("학기" +:+ String " " (n +:+ "기")).
  rewrite digitsPrefix_app; [|done|by intros ? ? [= <- _]].
  rewrite bool_decide_eq_false_2 by done.
  rewrite stripPrefix_app.
  change (trimStart (String " " (n +:+ "기"))) with (trimStart (n +:+ "기")).
  rewrite trimStart_digits by done.
  rewrite digitsPrefix_app; [|done|by intros ? ? [= <- _]].
  rewrite bool_decide_eq_false_2 by done.
  change "기" with ("기" +:+ ""). by rewrite stripPrefix_app.
Qed.

Lemma trimStart_unfold (a b c : ascii) (r : string) :
  trimStart (String a (String b (String c r)))
  = if isSpace1 a then trimStart (String b (String c r))
    else if isSpace2 a b then trimStart (String c r)
    else if isSpace3 a b c then trimStart r
    else String a (String b (String c r)).
Proof. reflexivity. Qed.

Ltac split_byte_tests :=
  repeat match goal with
         | |- context [(byte ?x =? ?k)%N] => is_var x; destruct (byte x =? k)%N
         end.

(** A string that ends in 기 is not white space only. *)
Lemma trimStart_gi (s : string) : trimStart (s +:+ "기") ≠ "".
Proof.
  remember (String.length s) as n eqn:Hn. revert s Hn.
  induction (lt_wf n) as [n _ IH]. intros s ->.
  assert (∀ s', (String.length s' < String.length s)%nat →
                trimStart (s' +:+ "기") ≠ "") as IH'.
  { intros s' Hlt. by apply (IH _ Hlt). }
  clear IH. destruct s as [|a [|b [|c s3]]].
  - by vm_compute.
  - change (String a "" +:+ "기")
      with (String a (String "234" (String "184" (String "176" "")))).
    rewrite trimStart_unfold.
    destruct (isSpace1 a); [apply (IH' ""); simpl; lia|].
    assert (isSpace2 a "234" = false) as ->
      by (unfold isSpace2; split_byte_tests; reflexivity).
    assert (isSpace3 a "234" "184" = false) as ->
      by (unfold isSpace3; split_byte_tests; reflexivity).
    done.
  - change (String a (String b "") +:+ "기")
      with (String a (String b (String "234" (String "184" (String "176" ""))))).
    rewrite trimStart_unfold.
    destruct (isSpace1 a); [apply (IH' (String b "")); simpl; lia|].
    destruct (isSpace2 a b); [apply (IH' ""); simpl; lia|].
    assert (isSpace3 a b "234" = false) as ->
      by (unfold isSpace3; split_byte_tests; reflexivity).
    done.
  - rewrite !append_cons, trimStart_unfold.
    destruct (isSpace1 a).
    { rewrite <- !append_cons. apply IH'. simpl. lia. }
    destruct (isSpace2 a b).
    { rewrite <- !append_cons. apply IH'. simpl. lia. }
    destruct (isSpace3 a b c); [apply IH'; simpl; lia | done].
Qed.

Lemma trimEnd_gi (s : string) : trimEnd (s +:+ "기") = s +:+ "기".
Proof.
  induction s as [|a s IH]; [by vm_compute|].
  rewrite append_cons. simpl. unfold allSpaces.
  rewrite bool_decide_eq_false_2; [by rewrite IH|].
  rewrite <- append_cons. apply trimStart_gi.
Qed.

Lemma allDigits_noComma (s : string) : allDigits s = true → noComma s = true.
Proof.
  induction s as [|c s IH]; [done|]. simpl.
  intros [Hc Hs]%andb_true_iff. rewrite IH by done.
  rewrite bool_decide_eq_false_2; [done|]. by intros ->.
Qed.

(** A tag is not changed by [trim], holds no comma and is not empty. *)
Lemma cohortTag_trim (c : string * string * string) :
  wellFormedCohort c →
  trim (cohortTag c) = cohortTag c
  ∧ noComma (cohortTag c) = true
  ∧ cohortTag c ≠ "".
Proof.
  destruct c as [[y t] n]. unfold wellFormedCohort, cohortTag. simpl.
  intros (Hlen & Hy & Ht0 & Ht & Hn0 & Hn & _). split_and!.
  - unfold trim. rewrite trimStart_digits; [|by destruct y|done].
    rewrite <- !append_assoc. apply trimEnd_gi.
  - rewrite !noComma_app.
    rewrite (allDigits_noComma y), (allDigits_noComma t), (allDigits_noComma n)
      by done.
    reflexivity.
  - destruct y; [done|]. by rewrite append_cons.
Qed.

Lemma join_imap_singleton {A B} (g : nat → A → B) (l : list A) :
  mjoin (imap (λ i x, [g i x]) l) = imap g l.
Proof.
  revert g. induction l as [|x l IH]; intros g; [done|].
  simpl. f_equal. apply (IH (g ∘ S)).
Qed.

(** What the plan page reads from the tags of well-formed cohorts. *)
Lemma parseClassStart_tags (cohorts : list (string * string * string)) :
  Forall wellFormedCohort cohorts →
  parseClassStart (Some (joinComma (cohortTag <$> cohorts)))
  = imap cohortSemester cohorts.
Proof.
  intros Hall. destruct cohorts as [|c0 cohorts]; [done|].
  set (cs := c0 :: cohorts) in *.
  assert (Forall (λ t, noComma t = true) (cohortTag <$> cs)) as Hcomma.
  { apply Forall_fmap. eapply Forall_impl; [exact Hall|].
    intros c Hc. by apply cohortTag_trim. }
  assert (split_comma (joinComma (cohortTag <$> cs)) = cohortTag <$> cs) as Hsplit
    by (by apply split_comma_join).
  unfold parseClassStart. rewrite bool_decide_eq_false_2.
  2:{ intros E. rewrite E in Hsplit. simpl in Hsplit. injection Hsplit as E0 _.
      apply Forall_cons in Hall as [H0 _].
      apply cohortTag_trim in H0 as (_ & _ & H0). by apply H0. }
  rewrite Hsplit, <- list_fmap_compose.
  rewrite filter_id_elem_of.
  2:{ intros t (c & -> & Hc)%list_elem_of_fmap. rewrite Forall_forall in Hall.
      simpl. destruct (cohortTag_trim c (Hall c Hc)) as (-> & _ & Hne). done. }
  rewrite imap_fmap, <- (join_imap_singleton cohortSemester). f_equal.
  apply imap_ext. intros i c Hc. simpl.
  rewrite Forall_forall in Hall.
  assert (wellFormedCohort c) as Hwf by (by eapply Hall, list_elem_of_lookup_2).
  destruct (cohortTag_trim c Hwf) as (-> & _ & _).
  rewrite (matchCohort_cohortTag c Hwf).
  destruct c as [[y t] n]. destruct Hwf as (_ & _ & Ht0 & Ht & Hn0 & Hn & _).
  simpl in *. by rewrite !parseInt_decimal.
Qed.

Lemma cohortTag_inj (c c' : string * string * string) :
  wellFormedCohort c → wellFormedCohort c' → cohortTag c = cohortTag c' → c = c'.
Proof.
  intros Hc Hc' E. apply matchCohort_cohortTag in Hc, Hc'.
  rewrite E in Hc. congruence.
Qed.

(** X19. From the cohort input of the student form to the semesters of
    the plan page.  When the input is typed or pasted into (its text does
    not get shorter) and at least six digits have been entered, the input
    shows the tag of the cohort made of the first four digits, the fifth,
    and the rest up to the seventh.  If class_start holds the tags of
    well-formed cohorts, the plan page reads it as one semester per
    cohort, in order, with ids counting from 0, the year as typed and the
    term and cohort number as the numbers their digits denote; adding the
    input as a tag makes the page read the same semesters followed by one
    for the new cohort, and adding a cohort that is already a tag changes
    nothing. *)
Theorem cohort_input_reaches_plan (cohorts : list (string * string * string))
    (classStartInput raw : string) :
  Forall wellFormedCohort cohorts →
  (utf16Length classStartInput ≤ utf16Length raw)%nat →
  (6 ≤ String.length (sliceTo 7 (onlyDigits raw)))%nat →
  let e := sliceTo 7 (onlyDigits raw) in
  let c := (slice 0 4 e, slice 4 5 e, sliceFrom 5 e) in
  let class_start := joinComma (cohortTag <$> cohorts) in
  let shown := formatClassStartInput classStartInput raw in
  shown = cohortTag c
  ∧ wellFormedCohort c
  ∧ parseClassStart (Some class_start) = imap cohortSemester cohorts
  ∧ (c ∉ cohorts →
     parseClassStart (Some (addClassStartTag class_start shown))
     = imap cohortSemester (cohorts ++ [c]))
  ∧ (c ∈ cohorts → addClassStartTag class_start shown = class_start).
Proof.
  intros Hall Hlonger Hsix e c class_start shown. fold e in Hsix.
  assert (allDigits e = true) as He
    by apply allDigits_sliceTo, allDigits_onlyDigits.
  assert (String.length e ≤ 7)%nat as Hseven
    by (unfold e; rewrite length_sliceTo; lia).
  assert (wellFormedCohort c) as Hc.
  { unfold wellFormedCohort, c, slice. cbn [fst snd].
    assert (∀ s, (0 < String.length s)%nat → s ≠ "") as Hne
      by (intros [|? ?] ?; [simpl in *; lia | done]).
    split_and!; try (by auto using allDigits_sliceTo, allDigits_sliceFrom).
    - rewrite length_sliceTo, length_sliceFrom. lia.
    - apply Hne. rewrite length_sliceTo, length_sliceFrom. lia.
    - apply Hne. rewrite length_sliceFrom. lia.
    - rewrite length_sliceTo, length_sliceFrom. lia.
    - rewrite length_sliceFrom. lia. }
  assert (shown = cohortTag c) as Hshown.
  { unfold shown, formatClassStartInput. fold e.
    rewrite (bool_decide_eq_false_2 (utf16Length raw < utf16Length classStartInput)%nat)
      by lia.
    rewrite andb_false_r.
    rewrite bool_decide_eq_false_2 by (intros E; rewrite E in Hsix; simpl in Hsix; lia).
    repeat case_decide; try lia. done. }
  assert (classStartTags class_start = cohortTag <$> cohorts) as Htags.
  { apply classStartTags_join. apply Forall_fmap.
    eapply Forall_impl; [exact Hall|]. intros c' Hc'. simpl.
    by destruct (cohortTag_trim c' Hc') as (_ & ? & ?). }
  destruct (cohortTag_trim c Hc) as (Htrim & Hcomma & Hne).
  split_and!; [done | done | by apply parseClassStart_tags | |].
  - intros Hnew. rewrite Hshown. unfold addClassStartTag.
    rewrite Htrim, Htags, bool_decide_eq_true_2 by done.
    rewrite bool_decide_eq_false_2.
    2:{ intros (c' & E & Hc')%list_elem_of_fmap. apply Hnew.
        rewrite Forall_forall in Hall.
        by rewrite (cohortTag_inj c c' Hc (Hall c' Hc') E). }
    simpl. change [cohortTag c] with (cohortTag <$> [c]). rewrite <- fmap_app.
    apply parseClassStart_tags. apply Forall_app. split; [done|].
    by apply Forall_singleton.
  - intros Hold. rewrite Hshown. unfold addClassStartTag.
    rewrite Htrim, Htags.
    rewrite (bool_decide_eq_true_2 (cohortTag c ∈ cohortTag <$> cohorts))
      by (apply list_elem_of_fmap; eauto).
    by rewrite andb_false_r.
Qed.

Lemma cohort_input_reaches_plan_witness :
  formatClassStartInput "2025년 2학기 " "2025년 2학기 1" = "2025년 2학기 1기"
  ∧ parseClassStart
      (Some (addClassStartTag "2025년 1학기 1기" "2025년 2학기 1기"))
    = [mkSemester 0 "2025" 1 1 "" ""; mkSemester 1 "2025" 2 1 "" ""].
Proof.
  destruct (cohort_input_reaches_plan [("2025", "1", "1")]
              "2025년 2학기 " "2025년 2학기 1") as (Hshown & _ & _ & Hadd & _).
  - apply Forall_singleton. unfold wellFormedCohort. simpl.
    split_and!; (done || lia).
  - vm_compute. lia.
  - vm_compute. lia.
  - split; [exact Hshown|]. etrans; [|apply Hadd].
    + reflexivity.
    + intros [E|H]%elem_of_cons; [discriminate | by apply elem_of_nil in H].
Defined.

(** ** Deleting credit sources *)

Lemma filter_key_Permutation {A} (key : A → string) (l : list A) (c : A) :
  NoDup (key <$> l) → c ∈ l →
  l ≡ₚ c :: filter (λ x, key x ≠ key c) l.
Proof.
  induction l as [|x l IH]; intros Hnd Hc; [by apply elem_of_nil in Hc|].
  rewrite fmap_cons in Hnd. apply NoDup_cons in Hnd as [Hx Hnd].
  rewrite filter_cons. apply elem_of_cons in Hc as [->|Hc].
  - rewrite decide_False by (intros H; by apply H).
    rewrite filter_id_elem_of; [done|].
    intros y Hy E. apply Hx. rewrite <- E. apply list_elem_of_fmap. eauto.
  - rewrite decide_True.
    + rewrite (IH Hnd Hc) at 1. apply Permutation_swap.
    + intros E. apply Hx. rewrite E. apply list_elem_of_fmap. eauto.
Qed.

Lemma filter_key_absent {A} (key : A → string) (l : list A) (k : string) :
  k ∉ key <$> l → filter (λ x, key x ≠ k) l = l.
Proof.
  intros Hk. apply filter_id_elem_of. intros x Hx E. apply Hk.
  rewrite <- E. apply list_elem_of_fmap. eauto.
Qed.

Lemma certCredits_sum (creditCerts : list CreditCert) :
  certCredits creditCerts = sumZ (cert_credits <$> creditCerts).
Proof.
  unfold certCredits.
  assert (∀ a, foldl (λ s c, s + cert_credits c) a creditCerts
               = a + sumZ (cert_credits <$> creditCerts)) as H.
  { induction creditCerts as [|c l IH]; intros a; csimpl;
      [unfold sumZ; simpl; lia|].
    rewrite IH. unfold sumZ. simpl. lia. }
  by rewrite H.
Qed.

Lemma lookup_creditsByCategory (ids : list Z) (subjs : list Subject)
    (prevSubjects : list PrevSubject) (dokaksaList : list DokaksaEntry)
    (cat : SubjectCategory) :
  default 0 (creditsByCategory ids subjs prevSubjects dokaksaList !! cat)
  = creditsIn cat (assignedEntries ids subjs)
    + creditsIn cat (prevEntries prevSubjects)
    + creditsIn cat (dokaksaEntries dokaksaList).
Proof.
  rewrite creditsByCategory_entries, lookup_addEntries, lookup_empty.
  rewrite !creditsIn_app. simpl. lia.
Qed.

Lemma creditsIn_cons (cat c : SubjectCategory) (n : Z)
    (l : list (SubjectCategory * Z)) :
  creditsIn cat ((c, n) :: l)
  = (if decide (cat = c) then n else 0) + creditsIn cat l.
Proof.
  unfold creditsIn, creditsOf, sumZ. rewrite filter_cons. simpl.
  destruct (decide (c = cat)), (decide (cat = c)); try congruence; csimpl; lia.
Qed.

(** X20. Deleting a credit source.  A store error leaves the three lists
    as they are, and so does the id of no entry.  With pairwise distinct
    ids, deleting a certificate lowers the certificate credits by its
    credits; deleting a prior-institution subject lowers the credits of
    its category by its credits, leaves the other categories alone and
    lowers the subject total by one; deleting a self-study entry lowers
    the credits of its credit type and the self-study credits by its
    credits and leaves the other categories alone. *)
Theorem delete_credit_source (ids : list Z) (subjs : list Subject)
    (prevSubjects : list PrevSubject) (creditCerts : list CreditCert)
    (dokaksaList : list DokaksaEntry) :
  (∀ id, handleDeletePrevSubject prevSubjects id true = prevSubjects
         ∧ handleDeleteCert creditCerts id true = creditCerts
         ∧ handleDeleteDokaksa dokaksaList id true = dokaksaList)
  ∧ (∀ id, (id ∉ prev_id <$> prevSubjects →
            handleDeletePrevSubject prevSubjects id false = prevSubjects)
           ∧ (id ∉ cert_id <$> creditCerts →
              handleDeleteCert creditCerts id false = creditCerts)
           ∧ (id ∉ dokaksa_id <$> dokaksaList →
              handleDeleteDokaksa dokaksaList id false = dokaksaList))
  ∧ (NoDup (cert_id <$> creditCerts) →
     ∀ c, c ∈ creditCerts →
          certCredits (handleDeleteCert creditCerts (cert_id c) false)
          = certCredits creditCerts - cert_credits c)
  ∧ (NoDup (prev_id <$> prevSubjects) →
     ∀ p, p ∈ prevSubjects →
          let prevSubjects' := handleDeletePrevSubject prevSubjects (prev_id p) false in
          (∀ cat,
             default 0 (creditsByCategory ids subjs prevSubjects' dokaksaList !! cat)
             = default 0 (creditsByCategory ids subjs prevSubjects dokaksaList !! cat)
               - (if decide (cat = prev_category p) then prev_credits p else 0))
          ∧ totalSubjects ids prevSubjects' = totalSubjects ids prevSubjects - 1)
  ∧ (NoDup (dokaksa_id <$> dokaksaList) →
     ∀ d, d ∈ dokaksaList →
          let dokaksaList' := handleDeleteDokaksa dokaksaList (dokaksa_id d) false in
          (∀ cat,
             default 0 (creditsByCategory ids subjs prevSubjects dokaksaList' !! cat)
             = default 0 (creditsByCategory ids subjs prevSubjects dokaksaList !! cat)
               - (if decide (cat = dokaksa_credit_type d)
                  then dokaksa_credits d else 0))
          ∧ dokaksaCredits dokaksaList' = dokaksaCredits dokaksaList - dokaksa_credits d).
Proof.
  split_and!.
  - done.
  - intros id. split_and!; intros H; by apply filter_key_absent.
  - intros Hnd c Hc. unfold handleDeleteCert. rewrite !certCredits_sum.
    rewrite (sumZ_Permutation (cert_credits <$> creditCerts)
               (cert_credits <$> c :: filter (λ x, cert_id x ≠ cert_id c) creditCerts)).
    + unfold sumZ. csimpl. lia.
    + apply fmap_Permutation. by apply filter_key_Permutation.
  - intros Hnd p Hp prevSubjects'.
    pose proof (filter_key_Permutation prev_id prevSubjects p Hnd Hp) as Hperm.
    split.
    + intros cat. rewrite !lookup_creditsByCategory.
      rewrite (creditsIn_Permutation cat (prevEntries prevSubjects)
                 (prevEntries (p :: prevSubjects')))
        by (unfold prevEntries; by apply fmap_Permutation).
      unfold prevEntries at 2. rewrite fmap_cons, creditsIn_cons.
      fold (prevEntries prevSubjects'). lia.
    + unfold totalSubjects, prevSubjects', handleDeletePrevSubject.
      rewrite (Permutation_length Hperm). simpl length. lia.
  - intros Hnd d Hd dokaksaList'.
    pose proof (filter_key_Permutation dokaksa_id dokaksaList d Hnd Hd) as Hperm.
    assert (dokaksaEntries dokaksaList ≡ₚ
            (dokaksa_credit_type d, dokaksa_credits d) :: dokaksaEntries dokaksaList')
      as Hentries.
    { unfold dokaksaEntries. rewrite Hperm at 1. by rewrite fmap_cons. }
    split.
    + intros cat. rewrite !lookup_creditsByCategory.
      rewrite (creditsIn_Permutation cat _ _ Hentries), creditsIn_cons. lia.
    + rewrite !dokaksaCredits_creditsOf. unfold creditsOf.
      rewrite (sumZ_Permutation _ _ (fmap_Permutation snd _ _ Hentries)).
      unfold sumZ. csimpl. lia.
Qed.

Lemma delete_credit_source_witness :
  certCredits (handleDeleteCert [exampleCert] "c-1" false) = 0
  ∧ default 0 (creditsByCategory (assignedIds exampleAssignment) exampleCatalog
                 (handleDeletePrevSubject [examplePrev] "p-1" false)
                 [exampleDokaksa] !! Major)
    = 24.
Proof.
  destruct (delete_credit_source (assignedIds exampleAssignment) exampleCatalog
              [examplePrev] [exampleCert] [exampleDokaksa])
    as (_ & _ & Hcert & Hprev & _).
  split.
  - etrans; [|reflexivity].
    exact (Hcert ltac:(apply NoDup_singleton) exampleCert
             ltac:(by apply elem_of_cons; left)).
  - destruct (Hprev ltac:(apply NoDup_singleton) examplePrev
                ltac:(by apply elem_of_cons; left)) as [Hcat _].
    etrans; [apply (Hcat Major)|]. reflexivity.
Defined.

(** ** Toggling a self-study preset *)

(** X21. A preset that is not yet in the self-study list for the stage of
    the form is toggled on by an insert of its name and credits under
    that stage with the credit type the stage rule gives.  Once the list
    holds the row the store returned for it, as sent and under an id no
    other entry has, toggling the same preset again asks for the delete
    of exactly that row, and the delete gives back the list as it was
    before the first toggle. *)
Theorem dokaksa_preset_toggle (studentId : string) (major : option string)
    (dokaksaList : list DokaksaEntry) (dokaksaForm : DokaksaForm)
    (preset : DokaksaPreset) (data : DokaksaEntry) :
  (∀ d, d ∈ dokaksaList →
        ¬ (dokaksa_stage d = form_stage dokaksaForm
           ∧ dokaksa_subject_name d = preset_name preset)) →
  dokaksa_id data ∉ dokaksa_id <$> dokaksaList →
  ∃ row,
    handleToggleDokaksaPreset studentId major dokaksaList dokaksaForm preset
    = InsertDokaksa row
    ∧ ins_stage row = form_stage dokaksaForm
    ∧ ins_subject_name row = preset_name preset
    ∧ ins_credits row = preset_credits preset
    ∧ ins_credit_type row
      = Some (presetCreditType (form_stage dokaksaForm) major
                               (preset_category preset))
    ∧ (storedAs data row →
       handleToggleDokaksaPreset studentId major
         (dokaksaInserted dokaksaList data) dokaksaForm preset
       = DeleteDokaksa (dokaksa_id data)
       ∧ handleDeleteDokaksa (dokaksaInserted dokaksaList data)
                             (dokaksa_id data) false
         = dokaksaList
       ∧ dokaksaCredits (dokaksaInserted dokaksaList data)
         = dokaksaCredits dokaksaList + preset_credits preset).
Proof.
  intros Hnew Hfresh. unfold handleToggleDokaksaPreset.
  set (matches := λ d, bool_decide (dokaksa_stage d = form_stage dokaksaForm)
                       && bool_decide (dokaksa_subject_name d = preset_name preset)).
  assert (List.find matches dokaksaList = None) as Hnone.
  { destruct (List.find matches dokaksaList) as [d|] eqn:E; [|done].
    apply find_some in E as [Hd Hm]. apply list_elem_of_In in Hd.
    apply andb_true_iff in Hm as [H1 H2].
    apply bool_decide_eq_true in H1, H2. by destruct (Hnew d Hd). }
  rewrite Hnone. eexists. split_and!; try reflexivity.
  intros (Hstage & Hname & Hcredits & _). simpl in *.
  assert (List.find matches (dokaksaInserted dokaksaList data) = Some data) as ->.
  { unfold dokaksaInserted. clear Hfresh Hnew.
    induction dokaksaList as [|d l IH]; simpl.
    - unfold matches. by rewrite !bool_decide_eq_true_2.
    - simpl in Hnone. destruct (matches d); [done|]. by apply IH. }
  split_and!; [done | |].
  - unfold handleDeleteDokaksa, dokaksaInserted.
    rewrite filter_app, filter_cons, filter_nil.
    rewrite decide_False by (intros H; by apply H).
    rewrite app_nil_r. by apply filter_key_absent.
  - rewrite !dokaksaCredits_creditsOf. unfold dokaksaInserted, dokaksaEntries.
    rewrite fmap_app, creditsOf_app. unfold creditsOf at 2, sumZ. csimpl. lia.
Qed.

Lemma dokaksa_preset_toggle_witness :
  handleToggleDokaksaPreset "student-1" (Some "사회복지학")
    (dokaksaInserted []
       (mkDokaksaEntry "d-9" "student-1" "2단계" "사회복지실천론" 5 Major))
    (mkDokaksaForm "2단계" "" 3)
    (mkDokaksaPreset "2단계" "사회복지학" "사회복지실천론" 5 Elective 1)
  = DeleteDokaksa "d-9".
Proof.
  destruct (dokaksa_preset_toggle "student-1" (Some "사회복지학") []
              (mkDokaksaForm "2단계" "" 3)
              (mkDokaksaPreset "2단계" "사회복지학" "사회복지실천론" 5 Elective 1)
              (mkDokaksaEntry "d-9" "student-1" "2단계" "사회복지실천론" 5 Major))
    as (row & Hreq & _ & _ & _ & _ & Hback).
  - by intros d ?%elem_of_nil.
  - apply not_elem_of_nil.
  - apply Hback. injection Hreq as <-. unfold storedAs. simpl.
    split_and!; try reflexivity. by intros c [= <-].
Defined.

(** ** Semester dates *)

(** X22. Editing a date of a semester sets that field and nothing else:
    the other field of the semester keeps its value (the empty string if
    the semester had no dates yet), the dates of every other semester id
    and the rest of the plan are untouched.  Two edits that differ in the
    semester or in the field can be made in either order, and of two
    edits of the same field the later one decides. *)
Theorem handleDateChange_fields (st : PlanState) (id1 id2 : Z)
    (f1 f2 : DateField) (v1 v2 : string) :
  let old := default (mkSemesterDates "" "") (semesterDates st !! id1) in
  semesterDates (handleDateChange st id1 f1 v1) !! id1
  = Some (match f1 with
          | FieldStart => mkSemesterDates v1 (date_end old)
          | FieldEnd => mkSemesterDates (date_start old) v1
          end)
  ∧ (id1 ≠ id2 →
     semesterDates (handleDateChange st id1 f1 v1) !! id2 = semesterDates st !! id2)
  ∧ (id1 ≠ id2 ∨ f1 ≠ f2 →
     handleDateChange (handleDateChange st id1 f1 v1) id2 f2 v2
     = handleDateChange (handleDateChange st id2 f2 v2) id1 f1 v1)
  ∧ handleDateChange (handleDateChange st id1 f1 v1) id1 f1 v2
    = handleDateChange st id1 f1 v2
  ∧ semesters (handleDateChange st id1 f1 v1) = semesters st
  ∧ semesterSubjects (handleDateChange st id1 f1 v1) = semesterSubjects st
  ∧ selectedSemester (handleDateChange st id1 f1 v1) = selectedSemester st.
Proof.
  intros old. unfold handleDateChange, setSemesterDates. simpl.
  split_and!; try done.
  - rewrite lookup_insert_eq. by destruct f1.
  - intros Hne. by rewrite lookup_insert_ne.
  - intros Hdiff. f_equal. apply map_eq. intros k.
    destruct (decide (id1 = id2)) as [<-|Hne].
    + destruct (decide (k = id1)) as [->|Hk].
      * rewrite !lookup_insert_eq. simpl.
        destruct f1, f2; try done; destruct Hdiff; done.
      * by rewrite !lookup_insert_ne.
    + rewrite (lookup_insert_ne _ id1 id2), (lookup_insert_ne _ id2 id1) by done.
      destruct (decide (k = id1)) as [Hk1|Hk1];
        destruct (decide (k = id2)) as [Hk2|Hk2]; try congruence; subst;
        repeat (rewrite lookup_insert_eq || rewrite lookup_insert_ne by congruence);
        done.
  - f_equal. rewrite lookup_insert_eq. simpl.
    rewrite insert_insert_eq. by destruct f1.
Qed.

Lemma handleDateChange_fields_witness :
  handleDateChange (handleDateChange exampleCohorts 0 FieldStart "2025-01-01")
                   0 FieldEnd "2025-06-30"
  = handleDateChange (handleDateChange exampleCohorts 0 FieldEnd "2025-06-30")
                     0 FieldStart "2025-01-01"
  ∧ semesterDates (handleDateChange exampleCohorts 0 FieldStart "2025-01-01") !! 2
    = None.
Proof.
  destruct (handleDateChange_fields exampleCohorts 0 2 FieldStart FieldEnd
              "2025-01-01" "2025-06-30") as (_ & Hother & _).
  destruct (handleDateChange_fields exampleCohorts 0 0 FieldStart FieldEnd
              "2025-01-01" "2025-06-30") as (_ & _ & Hcomm & _).
  split.
  - apply Hcomm. by right.
  - rewrite Hother by done. reflexivity.
Defined.

(** ** Status lists of the student page *)

(** X23. Every student is in exactly one of the three status lists of
    the student page, each list keeps the order of the student list, and
    the three lengths add up to the number of students.  The enrolled
    and completed counters count the students of that status in the
    whole list, and together they never exceed the total counter. *)
Theorem status_lists_partition {Student : Type} (status : Student → string)
    (students : list Student) :
  students ≡ₚ activeStudents status students ++ refundStudents status students
              ++ deleteStudents status students
  ∧ (∀ s, s ∈ students →
          (s ∈ activeStudents status students
           ∧ (s ∉ refundStudents status students)
           ∧ (s ∉ deleteStudents status students))
          ∨ ((s ∉ activeStudents status students)
             ∧ s ∈ refundStudents status students
             ∧ (s ∉ deleteStudents status students))
          ∨ ((s ∉ activeStudents status students)
             ∧ (s ∉ refundStudents status students)
             ∧ s ∈ deleteStudents status students))
  ∧ (totalCount status students
     + length (refundStudents status students)
     + length (deleteStudents status students) = length students)%nat
  ∧ enrolledCount status students
    = length (filter (λ s, status s = "등록") students)
  ∧ completedCount status students
    = length (filter (λ s, status s = "수료") students)
  ∧ (enrolledCount status students + completedCount status students
     ≤ totalCount status students)%nat.
Proof.
  unfold totalCount, enrolledCount, completedCount,
    activeStudents, refundStudents, deleteStudents.
  assert (students ≡ₚ
          filter (λ s, status s ≠ "환불" ∧ status s ≠ "삭제예정") students
          ++ filter (λ s, status s = "환불") students
          ++ filter (λ s, status s = "삭제예정") students) as Hperm.
  { induction students as [|s l IH]; [done|].
    rewrite !filter_cons.
    repeat case_decide; try (exfalso; tauto); try (exfalso; congruence).
    - simpl. by constructor.
    - simpl. rewrite <- Permutation_middle. by constructor.
    - rewrite app_assoc, <- Permutation_middle, <- app_assoc. by constructor. }
  split_and!.
  - done.
  - intros s Hs. rewrite !list_elem_of_filter.
    assert (status s = "환불" → status s ≠ "삭제예정") as Hexcl by congruence.
    destruct (decide (status s = "환불")) as [E|E];
      [|destruct (decide (status s = "삭제예정")) as [E'|E']]; tauto.
  - rewrite (Permutation_length Hperm), !length_app. lia.
  - rewrite list_filter_filter. f_equal. apply filter_ext_elem_of.
    intros s _. split; [tauto|]. intros E. rewrite E. split_and!; done.
  - rewrite list_filter_filter. f_equal. apply filter_ext_elem_of.
    intros s _. split; [tauto|]. intros E. rewrite E. split_and!; done.
  - set (active := filter _ students). clearbody active.
    induction active as [|s l IH]; [done|].
    rewrite !filter_cons.
    destruct (decide (status s = "등록")) as [E|E].
    + rewrite decide_False by (rewrite E; discriminate). simpl. lia.
    + destruct (decide (status s = "수료")); simpl; lia.
Qed.

(** ** Statutory subjects in the practicum tracker *)

(** X24. A statutory (구법) preset is registered as a prior-institution
    subject of the major category, whatever its subject type.  Once the
    stored row is in the list, the subject total is one higher and the
    major credits are higher by the credits of the preset; in a practicum
    profile the elective counter is one higher and the required counter
    is unchanged, also for a preset marked required. *)
Theorem gubup_subject_counts_as_elective (studentId : string)
    (subj : SubjectPreset) (data : PrevSubject)
    (planConfig : PlanConfig) (ids : list Z) (subjs : list Subject)
    (prevSubjects : list PrevSubject) (dokaksaList : list DokaksaEntry) :
  prevStoredAs data (handleAddGubupSubject studentId subj) →
  let prevSubjects' := prevInserted prevSubjects data in
  totalSubjects ids prevSubjects' = totalSubjects ids prevSubjects + 1
  ∧ default 0 (creditsByCategory ids subjs prevSubjects' dokaksaList !! Major)
    = default 0 (creditsByCategory ids subjs prevSubjects dokaksaList !! Major)
      + spreset_credits subj
  ∧ (∀ cat, cat ≠ Major →
       default 0 (creditsByCategory ids subjs prevSubjects' dokaksaList !! cat)
       = default 0 (creditsByCategory ids subjs prevSubjects dokaksaList !! cat))
  ∧ (∀ c, practiceCount planConfig ids subjs prevSubjects = Some c →
          practiceCount planConfig ids subjs prevSubjects'
          = Some (mkPracticeCounter (counter_required c) (counter_elective c + 1))).
Proof.
  intros (Hcat & Hname & Hcredits) prevSubjects'. simpl in *.
  assert (∀ cat, creditsIn cat (prevEntries prevSubjects')
                 = creditsIn cat (prevEntries prevSubjects)
                   + (if decide (cat = Major) then spreset_credits subj else 0))
    as Hentries.
  { intros cat. unfold prevSubjects', prevInserted, prevEntries.
    rewrite fmap_app, creditsIn_app. f_equal. simpl.
    rewrite Hcat, Hcredits, creditsIn_cons. unfold creditsIn, creditsOf, sumZ.
    simpl. lia. }
  split_and!.
  - unfold totalSubjects, prevSubjects', prevInserted.
    rewrite length_app. simpl. lia.
  - rewrite !lookup_creditsByCategory, Hentries. rewrite decide_True by done. lia.
  - intros cat Hne. rewrite !lookup_creditsByCategory, Hentries.
    rewrite decide_False by done. lia.
  - intros c. unfold practiceCount.
    destruct (practice planConfig); [|done]. intros [= <-].
    unfold prevSubjects', prevInserted. rewrite foldl_app. simpl.
    unfold countPrevMajor at 1. by rewrite Hcat, bool_decide_eq_true_2.
Qed.

Lemma gubup_subject_counts_as_elective_witness :
  practiceCount (getPlanConfig None (Some "사회복지사 실습") None) [] []
    (prevInserted []
       (mkPrevSubject "p-9" "student-1" Major "사회복지현장실습" 3))
  = Some (mkPracticeCounter 0 1).
Proof.
  destruct (gubup_subject_counts_as_elective "student-1"
              (mkSubjectPreset "사회복지현장실습" 3 Required)
              (mkPrevSubject "p-9" "student-1" Major "사회복지현장실습" 3)
              (getPlanConfig None (Some "사회복지사 실습") None) [] [] [] [])
    as (_ & _ & _ & Hcount).
  - by split_and!.
  - apply (Hcount (mkPracticeCounter 0 0)). reflexivity.
Defined.

(** ** Saving and loading again *)

Lemma normalizeSaved_toSaved (s : Semester) : normalizeSaved (toSaved s) = s.
Proof. by destruct s. Qed.

Lemma savedSemesters_savePlan (st : PlanState) :
  semesters st ≠ [] → savedSemesters (Some (savePlan st)) = semesters st.
Proof.
  intros Hne. unfold savedSemesters, savePlan. simpl.
  destruct (semesters st) as [|s l] eqn:E; [done|].
  csimpl. rewrite normalizeSaved_toSaved. f_equal.
  rewrite <- list_fmap_compose. etrans; [|apply list_fmap_id].
  apply list_fmap_ext. intros i x _. apply normalizeSaved_toSaved.
Qed.

(** X25. Loading the row the auto-save wrote for a plan with at least one
    semester gives back its assignment map and its dates, and its
    semesters in order at the head of the list; the selection starts at 0
    again.  What follows the stored semesters are the cohorts of
    class_start the plan did not hold, so a cohort of class_start that
    was deleted from the plan is in the plan again after the load; when
    the plan holds every cohort of class_start, the loaded plan is the
    saved one with selection 0. *)
Theorem save_then_load (st : PlanState) (classStart : option string) :
  semesters st ≠ [] →
  let st' := loadPlanState (subjects st) classStart (Some (savePlan st)) in
  semesterSubjects st' = semesterSubjects st
  ∧ semesterDates st' = semesterDates st
  ∧ selectedSemester st' = 0
  ∧ (∃ added,
       semesters st' = semesters st ++ added
       ∧ ∀ s, s ∈ added →
              ∃ cs, cs ∈ parseClassStart classStart
                    ∧ s = withId cs (sem_id s)
                    ∧ represented (semesters st) cs = false)
  ∧ (∀ cs, cs ∈ parseClassStart classStart →
           represented (semesters st') cs = true)
  ∧ ((∀ cs, cs ∈ parseClassStart classStart →
            represented (semesters st) cs = true) →
     st' = setSelectedSemester st 0).
Proof.
  intros Hne st'.
  pose proof (savedSemesters_savePlan st Hne) as Hsaved.
  assert (semesters st'
          = mergeClassStart (parseClassStart classStart) (semesters st) true) as Hsems.
  { unfold st', loadPlanState, loadSemesters. cbn [semesters].
    rewrite Hsaved. f_equal. }
  split_and!; try done.
  - rewrite Hsems. unfold mergeClassStart.
    destruct (parseClassStart classStart) as [|c cs] eqn:Ecs.
    + exists []. split; [by rewrite app_nil_r|]. by intros s ?%elem_of_nil.
    + rewrite andb_false_r. unfold appendMissing.
      destruct (appendLoop_appends (c :: cs) (semesters st)
                  (maxId (semesters st) + 1)) as (added & -> & Hadded).
      exists added. split; [done|]. intros s Hs.
      by destruct (Hadded s Hs) as [_ ?].
  - intros cs Hcs. rewrite Hsems. by apply mergeClassStart_complete.
  - intros Hall. unfold setSelectedSemester.
    destruct st' as [a b c d e] eqn:E.
    assert (b = semesters st) as ->.
    { change b with (semesters (mkPlanState a b c d e)).
      rewrite Hsems. by apply mergeClassStart_synced. }
    unfold st', loadPlanState in E. by injection E as <- _ <- <- <-.
Qed.

Lemma save_then_load_witness :
  semesters (loadPlanState (subjects exampleCohorts) (Some "2025년 1학기 2기")
               (Some (savePlan (handleDeleteSemester exampleCohorts 2))))
  = semesters (handleDeleteSemester exampleCohorts 2)
    ++ [mkSemester 2 "2025" 1 2 "" ""]
  ∧ loadPlanState (subjects exampleCohorts) (Some "2025년 1학기 2기")
      (Some (savePlan exampleCohorts))
    = setSelectedSemester exampleCohorts 0.
Proof.
  split.
  - destruct (save_then_load (handleDeleteSemester exampleCohorts 2)
                (Some "2025년 1학기 2기")) as (_ & _ & _ & Hadd & _); [done|].
    destruct Hadd as (added & E & _). etrans; [exact E|]. f_equal.
    apply (app_inv_head (semesters (handleDeleteSemester exampleCohorts 2))).
    rewrite <- E. by vm_compute.
  - destruct (save_then_load exampleCohorts (Some "2025년 1학기 2기"))
      as (_ & _ & _ & _ & _ & Hsame); [done|].
    apply Hsame. intros cs Hcs. vm_compute in Hcs.
    apply elem_of_cons in Hcs as [->|Hcs]; [reflexivity | by apply elem_of_nil in Hcs].
Defined.

(** ** Scenarios *)

(** With 전공 selected, the panel of the example catalog shows one group,
    the seven major subjects. *)
Lemma groupedSubjects_partition_witness :
  groupedSubjects (filteredSubjects "전공" exampleCatalog)
  = [(Major, ofCategory Major exampleCatalog)].
Proof.
  destruct (groupedSubjects_partition "전공" exampleCatalog)
    as (_ & _ & _ & _ & Hone).
  destruct (Hone ltac:(discriminate) Major
              (ofCategory Major (filteredSubjects "전공" exampleCatalog)))
    as (_ & Hgroups & Hall).
  - vm_compute. by apply elem_of_cons; left.
  - rewrite Hgroups. by rewrite Hall.
Defined.

(** The first half of 2025 runs by default from 15 November 2024 to
    5 May 2025. *)
Lemma getDefaultDates_decimal_witness :
  getDefaultDates "2025" 1 = mkSemesterDates "2024-11-15" "2025-05-05"
  ∧ getDefaultDates "내년" 2 = mkSemesterDates "NaN-05-15" "NaN-11-05".
Proof.
  destruct (getDefaultDates_decimal 2025 1) as (_ & Hdates & _); [reflexivity|].
  destruct (getDefaultDates_decimal 0 2) as (_ & _ & Hnan); [reflexivity|].
  split; [exact Hdates | apply Hnan; reflexivity].
Defined.

Lemma handlePhone_digits_witness :
  handlePhone "010 1234 5678 9" = "010-1234-5678"
  ∧ handlePhone "01" = "01".
Proof.
  destruct (handlePhone_digits "01") as (_ & _ & _ & Hshort & _).
  destruct (handlePhone_digits "010 1234 5678 9") as (Hdigits & Hidem & _).
  split; [|apply Hshort; simpl; lia].
  rewrite <- Hidem. reflexivity.
Defined.

Lemma status_lists_partition_witness :
  enrolledCount id ["등록"; "환불"; "수료"; "삭제예정"; "등록"] = 2%nat
  ∧ "환불" ∉ activeStudents id ["등록"; "환불"; "수료"; "삭제예정"; "등록"].
Proof.
  destruct (status_lists_partition id ["등록"; "환불"; "수료"; "삭제예정"; "등록"])
    as (_ & Hone & _ & Henrolled & _).
  split; [by rewrite Henrolled|].
  destruct (Hone "환불") as [(Hin & _)|[(Hout & _)|(Hout & _)]]; try done.
  - apply elem_of_cons; right. by apply elem_of_cons; left.
  - apply list_elem_of_filter in Hin as [[Hne _] _]. by destruct Hne.
Defined.

(** ** What the requirement profile depends on *)

(** X26. The profile depends on its inputs only through four tests: the
    practicum marker in the course name, the level being one of the
    high-school and withdrawn levels, the level being a 2- or 3-year
    graduation, and the desired degree being the bachelor.  Two inputs
    that agree on the four tests get the same profile; so a desired
    degree other than the bachelor is resolved like no degree at all,
    whatever the level. *)
Theorem getPlanConfig_depends_on_tests
    (level1 course1 degree1 level2 course2 degree2 : option string) :
  (containsPracticum course1 ↔ containsPracticum course2) →
  (levelIn level1 JUNGTAE_GROUP ↔ levelIn level2 JUNGTAE_GROUP) →
  (levelIn level1 TWOTHREE_GRAD ↔ levelIn level2 TWOTHREE_GRAD) →
  (degree1 = Some "학사" ↔ degree2 = Some "학사") →
  getPlanConfig level1 course1 degree1 = getPlanConfig level2 course2 degree2.
Proof.
  intros Hc Hj Ht Hd.
  destruct (getPlanConfig_cases level1 course1 degree1)
    as [(? & E1) | [(? & ? & ? & E1) | [(? & ? & ? & E1)
       | [(? & ? & ? & ? & E1) | (? & ? & ? & E1)]]]];
    destruct (getPlanConfig_cases level2 course2 degree2)
      as [(? & E2) | [(? & ? & ? & E2) | [(? & ? & ? & E2)
         | [(? & ? & ? & ? & E2) | (? & ? & ? & E2)]]]];
    simpl in E1, E2; rewrite E1, E2; try reflexivity; exfalso; tauto.
Qed.

(** A 2-year graduate whose form still holds the associate degree chosen
    under an earlier level gets the profile of "none". *)
Lemma getPlanConfig_depends_on_tests_witness :
  getPlanConfig (Some "2년제졸업") (Some "사회복지사2급(신법)") (Some "전문학사")
  = getPlanConfig (Some "2년제졸업") (Some "사회복지사2급(신법)") (Some "없음").
Proof.
  apply getPlanConfig_depends_on_tests; [done | done | done |].
  split; discriminate.
Defined.

(** ** Category cards over the string-keyed map *)

Global Instance creditTypeKey_inj : Inj (=) (=) ByKey.creditTypeKey.
Proof. intros [[]|] [[]|]; simpl; intros H; done. Qed.

Lemma ByKey_lookup_addCredits (m : gmap string Z) (k k' : string) (n : Z) :
  default 0 (ByKey.addCredits m k n !! k')
  = default 0 (m !! k') + (if decide (k = k') then n else 0).
Proof.
  unfold ByKey.addCredits. destruct (decide (k = k')) as [->|Hne].
  - by rewrite lookup_insert_eq.
  - rewrite lookup_insert_ne by done. lia.
Qed.

Lemma ByKey_lookup_addEntries (m : gmap string Z)
    (l : list (option SubjectCategory * Z)) (t : option SubjectCategory) :
  default 0 (ByKey.addEntries m l !! ByKey.creditTypeKey t)
  = default 0 (m !! ByKey.creditTypeKey t) + ByKey.creditsUnder t l.
Proof.
  unfold ByKey.addEntries, ByKey.creditsUnder, sumZ.
  revert m. induction l as [|[c n] l IH]; intros m; simpl; [lia|].
  rewrite IH, ByKey_lookup_addCredits, filter_cons. simpl.
  destruct (decide (c = t)) as [->|Hne].
  - rewrite decide_True by done. csimpl. lia.
  - rewrite decide_False by (intros E; by apply (inj _) in E). lia.
Qed.

(** Adding credits under a key adds them to the sum of the values,
    whether the key was there or not. *)
Lemma ByKey_values_addCredits (m : gmap string Z) (k : string) (n : Z) :
  sumZ ((map_to_list (ByKey.addCredits m k n)).*2)
  = sumZ ((map_to_list m).*2) + n.
Proof.
  unfold ByKey.addCredits. destruct (m !! k) as [v|] eqn:E; simpl.
  - rewrite <- insert_delete_eq.
    rewrite (sumZ_Permutation _ _
               (fmap_Permutation snd _ _
                  (map_to_list_insert (delete k m) k (v + n)
                     (lookup_delete_eq m k)))).
    rewrite <- (sumZ_Permutation _ _
                  (fmap_Permutation snd _ _ (map_to_list_delete m k v E))).
    rewrite !fmap_cons. unfold sumZ. simpl. lia.
  - rewrite (sumZ_Permutation _ _
               (fmap_Permutation snd _ _ (map_to_list_insert m k (0 + n) E))).
    rewrite fmap_cons. unfold sumZ. simpl. lia.
Qed.

Lemma ByKey_values_addEntries (m : gmap string Z)
    (l : list (option SubjectCategory * Z)) :
  sumZ ((map_to_list (ByKey.addEntries m l)).*2)
  = sumZ ((map_to_list m).*2) + sumZ (l.*2).
Proof.
  unfold ByKey.addEntries.
  revert m. induction l as [|[c n] l IH]; intros m; csimpl.
  - unfold sumZ. simpl. lia.
  - rewrite IH, ByKey_values_addCredits. unfold sumZ. simpl. lia.
Qed.

(** Every contribution falls under one of the three labels or under none. *)
Lemma creditsUnder_all (l : list (option SubjectCategory * Z)) :
  sumZ (l.*2)
  = ByKey.creditsUnder (Some Major) l + ByKey.creditsUnder (Some Liberal) l
    + ByKey.creditsUnder (Some General) l + ByKey.creditsUnder None l.
Proof.
  unfold ByKey.creditsUnder, sumZ.
  induction l as [|[c n] l IH]; simpl; [done|].
  rewrite !filter_cons. simpl.
  destruct c as [[]|]; repeat case_decide; try done; csimpl; lia.
Qed.

Lemma creditsUnder_app (t : option SubjectCategory)
    (l k : list (option SubjectCategory * Z)) :
  ByKey.creditsUnder t (l ++ k)
  = ByKey.creditsUnder t l + ByKey.creditsUnder t k.
Proof.
  unfold ByKey.creditsUnder. rewrite filter_app, fmap_app.
  unfold sumZ. rewrite foldr_app.
  generalize ((filter (λ e, e.1 = t) l).*2). intros x.
  induction x as [|a x IH]; simpl; lia.
Qed.

(** The contributions of the catalog and of the prior institution carry a
    label. *)
Lemma creditsUnder_typed (t : option SubjectCategory)
    (l : list (SubjectCategory * Z)) :
  ByKey.creditsUnder t ((λ e, (Some e.1, e.2)) <$> l)
  = match t with Some cat => creditsIn cat l | None => 0 end.
Proof.
  unfold ByKey.creditsUnder, creditsIn, creditsOf, sumZ.
  induction l as [|[c n] l IH]; csimpl; [by destruct t|].
  destruct t as [cat|].
  - rewrite (filter_cons (λ e : option SubjectCategory * Z, e.1 = Some cat)).
    rewrite (filter_cons (λ e : SubjectCategory * Z, e.1 = cat)).
    cbn [fst]. repeat case_decide; try congruence; csimpl; by rewrite IH.
  - rewrite filter_cons. cbn [fst]. by rewrite decide_False.
Qed.

Lemma creditsUnder_rows (dokaksaList : list ByKey.DokaksaRow) :
  ByKey.creditsUnder None
    ((λ d, (ByKey.row_credit_type d, ByKey.row_credits d)) <$> dokaksaList)
  = ByKey.untypedCredits dokaksaList.
Proof.
  unfold ByKey.creditsUnder, ByKey.untypedCredits, sumZ.
  induction dokaksaList as [|d l IH]; csimpl; [done|].
  rewrite (filter_cons (λ e : option SubjectCategory * Z, e.1 = None)).
  rewrite (filter_cons (λ d, ByKey.row_credit_type d = None)).
  cbn [fst]. repeat case_decide; try congruence; csimpl; by rewrite IH.
Qed.

Lemma creditsUnder_typed_rows (cat : SubjectCategory)
    (typed : list DokaksaEntry) :
  ByKey.creditsUnder (Some cat)
    ((λ d, (ByKey.row_credit_type d, ByKey.row_credits d))
       <$> (ByKey.ofEntry <$> typed))
  = creditsIn cat (dokaksaEntries typed).
Proof.
  rewrite <- (creditsUnder_typed (Some cat)).
  unfold dokaksaEntries. by rewrite <- !list_fmap_compose.
Qed.

Lemma ByKey_creditsByCategory_entries (ids : list Z) (subjs : list Subject)
    (prevSubjects : list PrevSubject) (dokaksaList : list ByKey.DokaksaRow) :
  ByKey.creditsByCategory ids subjs prevSubjects dokaksaList
  = ByKey.addEntries ∅ (ByKey.entries ids subjs prevSubjects dokaksaList).
Proof.
  unfold ByKey.creditsByCategory, ByKey.addEntries, ByKey.entries.
  rewrite fmap_app, !foldl_app. unfold prevEntries.
  rewrite <- !list_fmap_compose, !foldl_fmap. simpl.
  do 2 f_equal. generalize (∅ : gmap string Z).
  unfold assignedEntries.
  induction ids as [|sid ids IH]; intros m; simpl; [done|].
  destruct (findSubject subjs sid) as [s|]; simpl; by rewrite IH.
Qed.

Lemma getPlanConfig_extended_categories
    (educationLevel courseName desiredDegree : option string) :
  isHighSchool (getPlanConfig educationLevel courseName desiredDegree) = true →
  target_categories <$> targets (getPlanConfig educationLevel courseName desiredDegree)
  = [[Major]; [Liberal]; [General]].
Proof.
  destruct (getPlanConfig_cases educationLevel courseName desiredDegree)
    as [(Hc & E) | [(Hc & _ & _ & E) | [(Hc & _ & _ & E)
       | [(Hc & _ & _ & _ & E) | (Hc & _ & _ & E)]]]];
    rewrite E; simpl; intros H; done.
Qed.

Lemma untypedCredits_typed (typed : list DokaksaEntry) :
  ByKey.untypedCredits (ByKey.ofEntry <$> typed) = 0.
Proof.
  unfold ByKey.untypedCredits.
  induction typed as [|d l IH]; csimpl; [done|].
  rewrite filter_cons. cbn [ByKey.row_credit_type ByKey.ofEntry].
  by rewrite decide_False.
Qed.

(** X3. In an extended profile the three category cards and the
    certificate credits account for the grand total up to the credits of
    the self-study rows that carry no credit type: those enter the total
    under the key ["null"] and appear on no card.  When every row carries
    one, the cards and the certificates add up to the total, and each
    card shows what the map keyed by category holds. *)
Theorem category_cards_add_up
    (educationLevel courseName desiredDegree : option string)
    (ids : list Z) (subjs : list Subject) (prevSubjects : list PrevSubject)
    (dokaksaList : list ByKey.DokaksaRow) (cert : Z) :
  let cfg := getPlanConfig educationLevel courseName desiredDegree in
  let byCategory :=
    ByKey.creditsByCategory ids subjs prevSubjects dokaksaList in
  isHighSchool cfg = true →
  sumZ (ByKey.earnedByTarget byCategory cfg) + cert
    + ByKey.untypedCredits dokaksaList
  = ByKey.totalCredits byCategory cert
  ∧ default 0 (byCategory !! "null") = ByKey.untypedCredits dokaksaList
  ∧ (∀ typed : list DokaksaEntry,
       dokaksaList = ByKey.ofEntry <$> typed →
       sumZ (ByKey.earnedByTarget byCategory cfg) + cert
       = ByKey.totalCredits byCategory cert
       ∧ ByKey.earnedByTarget byCategory cfg
         = earnedByTarget
             (creditsByCategory ids subjs prevSubjects typed) cfg).
Proof.
  intros cfg byCategory Hext.
  apply getPlanConfig_extended_categories in Hext. fold cfg in Hext.
  set (l := ByKey.entries ids subjs prevSubjects dokaksaList).
  assert (∀ t, default 0 (byCategory !! ByKey.creditTypeKey t)
               = ByKey.creditsUnder t l) as Hkey.
  { intros t. subst byCategory.
    rewrite ByKey_creditsByCategory_entries, ByKey_lookup_addEntries.
    by rewrite lookup_empty. }
  assert (ByKey.creditsUnder None l = ByKey.untypedCredits dokaksaList)
    as Hnone.
  { subst l. unfold ByKey.entries.
    by rewrite creditsUnder_app, creditsUnder_typed, creditsUnder_rows. }
  assert (sumZ (ByKey.earnedByTarget byCategory cfg)
          = ByKey.creditsUnder (Some Major) l
            + ByKey.creditsUnder (Some Liberal) l
            + ByKey.creditsUnder (Some General) l) as Hcards.
  { unfold ByKey.earnedByTarget.
    rewrite (list_fmap_compose target_categories
               (ByKey.getCategoryCredits byCategory)), Hext.
    unfold ByKey.getCategoryCredits, sumZ. simpl.
    rewrite <- !Hkey. simpl. lia. }
  assert (ByKey.totalCredits byCategory cert = sumZ (l.*2) + cert) as Htotal.
  { unfold ByKey.totalCredits. subst byCategory.
    rewrite foldl_Zadd, ByKey_creditsByCategory_entries,
      ByKey_values_addEntries, map_to_list_empty.
    fold l. unfold sumZ at 1. simpl. lia. }
  split_and!.
  - rewrite Hcards, Htotal, (creditsUnder_all l), Hnone. lia.
  - rewrite <- Hnone. apply (Hkey None).
  - intros typed ->. split.
    + rewrite Hcards, Htotal, (creditsUnder_all l), Hnone.
      rewrite untypedCredits_typed. lia.
    + unfold ByKey.earnedByTarget, earnedByTarget.
      rewrite (list_fmap_compose target_categories
                 (ByKey.getCategoryCredits byCategory)).
      rewrite (list_fmap_compose target_categories
                 (getCategoryCredits
                    (creditsByCategory ids subjs prevSubjects typed))).
      rewrite Hext. unfold ByKey.getCategoryCredits, getCategoryCredits.
      rewrite !fmap_cons, !fmap_nil. cbn [foldl].
      pose proof (λ c, Hkey (Some c)) as Hlabel.
      cbn [ByKey.creditTypeKey] in Hlabel.
      rewrite !Hlabel, !lookup_creditsByCategory.
      subst l. unfold ByKey.entries.
      rewrite !creditsUnder_app, !creditsUnder_typed, !creditsIn_app,
        !creditsUnder_typed_rows.
      repeat f_equal; lia.
Qed.

(** The bachelor profile of a high-school graduate, the example plan with
    one prior subject and 5 certificate credits: with the row added by
    hand the cards and the certificates show 32 of a total of 36. *)
Lemma category_cards_add_up_witness :
  sumZ (ByKey.earnedByTarget
          (ByKey.creditsByCategory (assignedIds exampleAssignment)
             exampleCatalog [examplePrev] exampleRows)
          (getPlanConfig (Some "고졸") None (Some "학사")))
  + 5 = 32
  ∧ ByKey.untypedCredits exampleRows = 4
  ∧ ByKey.totalCredits
      (ByKey.creditsByCategory (assignedIds exampleAssignment)
         exampleCatalog [examplePrev] exampleRows) 5 = 36.
Proof.
  destruct (category_cards_add_up (Some "고졸") None (Some "학사")
              (assignedIds exampleAssignment) exampleCatalog [examplePrev]
              exampleRows 5) as (Hsum & _); [reflexivity|].
  assert (ByKey.untypedCredits exampleRows = 4) as Hu by reflexivity.
  split_and!; [|exact Hu|].
  - vm_compute. reflexivity.
  - rewrite <- Hsum, Hu. vm_compute. reflexivity.
Defined.
